(* ===== verification/_CoqProject ===== *)
-Q . S2P
Prelude.v
JsValue.v
Url.v
Options.v
Channel.v
Http.v
Creds.v
Finalize.v
Putfile.v
Upload.v
Safety.v
Failure.v
Consistency.v
Bounds.v
Typing.v
Refinement.v
Progress.v
Completion.v
Meter.v
