(* ===== verification/Prelude.v ===== *)
(** * mapbox-upload: a verification development of src/index.js

    ** The program

    [src/index.js] uploads a file or a stream to Mapbox in three remote
    steps and reports on one event channel.  [upload(opts)] (lines 16-27)
    creates [prog], a [progress-stream] transform, validates the options
    with [upload.opts] (30-45) and calls [upload.getcreds] (51-76), whose
    callback calls [upload.putfile] (78-134); the upload stream's
    ['uploaded'] event calls [upload.createUpload] (136-168), which emits
    ['finished'].  Every failure goes through [upload.error] (47-49), which
    emits ['error'] on [prog].  [upload.testcreds] (172-189) builds test
    credentials from the environment.  The stages share no state but
    [prog] and the options object, which each re-validates.

    ** The library, file by file

    - [Prelude] (this file): the [outcome] type of code that may throw
      ([Ok] / [Thrown]) with its [let?] bind in [upload_scope], the hint
      databases [upload] and [upload_rw], the tactics [case_ifs] and
      [inj_some], counting lemmas on lists.
    - [JsValue]: the JavaScript values the code handles ([jsval]), its
      errors ([js_error]), truthiness, property access (which throws on
      [null]/[undefined]), [String(v)], [Number(v)] ([to_number]), decimal
      printing of numbers with its round trip, and [split('.')].
    - [Url] (Module [Url]): [url.parse(s).host] as Node's legacy
      [Url.prototype.parse] computes it (protocol, slashes, user info,
      host scan, port, hostname checks, lower-casing), and
      [url.parse(s).protocol].
    - [Options] (Module [Options]): [upload.opts] as [upload_opts], which
      returns the caller's object as the code leaves it (it assigns
      [proxy] and [mapbox] into it) and the outcome; [check_opts] holds
      the five throwing checks in the code's order.
    - [Channel]: the interface [Emitter] the stages use for [prog] (emit,
      whether the caller listens for ['error'], a fresh channel),
      [upload_error] (Node throws an unlistened ['error']), the concrete
      channel [trace_chan] that records the events, and the [meter] of
      [progress-stream] (a dependency, modelled from its source): its
      closure's [length], [transferred] and [delta], its [update] object
      ([remaining], [delta], [percentage]), [setLength], the transform of
      a chunk ([write_chunk]) and [emit] ([emit_update]).
    - [Http]: the requests given to [request] and the replies its callback
      receives; [JSON.parse] is abstracted by [raw_body];
      [request_refusal], the checks by which [request] refuses a URI
      inside the call (no host, a protocol without an HTTP module).
    - [Creds] (Module [Creds]): [getcreds_send] (the synchronous part of
      [upload.getcreds]), [getcreds_reply] (its callback), [testcreds].
    - [Finalize] (Module [Finalize]): [check_stage] (the re-checks shared
      by [putfile] and [createUpload]), [create_upload_send],
      [create_upload_reply].
    - [Putfile] (Module [Putfile]): [putfile_send] (source resolution,
      S3 parameters), [mpu_ready] (the uploader's callback),
      [upload_stream_error], [file_error], [progress] (the stats relay).
    - [Upload] (Module [Upload]): the orchestrator.  [world] is the state
      of one upload: the channel, the meter, the network calls made, the
      registered callbacks with the values their closures captured, the
      byte source, and an uncaught exception if one escaped a callback.
      [upload] is [upload(opts)], including the callback [request.get]
      runs inside the call when it refuses the URI (the host's
      [request_sync]); [deliver] applies one [input] (a library
      calling back, or the caller attaching its ['error'] listener) by the
      handler the code registered for it, [run] a list of inputs, and
      [reachable] is the inductive closure of [upload] under [deliver].
    - [Safety] (Module [Safety]): the invariant [inv] of reachable worlds
      (which callbacks coexist at each stage, what the channel holds),
      proved by rule induction, and the safety theorems read off it.
    - [Failure] (Module [Failure]): worlds with no callback left
      ([idle]) and what a rejected credentials reply leaves behind;
      channels without an ['error'] listener ([quiet]); sources that can
      no longer feed [prog] ([src_quiet]) and the events that may follow
      an error ([closed_after]).
    - [Consistency] (Module [Consistency]): what the closures of the
      callbacks hold ([has_setup]) and the invariant [cinv] linking each
      [POST] to an S3 upload of the same bucket and key.
    - [Typing] (Module [Typing]): the types of the values the callbacks'
      closures capture ([setup_typed], [source_ok]).
    - [Bounds] (Module [Bounds]): the callbacks still able to report an
      error ([pending]) and the count of ['error'] events ([errors]).
    - [Refinement] (Module [Refinement]): the spec's stage machine
      ([Init], [Validated], [CredentialsAcquired], [Stored], [Finalized],
      [Failed]) as the step relation [astep], and [phase_of], which reads
      the stage off a world (an ['error'] or a crash: failed; ['finished']:
      finalized; otherwise the network calls made so far).
    - [Progress] (Module [Progress]): the byte counts of the ['stats']
      events ([stats_of]) and the boolean [nondecreasing].
    - [Completion] (Module [Completion]): the inputs of a successful
      upload of a file ([success_run]) or of a caller stream
      ([stream_run]) and the runs they produce.
    - [Meter] (Module [Meter]): the [update] object along a run: the
      [delta]s of the samples ([deltas]) and the samples of a stream
      whose length stays unknown ([flat_sample]).

    ** What is proved

    - Options: what validation guarantees to the later stages, its
      idempotence (so the re-checks of the later stages never fire), its
      completeness for well-formed requests, the message of each missing
      option in the code's order, the mismatch error.
    - Credentials: exactly when the reply callback passes credentials on
      (200, object body, truthy [key] and [bucket]), each error branch;
      for an ordinary base URL [http(s)://h] the request is the spec's
      GET with the caller's proxy and [Host: h].
    - Finalization: ['finished'] exactly on a 201 reply.
    - Orchestration: ['finished'] is emitted at most once, never after an
      ['error'], and only ['length'] events can follow it; the network
      calls follow GET, S3, POST; the POST needs the upload stream's
      ['uploaded']; the upload stream's ['error'] handler reports exactly
      one ['error'], unpipes the source and prevents any POST, and the
      read stream's handler reports a file's read error and prevents any
      POST; under [request]'s own checks, [upload] with the default or
      any ordinary base URL returns [prog] with the credentials GET sent.
    - Typing: in every reachable world the closures hold options
      [upload.opts] accepted, credentials with a truthy [key] and
      [bucket], and the source their options name.
    - Consistency: the URL each [POST] registers is
      [http://<bucket>.s3.amazonaws.com/<key>] of an S3 upload started.
    - Bounds: one upload emits at most two ['error'] events, and
      [two_errors_reachable] reaches two.
    - Failure: a credentials reply the callback rejects leaves exactly
      one ['error'] and nothing after it; before the caller listens no
      ['error'] reaches the channel, and the credentials callback, the
      upload stream's and the read stream's ['error'] handlers end the
      process with the error they report;
      after any ['error'] no ['progress'], ['stats'] or ['finished']
      follows.
    - Refinement: in every reachable world an input leaves the stage
      alone or makes one [astep]; [upload] is the step out of [Init], and
      along any run a later stage is [astep]-reachable from an earlier one.
    - Completion: for valid options, an existing file and accepted
      credentials, the inputs of a successful upload produce the GET, the
      S3 upload and the POST, and the events ['length'], progress,
      ['stats'] and ['finished'] with the reply's body, in this order; for a caller
      stream without [opts.length] the samples carry the length its
      ['length'] event announced.  Conversely
      ['finished'] with body [b] needs a 201 reply with body [b].
    - Progress: the byte counts of the ['stats'] events never decrease and
      never exceed the bytes the meter counted.
    - Meter: the [delta]s of the samples and the bytes not yet reported
      add up to the bytes counted, in every reachable world; a caller
      stream without [opts.length] that never reports its length gets
      samples with length 0, remaining 0 and percentage 0, and 100 at the
      flush (the spec's open question; the comment of src/index.js:91
      says no progress is reported); a length announced late and short
      gives a percentage above 100 and a negative [remaining].
    - Test credentials: [testcreds] fails exactly when an AWS key is
      missing, and otherwise returns credentials the callback accepts.
    - Deviations of the code from the spec, as theorems: [upload] throws
      exactly on a validation error (no listener exists yet), on a
      [mapbox] that is not a string ([url.parse] throws), and on a
      credentials URI [request] refuses inside the call; two ['error']
      events can be emitted for one upload; once the caller listens, the
      credentials callback throws for exactly the 200 replies with a
      [null] body; a non-JSON reply body is a [SyntaxError] whatever the
      status; a missing file makes the credentials callback throw; the
      [instanceof stream] guard is dead, so a non-stream [opts.stream]
      throws; a map id equal to the account (no [.]) is accepted; an
      ['error'] of a caller-supplied stream reaches nobody.

    ** Modelling choices

    The asynchronous behaviour is a state machine: an input with no
    registered handler changes nothing, as an event nobody listens to.
    The libraries' guarantees are built into [deliver]: [request] and the
    uploader call back once, a source delivers data only while piped and
    before its end or error, the upload stream emits one of ['error'] and
    ['uploaded'], the latter after the source ended.  An ['error'] on
    [prog] unpipes the source (the [onerror] that [pipe] installs).  The
    code attaches no ['error'] listener to a caller-supplied stream, whose
    errors are taken to be handled by the caller.  Every theorem on the
    orchestrator is proved against the [Emitter] interface; the witnesses
    instantiate it with [trace_chan].  No definition of the program needs
    fuel: each is structural, and runs are finite lists of inputs.
    [request] refuses some URIs inside the call, running its callback
    before [request.get] returns; whether it does is the host's
    [request_sync], and [Http.request_refusal] gives [request]'s rule (the
    scenarios use it).  The [POST] of [createUpload] starts with the same
    [opts.mapbox + '/uploads/v1/'] as the [GET] and goes through the same
    proxy, so once the [GET] went out [request] accepts it too, and the
    model sends it.

    Not modelled: the HTTP transport, TLS, DNS and proxies (the [request]
    library), the S3 client and the multipart chunking ([aws-sdk],
    [s3-upload-stream]), reading files ([fs]), the clock of
    [progress-stream] (its 100 ms throttle is the [tick] flag of a data
    input) and the [speed], [eta] and [runtime] fields it reads off it,
    and the library's ['pipe'] handler, which returns at once since
    [progress({ time: 100 })] makes [length] the number 0; [JSON.parse] is
    taken as given.  The payload of ['progress'] and ['stats'] is the one
    [update] object of [progress-stream], which later chunks keep
    mutating; the model records each event with the values the object
    holds when it is emitted (what a listener reading it at once sees),
    so what a listener that keeps payloads reads later is not modelled.
    Several uploads in one process are not modelled: each call has its
    own [prog] and closures, and the options object they may share is
    only written by [upload.opts], whose writes are idempotent
    ([upload_opts_idem]).  [update.percentage] is the exact rational quotient
    the JavaScript double rounds ([None] for [NaN] and the infinities),
    and [Number(s)] reads the decimal integer literals only (a string in
    another numeric notation is taken as [NaN]).  In [url.parse] the IDNA
    conversion [toASCII] of the hostname is the identity (the model's
    strings are byte strings), and the exceptions newer Node versions
    raise after it are not modelled.  [util.format]'s [%s] is [String(v)]
    ([format_s]); Node 12 and later print an object or array argument
    (only an access token can be one after validation) with
    [util.inspect] instead.  Error
    objects are not values of [jsval], so [String(e)] of an error the
    upload stream reports is not modelled beyond the values [jsval] has.
    Numbers are the integral ones.  Apart from these, which belong to
    the libraries and the runtime (their sources are not in the
    repository, and their effect on the code reaches the model as
    inputs), every statement of src/index.js except the [require]s and
    the export is translated. *)

From Stdlib Require Import String Ascii List ZArith Bool Lia.
Import ListNotations.

(** ** Outcomes of JavaScript code that may throw

    [Ok a] is a normal return with value [a]; [Thrown e] is an exception
    [e] propagating out of the code. *)
Inductive outcome (E A : Type) : Type :=
| Ok (a : A)
| Thrown (e : E).
Arguments Ok {E A} a.
Arguments Thrown {E A} e.

Definition obind {E A B} (c : outcome E A) (k : A -> outcome E B) : outcome E B :=
  match c with
  | Ok a => k a
  | Thrown e => Thrown e
  end.

Declare Scope upload_scope.
Delimit Scope upload_scope with upload.
Notation "'let?' x ':=' c 'in' k" := (obind c (fun x => k))
  (at level 10, x name, c at level 100, k at level 200) : upload_scope.
Open Scope upload_scope.

Definition is_ok {E A} (c : outcome E A) : bool :=
  match c with Ok _ => true | Thrown _ => false end.

Create HintDb upload discriminated.

Lemma obind_assoc {E A B D} (c : outcome E A) (f : A -> outcome E B) (g : B -> outcome E D) :
  obind (obind c f) g = obind c (fun a => obind (f a) g).
Proof. destruct c; reflexivity. Qed.
Create Rewrite HintDb upload_rw.

Lemma obind_ok {E A B} (c : outcome E A) (k : A -> outcome E B) b :
  obind c k = Ok b -> exists a, c = Ok a /\ k a = Ok b.
Proof. destruct c; simpl; [eauto | discriminate]. Qed.

Lemma obind_thrown {E A B} (c : outcome E A) (k : A -> outcome E B) e :
  obind c k = Thrown e -> c = Thrown e \/ exists a, c = Ok a /\ k a = Thrown e.
Proof. destruct c; simpl; [right; eauto | left; congruence]. Qed.

(** ** Substrings *)

Lemma substring_all s : substring 0 (String.length s) s = s.
Proof. induction s as [|a s IH]; simpl; rewrite ?IH; reflexivity. Qed.

Lemma append_empty_r x : (x ++ EmptyString)%string = x.
Proof. induction x as [|a x IH]; simpl; rewrite ?IH; reflexivity. Qed.

Lemma append_assoc_str x y z : ((x ++ y) ++ z)%string = (x ++ y ++ z)%string.
Proof. induction x as [|a x IH]; simpl; rewrite ?IH; reflexivity. Qed.

(** The first [length x] characters of [x ++ y] are [x]. *)
Lemma substring_app_l x y : substring 0 (String.length x) (x ++ y) = x.
Proof. induction x as [|a x IH]; simpl; [destruct y|rewrite IH]; reflexivity. Qed.

(** ** Generic facts on strings and lists *)

Lemma string_eqb_sym (s t : string) : String.eqb s t = String.eqb t s.
Proof.
  destruct (String.eqb s t) eqn:E1, (String.eqb t s) eqn:E2; auto.
  - apply String.eqb_eq in E1; subst; rewrite String.eqb_refl in E2; discriminate.
  - apply String.eqb_eq in E2; subst; rewrite String.eqb_refl in E1; discriminate.
Qed.

(** The number of elements of a list that satisfy a boolean test. *)
Definition count_if {A} (p : A -> bool) (l : list A) : nat :=
  length (filter p l).

Lemma count_if_app {A} (p : A -> bool) l1 l2 :
  count_if p (l1 ++ l2) = count_if p l1 + count_if p l2.
Proof. unfold count_if. rewrite filter_app, length_app. reflexivity. Qed.

Lemma count_if_cons {A} (p : A -> bool) a l :
  count_if p (a :: l) = (if p a then 1 else 0) + count_if p l.
Proof. unfold count_if. simpl. destruct (p a); reflexivity. Qed.

Lemma count_if_nil {A} (p : A -> bool) : count_if p [] = 0.
Proof. reflexivity. Qed.

#[export] Hint Rewrite @count_if_app @count_if_cons @count_if_nil : upload_rw.

(** Injects the equations between [Some]s among the hypotheses. *)
Ltac inj_some :=
  repeat match goal with Hs : Some _ = Some _ |- _ => injection Hs as Hs; subst end.

(** Case analysis on every [if] and [match] of the goal, the workhorse of
    the handler proofs. *)
Ltac case_ifs :=
  repeat match goal with
         | |- context [if ?b then _ else _] => destruct b eqn:?
         | |- context [match ?x with _ => _ end] =>
             lazymatch x with
             | context [match _ with _ => _ end] => fail
             | _ => destruct x eqn:?
             end
         end.
