(* ===== verification/JsValue.v ===== *)
(** * JsValue: the fragment of JavaScript values that src/index.js touches

    The options object, the JSON bodies of the hosting API and the error
    objects of src/index.js are JavaScript values.  This file gives them a
    type ([jsval], [js_error]) and the language operations the source applies
    to them: truthiness ([!x], [a || b], [a && b]), [typeof x == 'string'],
    property access ([body.key]), conversion to string (in [new Error(x)] and
    ['...' + n]) and [String.prototype.split]. *)

From Stdlib Require Import String Ascii List ZArith Bool Lia DecimalString DecimalZ.
From S2P Require Import Prelude.
Import ListNotations.
Local Open Scope string_scope.

(** ** Values

    Numbers are the integral ones (status codes, byte lengths); [NaN] and
    fractions never reach the code paths modelled.  [JStream n] is a host
    object that is an instance of Node's [stream] (the caller's [opts.stream]);
    [JObj] is a plain object, with its own properties in insertion order. *)
#[local] Set Warnings "-register-all".
Inductive jsval : Type :=
| JUndefined
| JNull
| JBool (b : bool)
| JNum (n : Z)
| JStr (s : string)
| JArr (elems : list jsval)
| JObj (props : list (string * jsval))
| JStream (id : nat).

(** Errors raised by the code ([new Error(msg)], possibly with [err.code]),
    by the language ([TypeError], the [SyntaxError] of [JSON.parse]) and
    by the libraries the code calls ([HostError]: a transport error of
    [request], an [fs] error, an error of the S3 client). *)
Inductive host : Type := HRequest | HFs | HS3 | HSource.

Inductive js_error : Type :=
| Error (message : string) (code : option Z)
| TypeError (message : string)
| SyntaxError
| HostError (origin : host) (id : nat).

(** ** Truthiness: [!x] is [negb (truthy x)] *)
Definition truthy (v : jsval) : bool :=
  match v with
  | JUndefined | JNull => false
  | JBool b => b
  | JNum n => negb (Z.eqb n 0)
  | JStr s => negb (String.eqb s "")
  | JArr _ | JObj _ | JStream _ => true
  end.

(** [a || b] and [a && b] return one of their operands. *)
Definition js_or (a b : jsval) : jsval := if truthy a then a else b.
Definition js_and (a b : jsval) : jsval := if truthy a then b else a.

Definition is_string (v : jsval) : bool :=
  match v with JStr _ => true | _ => false end.

(** [typeof v] *)
Definition js_typeof (v : jsval) : string :=
  match v with
  | JUndefined => "undefined"
  | JBool _ => "boolean"
  | JNum _ => "number"
  | JStr _ => "string"
  | JNull | JArr _ | JObj _ | JStream _ => "object"
  end.

(** [v instanceof stream] *)
Definition instanceof_stream (v : jsval) : bool :=
  match v with JStream _ => true | _ => false end.

(** ** Property access [v.name]

    Reading a property of [undefined] or [null] throws a [TypeError]; an
    object answers its own property (the last one when [JSON.parse] met a
    duplicate key) or [undefined]; the other values have none of the
    properties the code reads ([key], [bucket], [message]). *)
Fixpoint assoc_last (k : string) (l : list (string * jsval)) : option jsval :=
  match l with
  | [] => None
  | (k', v) :: l' =>
      match assoc_last k l' with
      | Some w => Some w
      | None => if String.eqb k k' then Some v else None
      end
  end.

Definition get_prop (v : jsval) (name : string) : outcome js_error jsval :=
  match v with
  | JUndefined | JNull =>
      Thrown (TypeError ("Cannot read properties of null or undefined (reading '" ++ name ++ "')"))
  | JObj props =>
      match assoc_last name props with Some w => Ok w | None => Ok JUndefined end
  | _ => Ok JUndefined
  end.

(** The property of an object, [undefined] for the rest. *)
Definition prop_or_undef (v : jsval) (name : string) : jsval :=
  match v with
  | JObj props => match assoc_last name props with Some w => w | None => JUndefined end
  | _ => JUndefined
  end.

Lemma get_prop_obj props name :
  get_prop (JObj props) name = Ok (prop_or_undef (JObj props) name).
Proof. simpl. destruct (assoc_last name props); reflexivity. Qed.

Arguments get_prop : simpl never.
Arguments prop_or_undef : simpl never.

(** ** Numbers printed in decimal, as [String(n)] does *)
Definition string_of_Z (n : Z) : string :=
  NilEmpty.string_of_int (Z.to_int n).

Definition Z_of_string (s : string) : option Z :=
  option_map Z.of_int (NilEmpty.int_of_string s).

(** ** Conversion to string, [String(v)] *)
Definition join_comma (l : list string) : string := String.concat "," l.

Fixpoint js_to_string (v : jsval) : string :=
  match v with
  | JUndefined => "undefined"
  | JNull => "null"
  | JBool true => "true"
  | JBool false => "false"
  | JNum n => string_of_Z n
  | JStr s => s
  | JArr elems =>
      join_comma (map (fun e => match e with
                                | JUndefined | JNull => ""
                                | _ => js_to_string e
                                end) elems)
  | JObj _ | JStream _ => "[object Object]"
  end.

(** ** [s.split(sep)], for a one-character separator

    Splits at every occurrence; the result is never empty, and a string
    without the separator is its own only piece. *)
Fixpoint js_split (sep : ascii) (s : string) : list string :=
  match s with
  | EmptyString => [EmptyString]
  | String a s' =>
      let rest := js_split sep s' in
      if Ascii.eqb a sep then EmptyString :: rest
      else match rest with
           | r :: rs => String a r :: rs
           | [] => [String a EmptyString]
           end
  end.

(** [s.split(sep)[0]]: the first piece. *)
Definition split_head (sep : ascii) (s : string) : string :=
  hd EmptyString (js_split sep s).

(** The separator of map ids, [.] *)
Definition dot : ascii := "."%char.

(** ** Conversion to number, [Number(v)]

    [None] is [NaN].  A string converts as a decimal integer literal with
    an optional sign, and the empty string as 0; the other numeric
    literals of ECMAScript (hexadecimal, fractions, exponents, surrounding
    white space, [Infinity]) lie outside the integral numbers of [jsval]
    and are read as [NaN]. *)
Definition digits_to_Z (s : string) : option Z :=
  match s with
  | EmptyString => None
  | _ => option_map Z.of_uint (NilEmpty.uint_of_string s)
  end.

Definition str_to_number (s : string) : option Z :=
  match s with
  | EmptyString => Some 0%Z
  | String "+" r => digits_to_Z r
  | String "-" r => option_map Z.opp (digits_to_Z r)
  | _ => digits_to_Z s
  end.

(** An object or an array converts through its string, as [ToPrimitive]
    does for a plain object ([valueOf] returns the object itself). *)
Definition to_number (v : jsval) : option Z :=
  match v with
  | JUndefined => None
  | JNull => Some 0%Z
  | JBool b => Some (if b then 1%Z else 0%Z)
  | JNum n => Some n
  | _ => str_to_number (js_to_string v)
  end.

(** ** Lemmas on the value operations *)

Lemma Z_of_string_of_Z (n : Z) : Z_of_string (string_of_Z n) = Some n.
Proof.
  unfold Z_of_string, string_of_Z. rewrite NilEmpty.isi. simpl.
  rewrite DecimalZ.of_to. reflexivity.
Qed.

Lemma string_of_Z_inj (n m : Z) : string_of_Z n = string_of_Z m -> n = m.
Proof.
  intros H. apply (f_equal Z_of_string) in H.
  rewrite !Z_of_string_of_Z in H. congruence.
Qed.

Lemma js_split_not_nil sep s : js_split sep s <> [].
Proof.
  destruct s as [|a s]; simpl; [discriminate|].
  destruct (Ascii.eqb a sep); [discriminate|].
  destruct (js_split sep s); discriminate.
Qed.

(** The first piece contains no separator, and the string is that piece
    followed by nothing or by the separator and the rest. *)
Lemma split_head_spec sep s :
  ~ In sep (list_ascii_of_string (split_head sep s)) /\
  (s = split_head sep s \/
   exists rest, s = split_head sep s ++ String sep rest).
Proof.
  unfold split_head. induction s as [|a s [IHn IHs]]; simpl.
  - split; [tauto | left; reflexivity].
  - destruct (Ascii.eqb a sep) eqn:E.
    + apply Ascii.eqb_eq in E; subst a. simpl.
      split; [tauto | right; exists s; reflexivity].
    + pose proof (js_split_not_nil sep s) as Hn.
      destruct (js_split sep s) as [|r rs]; [congruence|]. simpl in *.
      split.
      * intros [H|H]; [subst; rewrite Ascii.eqb_refl in E; discriminate | tauto].
      * destruct IHs as [->|[rest ->]]; [left; reflexivity | right; exists rest; reflexivity].
Qed.

Lemma split_head_app sep p rest :
  ~ In sep (list_ascii_of_string p) ->
  split_head sep (p ++ String sep rest) = p.
Proof.
  unfold split_head. induction p as [|a p IH]; simpl; intros Hn.
  - rewrite Ascii.eqb_refl. reflexivity.
  - destruct (Ascii.eqb a sep) eqn:E.
    + apply Ascii.eqb_eq in E. tauto.
    + specialize (IH (fun H => Hn (or_intror H))).
      pose proof (js_split_not_nil sep (p ++ String sep rest)) as Hne.
      destruct (js_split sep (p ++ String sep rest)); [congruence|].
      simpl in *. congruence.
Qed.

(** A string without the separator is its own first piece. *)
Lemma split_head_nosep sep s :
  ~ In sep (list_ascii_of_string s) -> split_head sep s = s.
Proof.
  unfold split_head. induction s as [|a s IH]; simpl; intros Hn; [reflexivity|].
  destruct (Ascii.eqb a sep) eqn:E; [apply Ascii.eqb_eq in E; tauto|].
  specialize (IH (fun H => Hn (or_intror H))).
  pose proof (js_split_not_nil sep s) as Hne.
  destruct (js_split sep s); [congruence|]. simpl in *. congruence.
Qed.

Lemma truthy_js_or a b : truthy (js_or a b) = truthy a || truthy b.
Proof. unfold js_or. destruct (truthy a) eqn:E; simpl; congruence. Qed.

Lemma js_or_truthy a b : truthy a = true -> js_or a b = a.
Proof. unfold js_or. intros ->. reflexivity. Qed.

Lemma js_or_falsy a b : truthy a = false -> js_or a b = b.
Proof. unfold js_or. intros ->. reflexivity. Qed.

#[export] Hint Resolve js_split_not_nil : upload.
#[export] Hint Rewrite Z_of_string_of_Z truthy_js_or : upload_rw.
