(* ===== verification/Url.v ===== *)
(** * Url: [url.parse(s).host] of Node's legacy URL parser

    [getcreds] sends [headers: { 'Host': url.parse(opts.mapbox).host }]
    (src/index.js:56).  [url.parse] is Node's legacy [Url.prototype.parse]
    (lib/url.js); this file follows the steps of it that decide [host]:
    - trim the characters of code below 33 at both ends, and read a
      backslash as [/] before the first [?] or [#];
    - take the protocol [/^[a-z0-9.+-]+:/i] off the front;
    - with a protocol, or a rest of the form [//user@host], two leading
      slashes are taken off (not for [javascript:]);
    - a host is parsed when there were slashes, or a protocol that is
      neither [javascript:] nor one of the slashed protocols ([http:],
      [https:], [ftp:], [gopher:], [file:], [ws:], [wss:], compared in the
      case written);
    - the host runs to the first of [/ ? #] (or of the characters RFC 2396
      forbids in a host), after the last [@] before it (the user info);
    - [parseHost] splits a trailing [:digits] port off; the hostname stops
      at a [:] it still holds (unless it is a bracketed IPv6 address), is
      emptied beyond 255 characters, and is lower-cased;
    - [host] is the hostname, then [:port] when there is a port; without
      a parsed host it is [null].
    The IDNA conversion [toASCII] of the hostname (and the exceptions
    newer Node versions raise when it produces a forbidden character) is
    taken as the identity: the model's strings are byte strings. *)

From Stdlib Require Import String Ascii List Arith Bool Lia.
From S2P Require Import Prelude JsValue.
Import ListNotations.

Module Url.

Definition char_in (c : ascii) (cs : list ascii) : bool := existsb (Ascii.eqb c) cs.

Definition backslash : ascii := "092"%char.

(** [code < 33]: what the trimming loop of [parse] skips. *)
Definition is_ws (c : ascii) : bool := Nat.ltb (nat_of_ascii c) 33.

Fixpoint trim_start (s : string) : string :=
  match s with
  | String c s' => if is_ws c then trim_start s' else s
  | EmptyString => EmptyString
  end.

Fixpoint trim_end (s : string) : string :=
  match s with
  | EmptyString => EmptyString
  | String c s' =>
      match trim_end s' with
      | EmptyString => if is_ws c then EmptyString else String c EmptyString
      | r => String c r
      end
  end.

(** Backslashes before the first [?] or [#] become [/]. *)
Fixpoint slash_backslashes (s : string) : string :=
  match s with
  | EmptyString => EmptyString
  | String c s' =>
      if char_in c ["?"; "#"]%char then s
      else String (if Ascii.eqb c backslash then "/"%char else c) (slash_backslashes s')
  end.

Definition is_digit (c : ascii) : bool :=
  Nat.leb 48 (nat_of_ascii c) && Nat.leb (nat_of_ascii c) 57.

Definition is_upper (c : ascii) : bool :=
  Nat.leb 65 (nat_of_ascii c) && Nat.leb (nat_of_ascii c) 90.

Definition is_lower (c : ascii) : bool :=
  Nat.leb 97 (nat_of_ascii c) && Nat.leb (nat_of_ascii c) 122.

Definition lower (c : ascii) : ascii :=
  if is_upper c then ascii_of_nat (nat_of_ascii c + 32) else c.

(** [String.prototype.toLowerCase] on ASCII. *)
Fixpoint lower_string (s : string) : string :=
  match s with
  | EmptyString => EmptyString
  | String c s' => String (lower c) (lower_string s')
  end.

Definition proto_char (c : ascii) : bool :=
  is_upper c || is_lower c || is_digit c || char_in c ["."; "+"; "-"]%char.

(** [/^[a-z0-9.+-]+:/i]: the protocol with its colon, and the rest. *)
Fixpoint proto_split (s : string) : option (string * string) :=
  match s with
  | EmptyString => None
  | String c s' =>
      if proto_char c then
        match s' with
        | String ":"%char r => Some (String c (String ":"%char EmptyString), r)
        | _ => option_map (fun pr => (String c (fst pr), snd pr)) (proto_split s')
        end
      else None
  end.

Definition starts_with_slashes (s : string) : bool :=
  match s with String "/"%char (String "/"%char _) => true | _ => false end.

(** [/^\/\/[^@/]+@[^@/]+/]: [//], user info, [@], a host character. *)
Fixpoint userinfo_then_host (s : string) (seen : bool) : bool :=
  match s with
  | EmptyString => false
  | String c s' =>
      if Ascii.eqb c "@"%char then
        seen && match s' with
                | String d _ => negb (char_in d ["@"; "/"]%char)
                | EmptyString => false
                end
      else if Ascii.eqb c "/"%char then false
      else userinfo_then_host s' true
  end.

Definition host_pattern (s : string) : bool :=
  match s with
  | String "/"%char (String "/"%char r) => userinfo_then_host r false
  | _ => false
  end.

Definition hostless_protocol (lproto : string) : bool := String.eqb lproto "javascript:".

Definition slashed_protocol (proto : string) : bool :=
  existsb (String.eqb proto) ["http:"; "https:"; "ftp:"; "gopher:"; "file:"; "ws:"; "wss:"]%string.

(** The characters RFC 2396 never allows in a host name. *)
Definition non_host_char (c : ascii) : bool :=
  char_in c ["009"; "010"; "013"; " "; "034"; "%"; "'"; ";"; "<"; ">"; backslash; "^"; "`";
             "{"; "|"; "}"]%char.

Definition host_ending_char (c : ascii) : bool := char_in c ["#"; "/"; "?"]%char.

(** The scan of the host: the last [@] seen, and where the host stops;
    an [@] forgets a stop seen before it, a host-ending character ends
    the scan. *)
Fixpoint host_scan (s : string) (i : nat) (at_sign non_host : option nat)
  : option nat * option nat :=
  match s with
  | EmptyString => (at_sign, non_host)
  | String c s' =>
      if host_ending_char c then (at_sign, match non_host with None => Some i | n => n end)
      else if Ascii.eqb c "@"%char then host_scan s' (S i) (Some i) None
      else if non_host_char c then
        host_scan s' (S i) at_sign (match non_host with None => Some i | n => n end)
      else host_scan s' (S i) at_sign non_host
  end.

(** [s.slice(a, b)] for [a <= b]. *)
Definition slice (s : string) (a b : nat) : string := substring a (b - a) s.

(** [this.host] before [parseHost]. *)
Definition raw_host (rest : string) : string :=
  let (at_sign, non_host) := host_scan rest 0 None None in
  let start := match at_sign with Some a => S a | None => 0 end in
  slice rest start (match non_host with Some n => n | None => String.length rest end).

(** [/:[0-9]*$/]: the host before the port, and the port's digits. *)
Fixpoint split_port (s : string) : option (string * string) :=
  match s with
  | EmptyString => None
  | String c s' =>
      match split_port s' with
      | Some (h, p) => Some (String c h, p)
      | None =>
          if Ascii.eqb c ":"%char && forallb is_digit (list_ascii_of_string s')
          then Some (EmptyString, s') else None
      end
  end.

(** [getHostname]: the hostname stops at its first [/ \ # ? :]. *)
Fixpoint valid_prefix (s : string) : string :=
  match s with
  | EmptyString => EmptyString
  | String c s' =>
      if char_in c ["/"; backslash; "#"; "?"; ":"]%char then EmptyString
      else String c (valid_prefix s')
  end.

Definition is_ipv6 (h : string) : bool :=
  match h with
  | String "["%char _ =>
      match get (String.length h - 1) h with Some "]"%char => true | _ => false end
  | _ => false
  end.

(** [parseHost], the checks on the hostname, and [host = h + p]. *)
Definition host_of (rest : string) : string :=
  let h := raw_host rest in
  let (hn, port) := match split_port h with Some hp => hp | None => (h, EmptyString) end in
  let hn := if is_ipv6 hn then hn else valid_prefix hn in
  let hn := if Nat.ltb 255 (String.length hn) then EmptyString else lower_string hn in
  (hn ++ (if String.eqb port "" then "" else ":" ++ port))%string.

(** [url.parse(s).host] *)
Definition url_host (s : string) : jsval :=
  let rest := slash_backslashes (trim_end (trim_start s)) in
  let (proto, rest1) :=
    match proto_split rest with Some (p, r) => (Some p, r) | None => (None, rest) end in
  let hostless := match proto with Some p => hostless_protocol (lower_string p) | None => false end in
  let slashes :=
    (match proto with Some _ => true | None => host_pattern rest1 end) && starts_with_slashes rest1 in
  let rest2 := if slashes && negb hostless then substring 2 (String.length rest1 - 2) rest1 else rest1 in
  if negb hostless &&
     (slashes || match proto with Some p => negb (slashed_protocol p) | None => false end)
  then JStr (host_of rest2)
  else JNull.

(** [url.parse(s).protocol]: the protocol matched at the front of the
    trimmed string, lower-cased, or [null]. *)
Definition url_protocol (s : string) : jsval :=
  match proto_split (slash_backslashes (trim_end (trim_start s))) with
  | Some (p, _) => JStr (lower_string p)
  | None => JNull
  end.

(** ** Ordinary base URLs *)

Fixpoint all_chars (f : ascii -> bool) (s : string) : bool :=
  match s with
  | EmptyString => true
  | String c s' => f c && all_chars f s'
  end.

Lemma all_chars_app f x y : all_chars f (x ++ y) = all_chars f x && all_chars f y.
Proof. induction x as [|c x IH]; simpl; rewrite ?IH, ?andb_assoc; reflexivity. Qed.

(** A character of an ordinary host name: a lower-case letter, a digit,
    [.] or [-]. *)
Definition plain_host_char (c : ascii) : bool :=
  is_lower c || is_digit c || char_in c ["."; "-"]%char.

Section Plain.
Variable h : string.
Hypothesis Hh : all_chars plain_host_char h = true.

(** What a plain character is not, read off its code. *)
Lemma plain_char_facts c :
  plain_host_char c = true ->
  is_ws c = false /\ is_upper c = false /\ char_in c ["?"; "#"]%char = false /\
  Ascii.eqb c backslash = false /\ host_ending_char c = false /\ Ascii.eqb c "@"%char = false /\
  non_host_char c = false /\ Ascii.eqb c ":"%char = false /\
  char_in c ["/"; backslash; "#"; "?"; ":"]%char = false.
Proof.
  destruct c as [b0 b1 b2 b3 b4 b5 b6 b7].
  destruct b0, b1, b2, b3, b4, b5, b6, b7; vm_compute; intros H; try discriminate H;
    repeat split.
Qed.

Lemma trim_end_keep s : all_chars (fun c => negb (is_ws c)) s = true -> trim_end s = s.
Proof.
  induction s as [|c s IH]; simpl; [reflexivity|].
  intros Hs. apply andb_prop in Hs as [Hc Hs]. rewrite (IH Hs).
  destruct s; [|reflexivity]. apply negb_true_iff in Hc. rewrite Hc. reflexivity.
Qed.

Lemma plain_no_ws : all_chars (fun c => negb (is_ws c)) h = true.
Proof.
  induction h as [|c s IH]; simpl in *; [reflexivity|].
  apply andb_prop in Hh as [Hc Hs]. destruct (plain_char_facts c Hc) as [-> _].
  exact (IH Hs).
Qed.

Lemma slash_plain y : slash_backslashes (h ++ y) = (h ++ slash_backslashes y)%string.
Proof.
  clear -Hh. induction h as [|c s IH];
    cbn [all_chars append slash_backslashes host_scan split_port valid_prefix lower_string String.length] in *; [reflexivity|].
  apply andb_prop in Hh as [Hc Hs]. destruct (plain_char_facts c Hc) as (_ & _ & -> & -> & _).
  rewrite (IH Hs). reflexivity.
Qed.

Lemma host_scan_plain y i : host_scan (h ++ y) i None None = host_scan y (i + String.length h) None None.
Proof.
  clear -Hh. revert i. induction h as [|c s IH]; intros i;
    cbn [all_chars append host_scan String.length] in *; [rewrite Nat.add_0_r; reflexivity|].
  apply andb_prop in Hh as [Hc Hs].
  destruct (plain_char_facts c Hc) as (_ & _ & _ & _ & -> & -> & -> & _).
  rewrite (IH Hs). f_equal. lia.
Qed.

Lemma split_port_plain : split_port h = None.
Proof.
  clear -Hh. induction h as [|c s IH];
    cbn [all_chars append slash_backslashes host_scan split_port valid_prefix lower_string String.length] in *; [reflexivity|].
  apply andb_prop in Hh as [Hc Hs]. rewrite (IH Hs).
  destruct (plain_char_facts c Hc) as (_ & _ & _ & _ & _ & _ & _ & -> & _). reflexivity.
Qed.

Lemma valid_prefix_plain : valid_prefix h = h.
Proof.
  clear -Hh. induction h as [|c s IH];
    cbn [all_chars append slash_backslashes host_scan split_port valid_prefix lower_string String.length] in *; [reflexivity|].
  apply andb_prop in Hh as [Hc Hs].
  destruct (plain_char_facts c Hc) as (_ & _ & _ & _ & _ & _ & _ & _ & ->). rewrite (IH Hs). reflexivity.
Qed.

Lemma lower_plain : lower_string h = h.
Proof.
  clear -Hh. induction h as [|c s IH];
    cbn [all_chars append slash_backslashes host_scan split_port valid_prefix lower_string String.length] in *; [reflexivity|].
  apply andb_prop in Hh as [Hc Hs]. unfold lower.
  destruct (plain_char_facts c Hc) as (_ & -> & _). rewrite (IH Hs). reflexivity.
Qed.

End Plain.

(** The host of [h] followed by nothing or by a path is [h]. *)
Lemma host_of_plain h sp :
  all_chars plain_host_char h = true -> String.length h <= 255 ->
  (sp = EmptyString \/ exists q, sp = String "/"%char q) ->
  host_of (h ++ sp) = h.
Proof.
  intros Hh Hl Hp. unfold host_of, raw_host. rewrite (host_scan_plain h Hh).
  assert (Hr : raw_host (h ++ sp) = h).
  { unfold raw_host. rewrite (host_scan_plain h Hh).
    destruct Hp as [->|[q ->]]; unfold slice; simpl.
    - rewrite append_empty_r, Nat.sub_0_r. apply substring_all.
    - rewrite Nat.sub_0_r. apply substring_app_l. }
  unfold raw_host in Hr. rewrite (host_scan_plain h Hh) in Hr.
  destruct (host_scan sp (0 + String.length h) None None) as [[a|] n]; rewrite Hr.
  all: rewrite (split_port_plain h Hh);
    destruct (is_ipv6 h); rewrite ?(valid_prefix_plain h Hh);
    (replace (Nat.ltb 255 (String.length h)) with false by (symmetry; apply Nat.ltb_ge; lia));
    rewrite (lower_plain h Hh); apply append_empty_r.
Qed.

(** The steps before the protocol leave an ordinary base URL followed by
    a path without white space as it is, but for backslashes in the
    path. *)
Lemma plain_url_prep (secure : bool) h p :
  all_chars plain_host_char h = true ->
  all_chars (fun c => negb (is_ws c)) p = true ->
  slash_backslashes (trim_end (trim_start ((if secure then "https://" else "http://") ++ h ++ p)%string)) =
  ((if secure then "https://" else "http://") ++ h ++ slash_backslashes p)%string.
Proof.
  intros Hh Hw.
  replace (trim_start ((if secure then "https://" else "http://") ++ h ++ p)%string)
    with ((if secure then "https://" else "http://") ++ h ++ p)%string by (destruct secure; reflexivity).
  rewrite trim_end_keep
    by (rewrite !all_chars_app, (plain_no_ws h Hh), Hw; destruct secure; reflexivity).
  destruct secure; simpl; f_equal; repeat f_equal; apply (slash_plain h Hh).
Qed.

(** [url.parse] of an ordinary base URL [http://h] or [https://h], bare
    or followed by a path without white space, gives the host name [h]
    itself when [h] is made of lower-case letters, digits, dots and
    hyphens. *)
Lemma url_host_plain (secure : bool) h p :
  all_chars plain_host_char h = true -> String.length h <= 255 ->
  (p = EmptyString \/ exists q, p = String "/"%char q) ->
  all_chars (fun c => negb (is_ws c)) p = true ->
  url_host ((if secure then "https://" else "http://") ++ h ++ p)%string = JStr h.
Proof.
  intros Hh Hl Hp Hw. unfold url_host. rewrite (plain_url_prep secure h p Hh Hw).
  assert (Hp' : slash_backslashes p = EmptyString \/ exists q, slash_backslashes p = String "/"%char q)
    by (destruct Hp as [->|[q ->]]; [left | right; eexists]; reflexivity).
  replace (proto_split ((if secure then "https://" else "http://") ++ h ++ slash_backslashes p)%string)
    with (Some (if secure then "https:" else "http:", "//" ++ h ++ slash_backslashes p))%string
    by (destruct secure; reflexivity).
  destruct secure; simpl; rewrite Nat.sub_0_r, substring_all; f_equal; apply host_of_plain; assumption.
Qed.

(** Its protocol is [http:] or [https:]. *)
Lemma url_protocol_plain (secure : bool) h p :
  all_chars plain_host_char h = true ->
  all_chars (fun c => negb (is_ws c)) p = true ->
  url_protocol ((if secure then "https://" else "http://") ++ h ++ p)%string =
  JStr (if secure then "https:" else "http:").
Proof.
  intros Hh Hw. unfold url_protocol. rewrite (plain_url_prep secure h p Hh Hw).
  destruct secure; reflexivity.
Qed.

End Url.
