(* ===== verification/Options.v ===== *)
(** * Options: [upload.opts], the options validator (src/index.js:30-45)

    [upload.opts] takes the caller's options object, fills in [proxy] from
    the environment and [mapbox] from [upload.MAPBOX] (by assignment into
    the caller's object), and throws at the first rule it finds broken:
    a source ([file] or [stream]), [account], [accesstoken], [mapid], and
    [mapid.split('.')[0] === account].  The object is returned on success.

    [upload_opts] returns the object as the code leaves it (mutated, also
    when it throws) with the outcome of the call. *)

From Stdlib Require Import String Ascii List ZArith Bool Lia.
From S2P Require Import Prelude JsValue.
Import ListNotations.
Local Open Scope string_scope.

Module Options.

(** The properties of the options object the code reads.  [length] is
    [length_opt], to keep [List.length] visible. *)
Record opts : Type := mkOpts {
  file : jsval;
  stream : jsval;
  account : jsval;
  accesstoken : jsval;
  mapid : jsval;
  proxy : jsval;
  mapbox : jsval;
  length_opt : jsval
}.

(** [process.env], read-only after start. *)
Record process_env : Type := mkEnv {
  HTTP_PROXY : jsval;
  AWS_ACCESS_KEY_ID : jsval;
  AWS_SECRET_ACCESS_KEY : jsval;
  AWS_SESSION_TOKEN : jsval
}.

(** [upload.MAPBOX], src/index.js:28 *)
Definition MAPBOX : string := "https://api.tiles.mapbox.com".

(** [{}] *)
Definition empty_opts : opts :=
  mkOpts JUndefined JUndefined JUndefined JUndefined JUndefined JUndefined JUndefined JUndefined.

Definition set_proxy (v : jsval) (o : opts) : opts :=
  mkOpts (file o) (stream o) (account o) (accesstoken o) (mapid o) v (mapbox o) (length_opt o).

Definition set_mapbox (v : jsval) (o : opts) : opts :=
  mkOpts (file o) (stream o) (account o) (accesstoken o) (mapid o) (proxy o) v (length_opt o).

(** The double quote character, for the messages that quote option names. *)
Definition quote (s : string) : string := String "034"%char (s ++ String "034"%char EmptyString).

(** [util.format('Invalid mapid "%s" for account "%s"', mapid, account)] *)
Definition invalid_mapid_msg (m : string) (a : jsval) : string :=
  "Invalid mapid " ++ quote m ++ " for account " ++ quote (js_to_string a).

(** [s === v] for a string [s]. *)
Definition strict_eq_str (s : string) (v : jsval) : bool :=
  match v with JStr t => String.eqb s t | _ => false end.

(** The throwing checks of src/index.js:34-43, in the code's order. *)
Definition check_opts (o : opts) : outcome js_error opts :=
  if negb (truthy (file o)) && negb (truthy (stream o)) then
    Thrown (Error (quote "file" ++ " or " ++ quote "stream" ++ " option required") None)
  else if negb (truthy (account o)) then
    Thrown (Error (quote "account" ++ " option required") None)
  else if negb (truthy (accesstoken o)) then
    Thrown (Error (quote "accesstoken" ++ " option required") None)
  else if negb (truthy (mapid o)) then
    Thrown (Error (quote "mapid" ++ " option required") None)
  else match mapid o with
       | JStr m =>
           if strict_eq_str (split_head dot m) (account o) then Ok o
           else Thrown (Error (invalid_mapid_msg m (account o)) None)
       | _ => Thrown (TypeError "opts.mapid.split is not a function")
       end.

(** [upload.opts(opts)], src/index.js:30-45.  [None] is a falsy argument,
    replaced by [{}]. *)
Definition upload_opts (env : process_env) (arg : option opts) : opts * outcome js_error opts :=
  let o0 := match arg with Some o => o | None => empty_opts end in
  let o1 := set_proxy (js_or (proxy o0) (HTTP_PROXY env)) o0 in
  let o2 := set_mapbox (js_or (mapbox o1) (JStr MAPBOX)) o1 in
  (o2, check_opts o2).

(** Options that pass the checks of [check_opts]. *)
Definition checked_opts (o : opts) : Prop :=
  (truthy (file o) = true \/ truthy (stream o) = true) /\
  truthy (accesstoken o) = true /\
  exists a m, account o = JStr a /\ a <> "" /\ mapid o = JStr m /\
    (m = a \/ exists suffix, m = a ++ String dot suffix).

(** Options that [upload.opts] returns: the predicate every later stage
    relies on. *)
Definition valid_opts (o : opts) : Prop :=
  truthy (mapbox o) = true /\ checked_opts o.

(** ** Lemmas *)

Lemma js_or_idem (a b : jsval) : js_or (js_or a b) b = js_or a b.
Proof. unfold js_or. destruct (truthy a) eqn:E; [rewrite E | destruct (truthy b)]; reflexivity. Qed.

Lemma MAPBOX_truthy v : truthy (js_or v (JStr MAPBOX)) = true.
Proof. unfold js_or. destruct (truthy v) eqn:E; [exact E | reflexivity]. Qed.

Lemma strict_eq_str_true s v : strict_eq_str s v = true -> v = JStr s.
Proof.
  destruct v; simpl; try discriminate.
  intros H. apply String.eqb_eq in H. congruence.
Qed.

#[export] Hint Rewrite js_or_idem MAPBOX_truthy : upload_rw.

(** What a successful check establishes. *)
Lemma check_opts_ok o o' :
  check_opts o = Ok o' -> o' = o /\ checked_opts o.
Proof.
  unfold check_opts, checked_opts.
  destruct (negb (truthy (file o)) && negb (truthy (stream o))) eqn:Hsrc;
    [discriminate|].
  destruct (truthy (account o)) eqn:Ha; [|discriminate]; simpl.
  destruct (truthy (accesstoken o)) eqn:Ht; [|discriminate]; simpl.
  destruct (truthy (mapid o)) eqn:Hm; [|discriminate]; simpl.
  destruct (mapid o) as [| | | |m| | |]; try discriminate.
  destruct (strict_eq_str (split_head dot m) (account o)) eqn:He; [|discriminate].
  intros Hok; injection Hok as <-.
  apply strict_eq_str_true in He. rewrite He in Ha. simpl in Ha.
  split; [reflexivity|]. split.
  { destruct (truthy (file o)), (truthy (stream o)); simpl in Hsrc; auto. }
  split; [reflexivity|]. exists (split_head dot m), m.
  destruct (split_head_spec dot m) as [_ [Hm1|[rest Hm1]]];
    (split; [exact He|]); (split; [intros E; rewrite E in Ha; discriminate|]);
    (split; [reflexivity|]); eauto.
Qed.

(** Facts on the record updates of [upload_opts]. *)
Lemma upload_opts_fields env o :
  fst (upload_opts env (Some o)) =
  mkOpts (file o) (stream o) (account o) (accesstoken o) (mapid o)
         (js_or (proxy o) (HTTP_PROXY env)) (js_or (mapbox o) (JStr MAPBOX)) (length_opt o).
Proof. reflexivity. Qed.

(** A successful [upload_opts] returns its valid argument object. *)
Lemma upload_opts_ok env arg o o' :
  upload_opts env arg = (o, Ok o') -> o' = o /\ valid_opts o.
Proof.
  unfold upload_opts. intros H. injection H as Ho Hc.
  apply check_opts_ok in Hc. destruct Hc as [-> Hc]. subst o.
  split; [reflexivity|]. split; [apply MAPBOX_truthy | exact Hc].
Qed.

(** C23: what [upload.opts] guarantees to every later stage: the object it
    returns is the caller's (mutated) object, it has a source, an access
    token and a host, and its map id is the account, or the account
    followed by [.] and a suffix. *)
Theorem upload_opts_sound env arg o o' :
  upload_opts env arg = (o, Ok o') -> o' = o /\ valid_opts o.
Proof. apply upload_opts_ok. Qed.

(** The options of the spec's first scenario. *)
Definition scenario_opts : opts :=
  mkOpts (JStr "tiles.mbtiles") JUndefined (JStr "acme") (JStr "tok") (JStr "acme.mytileset")
         JUndefined JUndefined JUndefined.

Definition scenario_env : process_env := mkEnv JUndefined JUndefined JUndefined JUndefined.

Lemma upload_opts_sound_witness :
  upload_opts scenario_env (Some scenario_opts) =
    (fst (upload_opts scenario_env (Some scenario_opts)),
     Ok (fst (upload_opts scenario_env (Some scenario_opts)))) /\
  valid_opts (fst (upload_opts scenario_env (Some scenario_opts))).
Proof.
  split; [reflexivity|].
  apply (proj2 (upload_opts_sound scenario_env (Some scenario_opts) _ _ eq_refl)).
Defined.

(** [upload_opts] on its own result reproduces that result. *)
Lemma upload_opts_reenter env arg o r :
  upload_opts env arg = (o, r) -> upload_opts env (Some o) = (o, r).
Proof.
  unfold upload_opts. intros H. injection H as <- <-.
  destruct arg as [o0|]; [destruct o0 | ]; simpl; rewrite !js_or_idem; reflexivity.
Qed.

(** C24: [upload.opts] is idempotent: called again on the object it left
    behind (as [getcreds], [putfile] and [createUpload] do), it changes
    nothing and gives the same outcome, a throw included. *)
Theorem upload_opts_idem env arg o r :
  upload_opts env arg = (o, r) -> upload_opts env (Some o) = (o, r).
Proof. apply upload_opts_reenter. Qed.

Lemma upload_opts_idem_witness :
  upload_opts scenario_env (Some (fst (upload_opts scenario_env None))) =
  upload_opts scenario_env None.
Proof.
  apply (upload_opts_idem scenario_env None _ _). reflexivity.
Defined.

(** C25: the checks are complete for well-formed requests: a source, an
    access token, an account without [.], and a map id that is the
    account followed by [.] and a suffix, or (against the spec, which asks
    for the separator) the account alone, are accepted. *)
Theorem upload_opts_accepts env o a :
  (truthy (file o) = true \/ truthy (stream o) = true) ->
  truthy (accesstoken o) = true ->
  account o = JStr a -> a <> "" -> ~ In dot (list_ascii_of_string a) ->
  (mapid o = JStr a \/ exists suffix, mapid o = JStr (a ++ String dot suffix)) ->
  upload_opts env (Some o) = (fst (upload_opts env (Some o)), Ok (fst (upload_opts env (Some o)))).
Proof.
  intros Hsrc Htok Ha Hne Hdot Hm.
  unfold upload_opts, check_opts. simpl.
  replace (negb (truthy (file o)) && negb (truthy (stream o))) with false
    by (destruct Hsrc as [-> | ->]; [reflexivity | destruct (truthy (file o)); reflexivity]).
  rewrite Ha, Htok. simpl.
  replace (negb (String.eqb a "")) with true
    by (destruct (String.eqb a "") eqn:E; [apply String.eqb_eq in E; contradiction | reflexivity]).
  destruct Hm as [Hm|[suffix Hm]]; rewrite Hm; simpl.
  - rewrite (split_head_nosep dot a Hdot), String.eqb_refl.
    replace (negb (String.eqb a "")) with true
      by (destruct (String.eqb a "") eqn:E; [apply String.eqb_eq in E; contradiction | reflexivity]).
    reflexivity.
  - replace (negb (String.eqb (a ++ String dot suffix) "")) with true by (destruct a; reflexivity).
    rewrite (split_head_app dot a suffix Hdot), String.eqb_refl. reflexivity.
Qed.

Lemma upload_opts_accepts_witness :
  upload_opts scenario_env (Some scenario_opts) =
  (fst (upload_opts scenario_env (Some scenario_opts)),
   Ok (fst (upload_opts scenario_env (Some scenario_opts)))).
Proof.
  apply (upload_opts_accepts scenario_env scenario_opts "acme");
    simpl; try (left; reflexivity); try reflexivity; try discriminate.
  - unfold dot; simpl; intuition discriminate.
  - right. exists "mytileset"%string. reflexivity.
Defined.


(** C26: a map id whose part before the first [.] differs from the account
    is refused with the message [Invalid mapid "<mapid>" for account
    "<account>"], once the earlier checks pass. *)
Theorem upload_opts_rejects_foreign_mapid env o a m :
  (truthy (file o) = true \/ truthy (stream o) = true) ->
  truthy (accesstoken o) = true ->
  account o = JStr a -> a <> "" -> mapid o = JStr m -> m <> "" ->
  split_head dot m <> a ->
  snd (upload_opts env (Some o)) = Thrown (Error (invalid_mapid_msg m (JStr a)) None).
Proof.
  intros Hsrc Htok Ha Hne Hm Hmne Hhd.
  unfold upload_opts, check_opts. simpl.
  replace (negb (truthy (file o)) && negb (truthy (stream o))) with false
    by (destruct Hsrc as [-> | ->]; [reflexivity | destruct (truthy (file o)); reflexivity]).
  rewrite Ha, Htok, Hm. simpl.
  replace (negb (String.eqb a "")) with true
    by (destruct (String.eqb a "") eqn:E; [apply String.eqb_eq in E; contradiction | reflexivity]).
  replace (negb (String.eqb m "")) with true
    by (destruct (String.eqb m "") eqn:E; [apply String.eqb_eq in E; contradiction | reflexivity]).
  destruct (String.eqb (split_head dot m) a) eqn:E; [apply String.eqb_eq in E; contradiction|].
  reflexivity.
Qed.

(** The spec's third scenario: map id [other.tileset] for account [acme]. *)
Lemma upload_opts_rejects_foreign_mapid_witness :
  snd (upload_opts scenario_env
         (Some (mkOpts (JStr "tiles.mbtiles") JUndefined (JStr "acme") (JStr "tok")
                       (JStr "other.tileset") JUndefined JUndefined JUndefined))) =
  Thrown (Error (invalid_mapid_msg "other.tileset" (JStr "acme")) None).
Proof.
  apply (upload_opts_rejects_foreign_mapid scenario_env _ "acme" "other.tileset");
    simpl; try (left; reflexivity); try reflexivity; discriminate.
Defined.

(** C27: each missing option has its own message, and the first missing
    one in the code's order is reported: no source, else no account, else
    no access token, else no map id; a truthy map id that is not a string
    makes [opts.mapid.split] throw a [TypeError]. *)
Theorem upload_opts_missing env o :
  (truthy (file o) = false -> truthy (stream o) = false ->
     snd (upload_opts env (Some o)) =
       Thrown (Error (quote "file" ++ " or " ++ quote "stream" ++ " option required") None)) /\
  (truthy (file o) || truthy (stream o) = true -> truthy (account o) = false ->
     snd (upload_opts env (Some o)) = Thrown (Error (quote "account" ++ " option required") None)) /\
  (truthy (file o) || truthy (stream o) = true -> truthy (account o) = true ->
   truthy (accesstoken o) = false ->
     snd (upload_opts env (Some o)) = Thrown (Error (quote "accesstoken" ++ " option required") None)) /\
  (truthy (file o) || truthy (stream o) = true -> truthy (account o) = true ->
   truthy (accesstoken o) = true -> truthy (mapid o) = false ->
     snd (upload_opts env (Some o)) = Thrown (Error (quote "mapid" ++ " option required") None)) /\
  (truthy (file o) || truthy (stream o) = true -> truthy (account o) = true ->
   truthy (accesstoken o) = true -> truthy (mapid o) = true -> is_string (mapid o) = false ->
     snd (upload_opts env (Some o)) = Thrown (TypeError "opts.mapid.split is not a function")).
Proof.
  unfold upload_opts, check_opts. simpl.
  destruct (truthy (file o)), (truthy (stream o)), (truthy (account o)), (truthy (accesstoken o));
    simpl; repeat split; intros Hs; intros; try discriminate; try reflexivity;
    repeat match goal with H : truthy (mapid o) = _ |- _ => rewrite H; clear H end;
    simpl; try reflexivity.
  all: destruct (mapid o); simpl in *; congruence.
Qed.

(** Options with a source, an account and a token but no map id. *)
Lemma upload_opts_missing_witness :
  snd (upload_opts scenario_env
         (Some (mkOpts (JStr "tiles.mbtiles") JUndefined (JStr "acme") (JStr "tok")
                       JUndefined JUndefined JUndefined JUndefined))) =
  Thrown (Error (quote "mapid" ++ " option required") None).
Proof.
  apply (upload_opts_missing scenario_env
           (mkOpts (JStr "tiles.mbtiles") JUndefined (JStr "acme") (JStr "tok")
                   JUndefined JUndefined JUndefined JUndefined)); reflexivity.
Defined.

End Options.
