(* ===== verification/Channel.v ===== *)
(** * Channel: the progress stream [prog] that [upload] returns

    [upload] creates [prog = progress({ time: 100 })] (src/index.js:17) and
    every stage reports on it: [upload.error] (src/index.js:47-49) emits
    ['error'], [putfile] relays the meter's ['progress'] as ['stats']
    (src/index.js:103-105), and [createUpload] emits ['finished']
    (src/index.js:165).

    - [event] holds what [prog] emits: the meter's ['progress'] and
      ['length'], the relayed ['stats'], ['error'] and ['finished'].
    - [Emitter] is the interface the stages use: a sink of events that
      knows whether the caller listens for ['error'].  Node's [emit('error')]
      with no listener throws the error instead of delivering it; this is
      what [upload_error] inherits.
    - [meter] models the byte counting of the [progress-stream] dependency
      (its [setLength], its transform, its flush and the [emit] they
      share), which is not code of this repository: the closure's
      [length], [transferred] and [delta], and the fields of its one
      [update] object.  [speed], [eta] and [runtime] are read off the
      clock and are not modelled. *)

From Stdlib Require Import String List ZArith QArith Bool Lia.
From S2P Require Import Prelude JsValue.
Import ListNotations.
Local Open Scope Z_scope.

(** A progress sample: the fields of the [update] object of
    [progress-stream] the caller can rely on.  [s_remaining] is [None]
    when it is [NaN]; [s_delta] is [undefined] before the first emission;
    [s_percentage] is the exact quotient the JavaScript double rounds, and
    [None] when that is [NaN] or an infinity. *)
Record sample : Type := mkSample {
  s_transferred : Z;
  s_length : jsval;
  s_remaining : option Z;
  s_delta : jsval;
  s_percentage : option Q
}.

(** What [prog] emits, in order. *)
Inductive event : Type :=
| EProgress (s : sample)     (* 'progress', from the meter *)
| EStats (s : sample)        (* 'stats', relayed by putfile *)
| EError (e : js_error)      (* 'error', from upload.error *)
| EFinished (body : jsval)   (* 'finished', from createUpload *)
| ELength (n : jsval).       (* 'length', from the meter's setLength *)

Definition is_terminal (ev : event) : bool :=
  match ev with EError _ | EFinished _ => true | _ => false end.

Definition is_length (ev : event) : bool :=
  match ev with ELength _ => true | _ => false end.

Definition is_error (ev : event) : bool :=
  match ev with EError _ => true | _ => false end.

Definition is_finished (ev : event) : bool :=
  match ev with EFinished _ => true | _ => false end.

Definition is_stats (ev : event) : bool :=
  match ev with EStats _ => true | _ => false end.

(** ** The interface of an event channel *)
Class Emitter (C : Type) : Type := {
  events : C -> list event;
  listens_error : C -> bool;
  emit : event -> C -> C;
  new_chan : C;
  listen : C -> C;
  emit_events : forall ev c, events (emit ev c) = events c ++ [ev];
  emit_listens : forall ev c, listens_error (emit ev c) = listens_error c;
  new_chan_events : events new_chan = [];
  new_chan_listens : listens_error new_chan = false;
  listen_events : forall c, events (listen c) = events c;
  listen_listens : forall c, listens_error (listen c) = true
}.

Section WithEmitter.
Context {C : Type} `{Emitter C}.

(** [upload.error(err, prog)], src/index.js:47-49: [prog.emit('error', err)].
    With no ['error'] listener Node throws [err] out of [emit]. *)
Definition upload_error (err : js_error) (c : C) : outcome js_error C :=
  if listens_error c then Ok (emit (EError err) c) else Thrown err.

Lemma upload_error_listening err c :
  listens_error c = true -> upload_error err c = Ok (emit (EError err) c).
Proof. unfold upload_error. intros ->. reflexivity. Qed.

Lemma upload_error_deaf err c :
  listens_error c = false -> upload_error err c = Thrown err.
Proof. unfold upload_error. intros ->. reflexivity. Qed.

(** A normal return of [upload.error] has appended the error. *)
Lemma upload_error_events err (c c' : C) :
  upload_error err c = Ok c' -> c' = emit (EError err) c.
Proof. unfold upload_error. destruct (listens_error c); congruence. Qed.

(** [let? c' := upload_error e c in Ok (f c')] appends one error. *)
Lemma bind_error_ok {A} e (c : C) (f : C -> A) r :
  (let? c' := upload_error e c in Ok (f c')) = Ok r ->
  exists c', c' = emit (EError e) c /\ r = f c'.
Proof.
  unfold upload_error. destruct (listens_error c); simpl; [|discriminate].
  intros Hr; injection Hr as <-. eauto.
Qed.

End WithEmitter.

(** The two ways a handler ends normally: a plain [Ok], or [Ok] after
    [upload.error]; used to read the shape of a handler's outcome. *)
Ltac shape_step :=
  intros Hr;
  first [ discriminate
        | solve [injection Hr; intros; subst; simpl; eauto; discriminate]
        | solve [destruct (bind_error_ok _ _ _ _ Hr) as (c1 & -> & Hc);
                 injection Hc; intros; subst; simpl; eauto; discriminate] ].

#[export] Hint Rewrite @emit_events @emit_listens @new_chan_events @new_chan_listens
  @listen_events @listen_listens : upload_rw.

(** ** The concrete channel: the list of emitted events and the listener
    flag of the caller. *)
Record trace_chan : Type := mkTraceChan {
  tc_events : list event;
  tc_listens : bool
}.

#[export] Instance trace_emitter : Emitter trace_chan := {
  events := tc_events;
  listens_error := tc_listens;
  emit ev c := mkTraceChan (tc_events c ++ [ev]) (tc_listens c);
  (* a fresh [prog]: nothing emitted, no listener attached *)
  new_chan := mkTraceChan [] false;
  (* the caller's [prog.on('error', ...)] *)
  listen c := mkTraceChan (tc_events c) true;
  emit_events _ _ := eq_refl;
  emit_listens _ _ := eq_refl;
  new_chan_events := eq_refl;
  new_chan_listens := eq_refl;
  listen_events _ := eq_refl;
  listen_listens _ := eq_refl
}.

(** ** The byte meter of [progress-stream] *)

(** The closure's [length], [transferred] and [delta], and the fields of
    [update] that are not copies of them ([update.length] and
    [update.transferred] always equal [length] and [transferred]). *)
Record meter : Type := mkMeter {
  m_length : jsval;
  m_transferred : Z;
  m_delta : Z;
  m_remaining : option Z;
  m_update_delta : jsval;
  m_percentage : option Q
}.

(** [progress({ time: 100 })]: [length = options.length || 0], nothing
    transferred, and [update = { percentage: 0, transferred: 0, length: 0,
    remaining: 0, ... }] with no [delta] yet. *)
Definition fresh_meter : meter := mkMeter (JNum 0) 0 0 (Some 0) JUndefined (Some 0%Q).

(** The [update] object, as a listener reads it. *)
Definition update_of (m : meter) : sample :=
  mkSample (m_transferred m) (m_length m) (m_remaining m) (m_update_delta m) (m_percentage m).

(** [ended ? 100 : (length ? transferred/length*100 : 0)] *)
Definition percentage (ended : bool) (m : meter) : option Q :=
  if ended then Some 100%Q
  else if truthy (m_length m) then
    match to_number (m_length m) with
    | Some l => if l =? 0 then None else Some (inject_Z (m_transferred m) / inject_Z l * 100)%Q
    | None => None
    end
  else Some 0%Q.

(** [emit(ended)]: [update.delta = delta], [update.percentage] as above,
    [delta = 0], then [tr.emit('progress', update)]: the payload is
    [update_of] of the meter it returns. *)
Definition emit_update (ended : bool) (m : meter) : meter :=
  mkMeter (m_length m) (m_transferred m) 0 (m_remaining m) (JNum (m_delta m)) (percentage ended m).

(** [prog.setLength(n)]: [length = n; update.length = length;
    update.remaining = length - update.transferred], then
    [tr.emit('length', length)]: the callers emit [ELength n] on [prog]
    with it. *)
Definition set_length (n : jsval) (m : meter) : meter :=
  mkMeter n (m_transferred m) (m_delta m)
    (option_map (fun l => l - m_transferred m) (to_number n))
    (m_update_delta m) (m_percentage m).

(** The transform of a chunk of [k] bytes: [transferred += len; delta +=
    len; update.remaining = length >= transferred ? length - transferred : 0]
    (a [NaN] length compares false). *)
Definition write_chunk (k : nat) (m : meter) : meter :=
  let t := m_transferred m + Z.of_nat k in
  mkMeter (m_length m) t (m_delta m + Z.of_nat k)
    (match to_number (m_length m) with
     | Some l => if t <=? l then Some (l - t) else Some 0
     | None => Some 0
     end)
    (m_update_delta m) (m_percentage m).

Lemma write_chunk_transferred k m :
  m_transferred (write_chunk k m) = m_transferred m + Z.of_nat k.
Proof. reflexivity. Qed.

Lemma set_length_transferred n m :
  m_transferred (set_length n m) = m_transferred m.
Proof. reflexivity. Qed.

Lemma emit_update_transferred ended m :
  m_transferred (emit_update ended m) = m_transferred m.
Proof. reflexivity. Qed.

#[export] Hint Rewrite write_chunk_transferred set_length_transferred emit_update_transferred
  : upload_rw.
