(* ===== verification/Http.v ===== *)
(** * Http: the requests src/index.js sends and the replies it handles

    The [request] library is called twice: [request.get] for credentials
    (src/index.js:54-58) and [request.post] to register the upload
    (src/index.js:148-156).  A request is recorded as the options object
    the code passes; a reply is what the library hands the callback:
    a transport error, or a status code and a body.  [JSON.parse] of the
    raw body (src/index.js:61) is abstracted by [raw_body]: a body either
    is the text of a JSON value or is not JSON.  [url_parse_host] is
    [url.parse(v).host] (src/index.js:56): [Url.url_host] on a string, a
    [TypeError] on anything else.  [request_refusal] is the check by
    which [request] refuses a URI inside the call, before anything is
    sent. *)

From Stdlib Require Import String Ascii List ZArith Bool.
From S2P Require Import Prelude JsValue Url.
Import ListNotations.
Local Open Scope string_scope.

Inductive http_method : Type := GET | POST.

(** The options object given to [request.get] / [request.post]. *)
Record http_request : Type := mkRequest {
  rq_method : http_method;
  rq_uri : string;
  rq_host_header : option jsval;
  rq_proxy : jsval;
  rq_json : option jsval
}.

Inductive raw_body : Type :=
| Json (v : jsval)
| NotJson.

(** [JSON.parse(body)] *)
Definition json_parse (b : raw_body) : outcome js_error jsval :=
  match b with
  | Json v => Ok v
  | NotJson => Thrown SyntaxError
  end.

(** What [request] passes to the callback [function(err, resp, body)]. *)
Inductive http_reply (B : Type) : Type :=
| HttpError (e : js_error)
| HttpResponse (status : Z) (body : B).
Arguments HttpError {B} e.
Arguments HttpResponse {B} status body.

(** [util.format]'s [%s] on the values the code formats (strings, numbers). *)
Definition format_s (v : jsval) : string := js_to_string v.

Lemma format_s_str s : format_s (JStr s) = s.
Proof. reflexivity. Qed.

(** The exception of [url.parse] on an argument that is not a string. *)
Definition url_type_error (v : jsval) : js_error :=
  TypeError ("Parameter 'url' must be a string, not " ++ js_typeof v).

(** [url.parse(v).host]: [url.parse] throws on an argument that is not a
    string ([Url.prototype.parse]: [Parameter 'url' must be a string]). *)
Definition url_parse_host (v : jsval) : outcome js_error jsval :=
  match v with
  | JStr s => Ok (Url.url_host s)
  | _ => Thrown (url_type_error v)
  end.

(** ** What [request] refuses before it returns

    [request(options, callback)] parses [options.uri] with [url.parse] and
    checks it in [Request.prototype.init], before anything is sent; a
    refusal is [self.emit('error', ...)], which runs [callback(err)] at
    once, inside the call.  In order: the [unix:] protocol is refused;
    a URI without a host is refused ([Invalid URI "..."], whose text
    prints [url.format] of the parse and is left opaque here); the
    protocol that decides the HTTP module is the proxy's when a proxy is
    set and the URI is not [https:] (which would tunnel through it), and
    the URI's otherwise, and only [http:] and [https:] have a module
    ([Invalid protocol: ...]).  A string proxy is parsed by [url.parse];
    a proxy object gives its own [protocol]. *)
Definition proxy_protocol (p : jsval) : jsval :=
  match p with
  | JStr s => Url.url_protocol s
  | JObj _ => prop_or_undef p "protocol"
  | _ => JUndefined
  end.

Definition is_protocol (v : jsval) (name : string) : bool :=
  match v with JStr s => String.eqb s name | _ => false end.

Definition request_refusal (rq : http_request) : option js_error :=
  let u := rq_uri rq in
  let proto := Url.url_protocol u in
  if is_protocol proto "unix:" then
    Some (Error "`unix://` URL scheme is no longer supported. Please use the format `http://unix:SOCKET:PATH`" None)
  else if negb (truthy (Url.url_host u)) then Some (HostError HRequest 0)
  else
    let protocol :=
      if truthy (rq_proxy rq) && negb (is_protocol proto "https:")
      then proxy_protocol (rq_proxy rq) else proto in
    if is_protocol protocol "http:" || is_protocol protocol "https:" then None
    else Some (Error ("Invalid protocol: " ++ js_to_string protocol) None).

(** The error message of a failed HTTP call:
    [body && body.message || fallback], converted by [new Error(...)]. *)
Definition reply_message (body : jsval) (fallback : string) : outcome js_error string :=
  let? m := (if truthy body then get_prop body "message" else Ok body) in
  Ok (js_to_string (js_or m (JStr fallback))).

Lemma reply_message_object props fallback :
  reply_message (JObj props) fallback =
  Ok (js_to_string (js_or (prop_or_undef (JObj props) "message") (JStr fallback))).
Proof. unfold reply_message. simpl. rewrite get_prop_obj. reflexivity. Qed.

(** A truthy body has properties, so [reply_message] never throws on it;
    a falsy one is replaced by the fallback. *)
Lemma reply_message_ok body fallback :
  exists m, reply_message body fallback = Ok m.
Proof.
  unfold reply_message. destruct body as [| | | | | |props|]; simpl; eauto.
  - destruct b; simpl; eauto.
  - destruct (negb (Z.eqb n 0)); simpl; eauto.
  - destruct (negb (String.eqb s "")); simpl; eauto.
  - rewrite get_prop_obj. simpl. eauto.
Qed.
