(* ===== verification/Creds.v ===== *)
(** * Creds: [upload.getcreds] (src/index.js:51-76) and [upload.testcreds]
    (src/index.js:172-189)

    [getcreds] re-validates the options, sends
    [GET {mapbox}/uploads/v1/{account}/credentials?access_token={token}] and,
    in the reply callback, checks in this order: transport error, JSON
    parse, status 200, non-empty [key] and [bucket].  Each failure goes to
    [upload.error]; success hands the parsed body to the callback.

    [getcreds_send] is the synchronous part, [getcreds_reply] the callback.
    Both return [Thrown e] when an exception escapes them: in the callback
    that is an uncaught exception of the process. *)

From Stdlib Require Import String Ascii List ZArith Bool Lia.
From S2P Require Import Prelude JsValue Url Options Channel Http.
Import ListNotations.
Import Options.
Local Open Scope string_scope.

Module Creds.

(** The request of src/index.js:54-58 with the [Host] header [host]. *)
Definition getcreds_request_with (o : opts) (host : jsval) : http_request :=
  mkRequest GET
    (format_s (mapbox o) ++ "/uploads/v1/" ++ format_s (account o) ++
     "/credentials?access_token=" ++ format_s (accesstoken o))
    (Some host) (proxy o) None.

(** The request sent for a string [opts.mapbox], the only one [url.parse]
    returns for. *)
Definition getcreds_request (o : opts) : http_request :=
  getcreds_request_with o (match mapbox o with JStr s => Url.url_host s | _ => JNull end).

(** The message of a non-200 reply, src/index.js:66. *)
Definition unavailable_msg (status : Z) : string :=
  "Mapbox is not available: " ++ string_of_Z status.

Section WithEmitter.
Context {C : Type} `{Emitter C}.

(** [upload.error(err, prog)] as the last statement of a callback: the
    channel after the error, or the exception it throws. *)
Definition fail_with (err : js_error) (c : C) : outcome js_error (C * option jsval) :=
  let? c' := upload_error err c in Ok (c', None).

(** [upload.getcreds(opts, prog, callback)] up to the call of
    [request.get]: the channel, and the request sent if any. *)
Definition getcreds_send (env : process_env) (o : opts) (c : C)
  : outcome js_error (C * option http_request) :=
  match snd (upload_opts env (Some o)) with
  | Thrown e => let? c' := upload_error e c in Ok (c', None)
  | Ok o' =>
      let? host := url_parse_host (mapbox o') in
      Ok (c, Some (getcreds_request_with o' host))
  end.

(** The callback of [request.get], src/index.js:58-75: the channel, and
    the credentials passed to [callback] if any. *)
Definition getcreds_reply (reply : http_reply raw_body) (c : C)
  : outcome js_error (C * option jsval) :=
  match reply with
  | HttpError e => fail_with e c
  | HttpResponse status raw =>
      match json_parse raw with
      | Thrown e => fail_with e c
      | Ok body =>
          if negb (Z.eqb status 200) then
            let? msg := reply_message body (unavailable_msg status) in
            fail_with (Error msg (Some status)) c
          else
            let? k := get_prop body "key" in
            if negb (truthy k) then fail_with (Error "Invalid creds" None) c
            else
              let? b := get_prop body "bucket" in
              if negb (truthy b) then fail_with (Error "Invalid creds" None) c
              else Ok (c, Some body)
      end
  end.

End WithEmitter.

(** ** What the reply callback does *)

(** Credentials the callback accepts: an object whose [key] and [bucket]
    are truthy. *)
Definition creds_ok (v : jsval) : bool :=
  match v with
  | JObj _ => truthy (prop_or_undef v "key") && truthy (prop_or_undef v "bucket")
  | _ => false
  end.

(** [upload.testcreds(callback)], src/index.js:172-189: [digest] is the
    hex MD5 of a random number.  The result is the argument pair of the
    callback: an error, or the credentials object. *)
Definition testcreds (env : process_env) (digest : string) : js_error + jsval :=
  let key := "_pending/test/" ++ digest in
  if negb (truthy (AWS_ACCESS_KEY_ID env)) then
    inl (Error "env var AWS_ACCESS_KEY_ID required" None)
  else if negb (truthy (AWS_SECRET_ACCESS_KEY env)) then
    inl (Error "env var AWS_SECRET_ACCESS_KEY required" None)
  else
    inr (JObj [("bucket", JStr "mapbox-upload-testing");
               ("key", JStr key);
               ("accessKeyId", AWS_ACCESS_KEY_ID env);
               ("secretAccessKey", AWS_SECRET_ACCESS_KEY env);
               ("sessionToken", AWS_SESSION_TOKEN env)]).

Section Props.
Context {C : Type} `{Emitter C}.

Lemma fail_with_not_success err (c c' : C) body :
  fail_with err c <> Ok (c', Some body).
Proof. unfold fail_with, upload_error. destruct (listens_error c); discriminate. Qed.

Lemma fail_with_listening err (c : C) :
  listens_error c = true -> fail_with err c = Ok (emit (EError err) c, None).
Proof. unfold fail_with. intros Hl. rewrite (upload_error_listening err c Hl). reflexivity. Qed.

(** A 200 reply with accepted credentials passes them on. *)
Lemma getcreds_reply_accepts body (c : C) :
  creds_ok body = true -> getcreds_reply (HttpResponse 200%Z (Json body)) c = Ok (c, Some body).
Proof.
  intros Hok. simpl.
  destruct body as [| | | | | |props|]; simpl in Hok; try discriminate.
  rewrite get_prop_obj. apply andb_prop in Hok. destruct Hok as [Hk Hb].
  simpl. rewrite Hk. simpl. rewrite get_prop_obj. simpl. rewrite Hb. reflexivity.
Qed.

(** C29: the callback hands credentials on exactly when the reply is a
    200 whose JSON body is an object with a truthy [key] and [bucket];
    it then leaves the channel untouched. *)
Theorem getcreds_reply_success reply (c c' : C) body :
  getcreds_reply reply c = Ok (c', Some body) <->
  reply = HttpResponse 200%Z (Json body) /\ creds_ok body = true /\ c' = c.
Proof.
  split.
  - destruct reply as [e|status [v|]]; simpl;
      try (intros Hf; exfalso; eapply fail_with_not_success; exact Hf).
    destruct (Z.eqb_spec status 200) as [->|Hne]; simpl.
    + destruct v as [| | | | | |props|]; simpl;
        try (intros Hf; exfalso; eapply fail_with_not_success; exact Hf);
        try discriminate.
      rewrite get_prop_obj. simpl.
      destruct (truthy (prop_or_undef (JObj props) "key")) eqn:Hk; simpl;
        [|intros Hf; exfalso; eapply fail_with_not_success; exact Hf].
      rewrite get_prop_obj. simpl.
      destruct (truthy (prop_or_undef (JObj props) "bucket")) eqn:Hb; simpl;
        [|intros Hf; exfalso; eapply fail_with_not_success; exact Hf].
      intros Heq; injection Heq as <- <-. unfold creds_ok. rewrite Hk, Hb. auto.
    + destruct (reply_message_ok v (unavailable_msg status)) as [m Hm].
      rewrite Hm. simpl. intros Hf; exfalso; eapply fail_with_not_success; exact Hf.
  - intros [-> [Hok ->]]. apply getcreds_reply_accepts, Hok.
Qed.

(** A 200 reply whose object body lacks a truthy [key] or [bucket] is
    reported as [Error('Invalid creds')], never passed on. *)
Lemma getcreds_reply_invalid props (c : C) :
  creds_ok (JObj props) = false ->
  getcreds_reply (HttpResponse 200%Z (Json (JObj props))) c =
  fail_with (Error "Invalid creds" None) c.
Proof.
  simpl. rewrite get_prop_obj. simpl.
  destruct (truthy (prop_or_undef (JObj props) "key")) eqn:Hk; simpl; [|reflexivity].
  rewrite get_prop_obj. simpl.
  destruct (truthy (prop_or_undef (JObj props) "bucket")); simpl; [discriminate | reflexivity].
Qed.

(** C30: a reply with a status other than 200 and a JSON object body is an
    error carrying the status as [code] and the body's [message] when it
    is a non-empty string. *)
Theorem getcreds_reply_status status props m (c : C) :
  status <> 200%Z -> assoc_last "message" props = Some (JStr m) -> m <> "" ->
  getcreds_reply (HttpResponse status (Json (JObj props))) c =
  fail_with (Error m (Some status)) c.
Proof.
  intros Hs Hm Hne. simpl.
  destruct (Z.eqb_spec status 200) as [|_]; [contradiction|]. simpl.
  rewrite reply_message_object. unfold prop_or_undef. rewrite Hm. unfold js_or. simpl.
  destruct (String.eqb m "") eqn:E; [apply String.eqb_eq in E; contradiction|].
  reflexivity.
Qed.

(** C31: the body is parsed before the status is looked at: a reply whose
    body is not JSON is reported as the [SyntaxError] of [JSON.parse],
    whatever its status (a 5xx HTML page included). *)
Theorem getcreds_reply_parse_first status (c : C) :
  getcreds_reply (HttpResponse status NotJson) c = fail_with SyntaxError c.
Proof. reflexivity. Qed.

(** [upload.error] on a channel that listens returns. *)
Lemma fail_with_listening_returns err e (c : C) :
  listens_error c = true -> fail_with err c <> Thrown e.
Proof. intros Hl. rewrite (fail_with_listening err c Hl). discriminate. Qed.

(** C32: once the caller listens, the credentials callback throws (out
    of [request]'s callback, so that no ['error'] is emitted and the
    process ends) for exactly one kind of reply: a 200 whose JSON body is
    [null], where [body.key] (line 70) reads a property of [null]; every
    other reply is reported or passed on. *)
Theorem getcreds_reply_null_body reply (c : C) e :
  listens_error c = true ->
  getcreds_reply reply c = Thrown e <->
  (exists b, reply = HttpResponse 200%Z (Json b) /\ (b = JNull \/ b = JUndefined)) /\
  e = TypeError "Cannot read properties of null or undefined (reading 'key')".
Proof.
  intros Hl. split.
  - destruct reply as [e0|status [v|]]; simpl;
      try (intros Hf; exfalso; exact (fail_with_listening_returns _ _ _ Hl Hf)).
    destruct (Z.eqb_spec status 200) as [->|Hne]; simpl.
    + destruct v as [| | | | | |props|]; simpl;
        try (intros Hf; injection Hf as <-; split; [eexists; split; [reflexivity|auto] | reflexivity]);
        try (intros Hf; exfalso; exact (fail_with_listening_returns _ _ _ Hl Hf)).
      rewrite get_prop_obj. simpl.
      destruct (truthy (prop_or_undef (JObj props) "key")); simpl;
        [|intros Hf; exfalso; exact (fail_with_listening_returns _ _ _ Hl Hf)].
      rewrite get_prop_obj. simpl.
      destruct (truthy (prop_or_undef (JObj props) "bucket")); simpl; [discriminate|].
      intros Hf; exfalso; exact (fail_with_listening_returns _ _ _ Hl Hf).
    + destruct (reply_message_ok v (unavailable_msg status)) as [m Hm].
      rewrite Hm. simpl. intros Hf; exfalso; exact (fail_with_listening_returns _ _ _ Hl Hf).
  - intros [(b & -> & [-> | ->]) ->]; reflexivity.
Qed.

(** [getcreds] on options [upload.opts] accepted sends its request when
    [opts.mapbox] is a string; otherwise [url.parse] throws. *)
Lemma getcreds_send_valid env arg o (c : C) :
  upload_opts env arg = (o, Ok o) ->
  getcreds_send env o c =
  match mapbox o with
  | JStr _ => Ok (c, Some (getcreds_request o))
  | v => Thrown (url_type_error v)
  end.
Proof.
  intros Ho. unfold getcreds_send. rewrite (upload_opts_reenter _ _ _ _ Ho). simpl.
  unfold getcreds_request. destruct (mapbox o); reflexivity.
Qed.

(** The callback either reports one error, or passes the credentials on
    with the channel unchanged. *)
Lemma getcreds_reply_shape reply (c c' : C) r :
  getcreds_reply reply c = Ok (c', r) ->
  match r with None => exists e, c' = emit (EError e) c | Some _ => c' = c end.
Proof.
  unfold getcreds_reply, fail_with.
  destruct reply as [e|status [v|]]; [shape_step | | shape_step].
  simpl. destruct (negb (Z.eqb status 200)).
  - destruct (reply_message_ok v (unavailable_msg status)) as [m Hm]. rewrite Hm. simpl. shape_step.
  - destruct (get_prop v "key") as [k|e]; simpl; [|discriminate].
    destruct (negb (truthy k)); [shape_step|].
    destruct (get_prop v "bucket") as [b|e]; simpl; [|discriminate].
    destruct (negb (truthy b)); shape_step.
Qed.

(** C28: the credentials request of the spec (GET
    [{hostBaseUrl}/uploads/v1/{account}/credentials?access_token={token}]
    with the caller's proxy and a [Host] header derived from the base
    URL): for options [upload.opts] accepted whose [mapbox] is an ordinary
    base URL [http://h] or [https://h], bare or with a path, [getcreds]
    sends exactly that request with [Host: h], and leaves the channel
    alone. *)
Theorem getcreds_host_header env arg o (c : C) (secure : bool) h p :
  upload_opts env arg = (o, Ok o) ->
  mapbox o = JStr ((if secure then "https://" else "http://") ++ h ++ p) ->
  Url.all_chars Url.plain_host_char h = true -> String.length h <= 255 ->
  (p = EmptyString \/ exists q, p = String "/"%char q) ->
  Url.all_chars (fun ch => negb (Url.is_ws ch)) p = true ->
  getcreds_send env o c =
  Ok (c, Some (mkRequest GET
                 (((if secure then "https://" else "http://") ++ h ++ p) ++ "/uploads/v1/" ++
                  format_s (account o) ++ "/credentials?access_token=" ++ format_s (accesstoken o))
                 (Some (JStr h)) (proxy o) None)).
Proof.
  intros Ho Hm Hh Hl Hp Hw. rewrite (getcreds_send_valid env arg o c Ho), Hm.
  unfold getcreds_request, getcreds_request_with. rewrite Hm, (Url.url_host_plain secure h p Hh Hl Hp Hw).
  reflexivity.
Qed.

(** [request] sends the credentials request of an ordinary base URL
    [http(s)://h] whose host name is not empty, when the path the request
    adds has no white space, and the request goes to an [https:] URI or
    without a proxy. *)
Lemma request_refusal_plain o (secure : bool) h p :
  mapbox o = JStr ((if secure then "https://" else "http://") ++ h ++ p) ->
  Url.all_chars Url.plain_host_char h = true -> h <> "" -> String.length h <= 255 ->
  (p = EmptyString \/ exists q, p = String "/"%char q) ->
  Url.all_chars (fun ch => negb (Url.is_ws ch))
    (p ++ "/uploads/v1/" ++ format_s (account o) ++ "/credentials?access_token=" ++ format_s (accesstoken o)) = true ->
  secure = true \/ truthy (proxy o) = false ->
  request_refusal (getcreds_request o) = None.
Proof.
  intros Hm Hh Hne Hl Hp Hw Hs.
  unfold getcreds_request, getcreds_request_with, request_refusal. cbn [rq_uri rq_proxy].
  rewrite Hm. rewrite !(format_s_str ((if secure then "https://" else "http://") ++ h ++ p)).
  rewrite !append_assoc_str.
  assert (Hp' : (p ++ "/uploads/v1/" ++ format_s (account o) ++ "/credentials?access_token=" ++
                 format_s (accesstoken o)) = EmptyString \/
                exists q, (p ++ "/uploads/v1/" ++ format_s (account o) ++ "/credentials?access_token=" ++
                           format_s (accesstoken o)) = String "/"%char q)
    by (right; destruct Hp as [->|[q ->]]; eexists; reflexivity).
  rewrite (Url.url_protocol_plain secure h _ Hh Hw), (Url.url_host_plain secure h _ Hh Hl Hp' Hw).
  replace (truthy (JStr h)) with true
    by (simpl; destruct (String.eqb h "") eqn:E; [apply String.eqb_eq in E; contradiction | reflexivity]).
  destruct secure; simpl.
  - destruct (truthy (proxy o)); reflexivity.
  - destruct Hs as [Hs|Hs]; [discriminate|]. rewrite Hs. reflexivity.
Qed.

End Props.

(** Scenario 1: the default base URL [https://api.tiles.mapbox.com]. *)
Lemma getcreds_host_header_witness :
  getcreds_send Options.scenario_env (fst (upload_opts Options.scenario_env (Some Options.scenario_opts)))
    (listen (C:=trace_chan) new_chan) =
  Ok (listen new_chan,
      Some (mkRequest GET
              ("https://api.tiles.mapbox.com/uploads/v1/acme/credentials?access_token=tok")
              (Some (JStr "api.tiles.mapbox.com")) JUndefined None)).
Proof.
  exact (getcreds_host_header Options.scenario_env (Some Options.scenario_opts)
           (fst (upload_opts Options.scenario_env (Some Options.scenario_opts)))
           (listen (C:=trace_chan) new_chan) true "api.tiles.mapbox.com" "" eq_refl eq_refl eq_refl
           ltac:(simpl; lia) (or_introl eq_refl) eq_refl).
Defined.

(** The spec's second scenario: [403] with [{message: "forbidden"}]. *)
Lemma getcreds_reply_status_witness :
  getcreds_reply (HttpResponse 403%Z (Json (JObj [("message", JStr "forbidden")])))
                 (listen new_chan) =
  fail_with (Error "forbidden" (Some 403%Z)) (C:=trace_chan) (listen new_chan).
Proof. apply getcreds_reply_status; [discriminate | reflexivity | discriminate]. Defined.

(** C36: [testcreds] fails with an [Error] exactly when the access key
    id or the secret is missing from the environment; otherwise its
    credentials pass the checks of the credentials callback and name the
    object [_pending/test/<digest>] of the testing bucket. *)
Theorem testcreds_spec env digest :
  (truthy (AWS_ACCESS_KEY_ID env) && truthy (AWS_SECRET_ACCESS_KEY env) = false ->
     exists msg, testcreds env digest = inl (Error msg None)) /\
  (truthy (AWS_ACCESS_KEY_ID env) && truthy (AWS_SECRET_ACCESS_KEY env) = true ->
     exists v, testcreds env digest = inr v /\ creds_ok v = true /\
       prop_or_undef v "key" = JStr ("_pending/test/" ++ digest) /\
       prop_or_undef v "bucket" = JStr "mapbox-upload-testing").
Proof.
  unfold testcreds.
  destruct (truthy (AWS_ACCESS_KEY_ID env)), (truthy (AWS_SECRET_ACCESS_KEY env)); simpl;
    split; intros Hk; try discriminate; eauto 6.
Qed.

(** A test run with both keys set. *)
Lemma testcreds_spec_witness :
  exists v, testcreds (Options.mkEnv JUndefined (JStr "AKIA") (JStr "secret") JUndefined) "5d41" = inr v /\
    creds_ok v = true /\ prop_or_undef v "key" = JStr ("_pending/test/" ++ "5d41") /\
    prop_or_undef v "bucket" = JStr "mapbox-upload-testing".
Proof.
  apply (proj2 (testcreds_spec (Options.mkEnv JUndefined (JStr "AKIA") (JStr "secret") JUndefined) "5d41")).
  reflexivity.
Defined.

(** Scenario 2 with a 200 and a [null] body, after the caller listens:
    the callback throws. *)
Lemma getcreds_reply_null_body_witness :
  getcreds_reply (C:=trace_chan) (HttpResponse 200%Z (Json JNull)) (listen new_chan) =
    Thrown (TypeError "Cannot read properties of null or undefined (reading 'key')").
Proof.
  apply (getcreds_reply_null_body (C:=trace_chan)); [reflexivity|].
  split; [eexists; split; [reflexivity | left; reflexivity] | reflexivity].
Defined.

End Creds.
