(* ===== verification/Finalize.v ===== *)
(** * Finalize: [upload.createUpload] (src/index.js:136-168)

    [createUpload] re-validates the options, checks [creds.key] and
    [creds.bucket], and POSTs [{ id: mapid, url: file, data: mapid }] to
    [{mapbox}/uploads/v1/{account}?access_token={token}], where [file] is
    [http://{bucket}.s3.amazonaws.com/{key}].  Its callback reports a
    transport error or a status other than 201 through [upload.error], and
    otherwise emits ['finished'] with the reply body. *)

From Stdlib Require Import String Ascii List ZArith Bool Lia.
From S2P Require Import Prelude JsValue Options Channel Http Creds.
Import ListNotations.
Import Options.
Local Open Scope string_scope.

Module Finalize.

(** [util.format('%s/uploads/v1/%s?access_token=%s', ...)], src/index.js:145 *)
Definition upload_uri (o : opts) : string :=
  format_s (mapbox o) ++ "/uploads/v1/" ++ format_s (account o) ++
  "?access_token=" ++ format_s (accesstoken o).

(** [file], src/index.js:146 *)
Definition s3_url (bucket key : jsval) : string :=
  "http://" ++ js_to_string bucket ++ ".s3.amazonaws.com/" ++ js_to_string key.

(** The request of src/index.js:148-156. *)
Definition create_request (o : opts) (bucket key : jsval) : http_request :=
  mkRequest POST (upload_uri o) None (proxy o)
    (Some (JObj [("id", mapid o); ("url", JStr (s3_url bucket key)); ("data", mapid o)])).

(** The message of a non-201 reply, src/index.js:160. *)
Definition put_failed_msg (status : Z) : string :=
  "Upload PUT failed: " ++ string_of_Z status.

(** The messages of the credential checks, src/index.js:141 and 143. *)
Definition key_required : string := Options.quote "key" ++ " required in creds".
Definition bucket_required : string := Options.quote "bucket" ++ " required in creds".

Section WithEmitter.
Context {C : Type} `{Emitter C}.

(** The checks shared with [putfile]: src/index.js:79-85 and 137-143.
    [Ok (o', bucket, key)] when they pass, otherwise the channel after
    [upload.error]. *)
Definition check_stage (env : process_env) (o : opts) (creds : jsval) (c : C)
  : outcome js_error (C + opts * jsval * jsval) :=
  match snd (upload_opts env (Some o)) with
  | Thrown e => let? c' := upload_error e c in Ok (inl c')
  | Ok o' =>
      let? k := get_prop creds "key" in
      if negb (truthy k) then
        let? c' := upload_error (Error key_required None) c in Ok (inl c')
      else
        let? b := get_prop creds "bucket" in
        if negb (truthy b) then
          let? c' := upload_error (Error bucket_required None) c in Ok (inl c')
        else Ok (inr (o', b, k))
  end.

(** [upload.createUpload(opts, creds, prog, callback)] up to the call of
    [request.post]. *)
Definition create_upload_send (env : process_env) (o : opts) (creds : jsval) (c : C)
  : outcome js_error (C * option http_request) :=
  let? r := check_stage env o creds c in
  match r with
  | inl c' => Ok (c', None)
  | inr (o', b, k) => Ok (c, Some (create_request o' b k))
  end.

(** The callback of [request.post], src/index.js:156-167. *)
Definition create_upload_reply (reply : http_reply jsval) (c : C) : outcome js_error C :=
  match reply with
  | HttpError e => upload_error e c
  | HttpResponse status body =>
      if negb (Z.eqb status 201) then
        let? msg := reply_message body (put_failed_msg status) in
        upload_error (Error msg (Some status)) c
      else Ok (emit (EFinished body) c)
  end.

End WithEmitter.

(** ** Properties *)

Section Props.
Context {C : Type} `{Emitter C}.

(** The two outcomes of the [createUpload] callback that do not throw. *)
Lemma create_upload_reply_cases reply (c c' : C) :
  create_upload_reply reply c = Ok c' ->
  (exists body, reply = HttpResponse 201%Z body /\ c' = emit (EFinished body) c) \/
  (exists e, c' = emit (EError e) c /\ forall body, reply <> HttpResponse 201%Z body).
Proof.
  destruct reply as [e|status body]; simpl.
  - intros Hc. right. exists e. split; [apply upload_error_events; exact Hc | discriminate].
  - destruct (Z.eqb_spec status 201) as [->|Hne]; simpl.
    + intros Hc; injection Hc as <-. left. eauto.
    + destruct (reply_message_ok body (put_failed_msg status)) as [m Hm]. rewrite Hm. simpl.
      intros Hc. right. eexists. split; [apply upload_error_events; exact Hc|].
      intros b Hb. injection Hb as Hs _. contradiction.
Qed.

(** C33: the POST callback emits ['finished'] with the reply body exactly
    when the status is 201; any other reply is one ['error'] event. *)
Theorem create_upload_reply_spec reply (c c' : C) :
  create_upload_reply reply c = Ok c' ->
  (exists body, reply = HttpResponse 201%Z body /\ c' = emit (EFinished body) c) \/
  (exists e, c' = emit (EError e) c /\ forall body, reply <> HttpResponse 201%Z body).
Proof. apply create_upload_reply_cases. Qed.

(** The re-checks pass on validated options and accepted credentials. *)
Lemma check_stage_ok env arg o creds (c : C) :
  upload_opts env arg = (o, Ok o) -> Creds.creds_ok creds = true ->
  check_stage env o creds c =
  Ok (inr (o, prop_or_undef creds "bucket", prop_or_undef creds "key")).
Proof.
  intros Ho Hc. unfold check_stage.
  rewrite (upload_opts_reenter env arg o (Ok o) Ho). simpl.
  destruct creds as [| | | | | |props|]; try discriminate.
  unfold Creds.creds_ok in Hc. apply andb_prop in Hc. destruct Hc as [Hk Hb].
  rewrite !get_prop_obj. simpl. rewrite Hk. simpl.
  rewrite Hb. reflexivity.
Qed.

(** [createUpload] either reports one error, or sends the POST with the
    channel unchanged. *)
Lemma create_upload_send_shape env o creds (c c' : C) r :
  create_upload_send env o creds c = Ok (c', r) ->
  match r with None => exists e, c' = emit (EError e) c | Some _ => c' = c end.
Proof.
  unfold create_upload_send, check_stage.
  destruct (snd (upload_opts env (Some o))) as [o'|e]; simpl;
    [|rewrite obind_assoc; shape_step].
  destruct (get_prop creds "key") as [k|e]; simpl; [|discriminate].
  destruct (negb (truthy k)); [rewrite obind_assoc; shape_step|].
  destruct (get_prop creds "bucket") as [b|e]; simpl; [|discriminate].
  destruct (negb (truthy b)); [rewrite obind_assoc|]; shape_step.
Qed.

End Props.

Lemma create_upload_reply_spec_witness :
  exists c', create_upload_reply (HttpResponse 201%Z (JObj [("id", JStr "acme.mytileset")]))
                                 (listen (C:=trace_chan) new_chan) = Ok c' /\
  ((exists body, HttpResponse 201%Z (JObj [("id", JStr "acme.mytileset")]) = HttpResponse 201%Z body /\
                 c' = emit (EFinished body) (listen new_chan)) \/
   (exists e, c' = emit (EError e) (listen new_chan) /\
              forall body, HttpResponse 201%Z (JObj [("id", JStr "acme.mytileset")]) <> HttpResponse 201%Z body)).
Proof.
  eexists. split; [reflexivity|]. apply create_upload_reply_spec. reflexivity.
Defined.

End Finalize.
