(* ===== verification/Putfile.v ===== *)
(** * Putfile: [upload.putfile], the streaming stage (src/index.js:78-134)

    [putfile] re-runs the checks it shares with [createUpload], resolves the
    byte source (the caller's [opts.stream], or a read stream on
    [opts.file] whose size [fs.statSync] gives), attaches the
    ['progress'] -> ['stats'] relay to [prog], builds an S3 client from the
    credentials and starts a multipart upload ([new mpuUploader(...)]).
    The uploader's callback pipes [st -> prog -> uploadStream] and
    listens for the upload stream's ['error'] and ['uploaded'].

    The functions of this file are the synchronous part ([putfile_send])
    and the handlers of the callbacks and events it registers; [Upload.v]
    composes them with the events of the libraries. *)

From Stdlib Require Import String Ascii List ZArith Bool Lia.
From S2P Require Import Prelude JsValue Options Channel Http Creds Finalize.
Import ListNotations.
Import Options.
Local Open Scope string_scope.

Module Putfile.

(** The byte source [st]. *)
Inductive source : Type :=
| SrcFile (path : string)      (* fs.createReadStream(opts.file) *)
| SrcStream (st : jsval).      (* opts.stream *)

(** The host: [process.env], the sizes [fs.statSync] reports ([None]
    for a path it cannot stat), and the error [request] reports inside
    the call for a request it refuses before sending it ([None]: the
    request goes out and its callback runs later);
    [Http.request_refusal] is the rule of [request]'s own checks. *)
Record host_env : Type := mkHost {
  process : process_env;
  fs_size : string -> option Z;
  request_sync : http_request -> option js_error
}.

(** The parameters of [new AWS.S3(...)] and of the multipart upload,
    src/index.js:107-120. *)
Record s3_params : Type := mkS3 {
  s3_acl : string;
  s3_bucket : jsval;
  s3_key : jsval;
  s3_access_key_id : jsval;
  s3_secret_access_key : jsval;
  s3_session_token : jsval;
  s3_region : string
}.

Definition s3_params_of (creds bucket key : jsval) : s3_params :=
  mkS3 "public-read" bucket key
    (prop_or_undef creds "accessKeyId") (prop_or_undef creds "secretAccessKey")
    (prop_or_undef creds "sessionToken") "us-east-1".

(** What [putfile] leaves for its callbacks. *)
Record setup : Type := mkSetup {
  su_opts : opts;
  su_creds : jsval;
  su_src : source;
  su_length_listener : bool;    (* st.on('length', prog.setLength) *)
  su_s3 : s3_params
}.

Definition stream_msg : string := Options.quote "stream" ++ " must be an stream object".
Definition file_msg : string := Options.quote "file" ++ " must be an string".
Definition upload_failed_msg : string := "Upload to Mapbox.com failed".

(** The guard of src/index.js:88, [!opts.stream instanceof stream]: [!]
    binds tighter than [instanceof], so the test is on a boolean. *)
Definition stream_guard (st : jsval) : bool :=
  instanceof_stream (JBool (negb (truthy st))).

Section WithEmitter.
Context {C : Type} `{Emitter C}.

(** [upload.putfile(opts, creds, prog)] up to [new mpuUploader(...)]:
    the channel, the meter, and the setup when the upload starts. *)
Definition putfile_send (h : host_env) (o : opts) (creds : jsval) (c : C) (m : meter)
  : outcome js_error (C * meter * option setup) :=
  let? r := Finalize.check_stage (process h) o creds c in
  match r with
  | inl c' => Ok (c', m, None)
  | inr (o', b, k) =>
      let s3 := s3_params_of creds b k in
      if truthy (stream o') then
        if stream_guard (stream o') then
          let? c' := upload_error (Error stream_msg None) c in Ok (c', m, None)
        else if truthy (length_opt o') then
          Ok (emit (ELength (length_opt o')) c, set_length (length_opt o') m,
              Some (mkSetup o' creds (SrcStream (stream o')) false s3))
        else if instanceof_stream (stream o') then
          Ok (c, m, Some (mkSetup o' creds (SrcStream (stream o')) true s3))
        else Thrown (TypeError "st.on is not a function")
      else
        match file o' with
        | JStr p =>
            if negb (truthy (file o')) then
              let? c' := upload_error (Error file_msg None) c in Ok (c', m, None)
            else
              match fs_size h p with
              | None => Thrown (HostError HFs 0)
              | Some n => Ok (emit (ELength (JNum n)) c, set_length (JNum n) m,
                              Some (mkSetup o' creds (SrcFile p) false s3))
              end
        | _ => let? c' := upload_error (Error file_msg None) c in Ok (c', m, None)
        end
  end.

(** The callback of [new mpuUploader], src/index.js:120-133: an error, or
    the pipe set up ([true]). *)
Definition mpu_ready (su : setup) (err : option js_error) (c : C) : outcome js_error (C * bool) :=
  match err with
  | Some e => let? c' := upload_error e c in Ok (c', false)
  | None =>
      match su_src su with
      | SrcFile _ => Ok (c, true)
      | SrcStream st =>
          if instanceof_stream st then Ok (c, true)
          else Thrown (TypeError "st.pipe is not a function")
      end
  end.

(** [uploadStream.on('error', ...)], src/index.js:123-126. *)
Definition upload_stream_error (e : jsval) (c : C) : outcome js_error C :=
  upload_error (Error (js_to_string (js_or e (JStr upload_failed_msg))) None) c.

(** [fs.createReadStream(...).on('error', ...)], src/index.js:97-99. *)
Definition file_error (e : js_error) (c : C) : outcome js_error C :=
  upload_error e c.

(** A ['progress'] emission of the meter, and the relay of
    src/index.js:103-105 when it is attached. *)
Definition progress (relay : bool) (s : sample) (c : C) : C :=
  let c1 := emit (EProgress s) c in
  if relay then emit (EStats s) c1 else c1.

End WithEmitter.

(** ** Shapes of the handlers' outcomes *)

Section Shapes.
Context {C : Type} `{Emitter C}.

Lemma check_stage_shape env o creds (c : C) c' :
  Finalize.check_stage env o creds c = Ok (inl c') -> exists e, c' = emit (EError e) c.
Proof.
  unfold Finalize.check_stage.
  destruct (snd (upload_opts env (Some o))) as [o'|e].
  - destruct (get_prop creds "key") as [k|e]; simpl; [|discriminate].
    destruct (negb (truthy k)).
    + intros Hr. destruct (bind_error_ok _ _ _ _ Hr) as (c1 & -> & Hc). injection Hc; intros; subst; eauto.
    + destruct (get_prop creds "bucket") as [b|e]; simpl; [|discriminate].
      destruct (negb (truthy b)); [|discriminate].
      intros Hr. destruct (bind_error_ok _ _ _ _ Hr) as (c1 & -> & Hc). injection Hc; intros; subst; eauto.
  - intros Hr. destruct (bind_error_ok _ _ _ _ Hr) as (c1 & -> & Hc). injection Hc; intros; subst; eauto.
Qed.

(** [putfile] either fails with one error event, or starts the upload
    with the channel unchanged but for the ['length'] of [setLength]. *)
Lemma putfile_send_shape h o creds (c : C) m c' m' r :
  putfile_send h o creds c m = Ok (c', m', r) ->
  match r with
  | None => exists e, c' = emit (EError e) c
  | Some su => c' = c \/ exists v, c' = emit (ELength v) c
  end.
Proof.
  unfold putfile_send.
  destruct (Finalize.check_stage (process h) o creds c) as [[c1|[[o' b] k]]|e] eqn:Hs;
    simpl; [| | discriminate].
  - intros Hr; injection Hr as <- <- <-. eapply check_stage_shape; eauto.
  - repeat match goal with
           | |- context [if ?t then _ else _] => destruct t
           | |- context [match file o' with _ => _ end] => destruct (file o')
           | |- context [match fs_size h ?p with _ => _ end] => destruct (fs_size h p)
           end; shape_step.
Qed.

(** [putfile] touches the meter only through [setLength]. *)
Lemma putfile_send_meter h o creds (c : C) m c' m' r :
  putfile_send h o creds c m = Ok (c', m', r) -> m' = m \/ exists v, m' = set_length v m.
Proof.
  unfold putfile_send.
  destruct (Finalize.check_stage (process h) o creds c) as [[c1|[[o' b] k]]|e];
    simpl; [| | discriminate].
  - intros Hr; injection Hr; intros; subst; auto.
  - repeat match goal with
           | |- context [if ?t then _ else _] => destruct t
           | |- context [match file o' with _ => _ end] => destruct (file o')
           | |- context [match fs_size h ?p with _ => _ end] => destruct (fs_size h p)
           end; shape_step.
Qed.

Lemma mpu_ready_shape su err (c c' : C) piped :
  mpu_ready su err c = Ok (c', piped) ->
  if piped then c' = c /\ err = None else exists e, err = Some e /\ c' = emit (EError e) c.
Proof.
  unfold mpu_ready. destruct err as [e|].
  - shape_step.
  - destruct (su_src su) as [p|st]; [shape_step|].
    destruct (instanceof_stream st); shape_step.
Qed.

End Shapes.

(** ** What [putfile] does with the source *)

(** The guard of src/index.js:88 never fires: [!opts.stream] is a boolean,
    and no boolean is an instance of [stream]. *)
Lemma stream_guard_never st : stream_guard st = false.
Proof. reflexivity. Qed.

Section Props.
Context {C : Type} `{Emitter C}.

(** The stage checks pass on what [getcreds] handed over
    ([Finalize.check_stage_ok]); [putfile] then proceeds to
    the source. *)
Lemma putfile_send_after_getcreds h arg o creds (c : C) m :
  upload_opts (process h) arg = (o, Ok o) -> Creds.creds_ok creds = true ->
  putfile_send h o creds c m =
  (let s3 := s3_params_of creds (prop_or_undef creds "bucket") (prop_or_undef creds "key") in
   if truthy (stream o) then
     if truthy (length_opt o) then
       Ok (emit (ELength (length_opt o)) c, set_length (length_opt o) m,
           Some (mkSetup o creds (SrcStream (stream o)) false s3))
     else if instanceof_stream (stream o) then
       Ok (c, m, Some (mkSetup o creds (SrcStream (stream o)) true s3))
     else Thrown (TypeError "st.on is not a function")
   else
     match file o with
     | JStr p =>
         if negb (truthy (file o)) then
           let? c' := upload_error (Error file_msg None) c in Ok (c', m, None)
         else
           match fs_size h p with
           | None => Thrown (HostError HFs 0)
           | Some n => Ok (emit (ELength (JNum n)) c, set_length (JNum n) m,
                           Some (mkSetup o creds (SrcFile p) false s3))
           end
     | _ => let? c' := upload_error (Error file_msg None) c in Ok (c', m, None)
     end).
Proof.
  intros Ho Hc. unfold putfile_send.
  rewrite (Finalize.check_stage_ok _ _ _ _ c Ho Hc). simpl.
  reflexivity.
Qed.

(** On a caller stream without [opts.length], [putfile] leaves the meter
    alone, whatever the credentials: it only attaches the ['length']
    listener, or reports an error. *)
Lemma putfile_send_stream_meter h arg o creds (c : C) m c' m' r :
  upload_opts (process h) arg = (o, Ok o) -> truthy (stream o) = true ->
  truthy (length_opt o) = false -> putfile_send h o creds c m = Ok (c', m', r) -> m' = m.
Proof.
  intros Ho Hs Hl. unfold putfile_send, Finalize.check_stage.
  rewrite (upload_opts_reenter _ _ _ _ Ho). cbn [snd obind].
  destruct (get_prop creds "key") as [k|e]; cbn [obind]; [|discriminate].
  destruct (negb (truthy k)); [destruct (upload_error _ c); cbn; shape_step|].
  destruct (get_prop creds "bucket") as [b|e]; cbn [obind]; [|discriminate].
  destruct (negb (truthy b)); [destruct (upload_error _ c); cbn; shape_step|].
  cbn [obind]. rewrite Hs, stream_guard_never, Hl. destruct (instanceof_stream (stream o)); shape_step.
Qed.

(** [putfile] on a file source that exists. *)
Lemma putfile_file_setup h arg o creds (c : C) m p n :
  upload_opts (process h) arg = (o, Ok o) -> Creds.creds_ok creds = true ->
  truthy (stream o) = false -> file o = JStr p -> fs_size h p = Some n ->
  putfile_send h o creds c m =
  Ok (emit (ELength (JNum n)) c, set_length (JNum n) m,
      Some (mkSetup o creds (SrcFile p) false
              (mkS3 "public-read" (prop_or_undef creds "bucket") (prop_or_undef creds "key")
                    (prop_or_undef creds "accessKeyId") (prop_or_undef creds "secretAccessKey")
                    (prop_or_undef creds "sessionToken") "us-east-1"))).
Proof.
  intros Ho Hc Hs Hf Hn. rewrite (putfile_send_after_getcreds h arg o creds c m Ho Hc).
  rewrite Hs, Hf. destruct (upload_opts_ok _ _ _ _ Ho) as [_ [_ [[Hft|Hst] _]]];
    [|congruence].
  rewrite Hf in Hft. simpl in Hft. simpl. rewrite Hft, Hn. reflexivity.
Qed.

(** [putfile] on a caller stream without [opts.length]: the meter's
    length waits for the stream's ['length'] event. *)
Lemma putfile_stream_setup h arg o creds (c : C) m :
  upload_opts (process h) arg = (o, Ok o) -> Creds.creds_ok creds = true ->
  truthy (stream o) = true -> truthy (length_opt o) = false ->
  instanceof_stream (stream o) = true ->
  putfile_send h o creds c m =
  Ok (c, m, Some (mkSetup o creds (SrcStream (stream o)) true
                   (s3_params_of creds (prop_or_undef creds "bucket") (prop_or_undef creds "key")))).
Proof.
  intros Ho Hc Hs Hl Hi. rewrite (putfile_send_after_getcreds h arg o creds c m Ho Hc).
  simpl. rewrite Hs, Hl, Hi. reflexivity.
Qed.

(** C34: a file [fs.statSync] cannot stat makes [putfile] throw inside the
    credentials callback: the error escapes [request]'s callback as an
    uncaught exception instead of reaching the channel. *)
Theorem putfile_missing_file_throws h arg o creds (c : C) m p :
  upload_opts (process h) arg = (o, Ok o) -> Creds.creds_ok creds = true ->
  truthy (stream o) = false -> file o = JStr p -> fs_size h p = None ->
  putfile_send h o creds c m = Thrown (HostError HFs 0).
Proof.
  intros Ho Hc Hs Hf Hn. rewrite (putfile_send_after_getcreds h arg o creds c m Ho Hc).
  rewrite Hs, Hf. destruct (upload_opts_ok _ _ _ _ Ho) as [_ [_ [[Hft|Hst] _]]];
    [|congruence].
  rewrite Hf in Hft. simpl in Hft. simpl. rewrite Hft, Hn. reflexivity.
Qed.

(** C35: an [opts.stream] that is truthy but not a stream passes the dead
    guard of src/index.js:88; without [opts.length], [st.on(...)] then
    throws a [TypeError] inside the credentials callback. *)
Theorem putfile_nonstream_throws h arg o creds (c : C) m :
  upload_opts (process h) arg = (o, Ok o) -> Creds.creds_ok creds = true ->
  truthy (stream o) = true -> instanceof_stream (stream o) = false ->
  truthy (length_opt o) = false ->
  putfile_send h o creds c m = Thrown (TypeError "st.on is not a function").
Proof.
  intros Ho Hc Hs Hi Hl. rewrite (putfile_send_after_getcreds h arg o creds c m Ho Hc).
  simpl. rewrite Hs, Hl, Hi. reflexivity.
Qed.

End Props.

(** A host whose file system has [tiles.mbtiles], 1000 bytes long. *)
Definition scenario_host : host_env :=
  mkHost Options.scenario_env (fun p => if String.eqb p "tiles.mbtiles" then Some 1000%Z else None)
         request_refusal.

Definition scenario_creds : jsval := JObj [("key", JStr "k1"); ("bucket", JStr "b1")].

(** Options naming a file the host does not have. *)
Definition missing_file_opts : opts :=
  mkOpts (JStr "missing.mbtiles") JUndefined (JStr "acme") (JStr "tok")
         (JStr "acme.mytileset") JUndefined JUndefined JUndefined.

(** Options whose [stream] is a string. *)
Definition string_stream_opts : opts :=
  mkOpts JUndefined (JStr "not a stream") (JStr "acme") (JStr "tok")
         (JStr "acme.mytileset") JUndefined JUndefined JUndefined.

Lemma putfile_missing_file_throws_witness :
  putfile_send scenario_host (fst (upload_opts Options.scenario_env (Some missing_file_opts)))
    scenario_creds (listen (C:=trace_chan) new_chan) fresh_meter = Thrown (HostError HFs 0).
Proof.
  apply (putfile_missing_file_throws scenario_host (Some missing_file_opts) _ _ _ _ "missing.mbtiles");
    reflexivity.
Defined.

Lemma putfile_nonstream_throws_witness :
  putfile_send scenario_host (fst (upload_opts Options.scenario_env (Some string_stream_opts)))
    scenario_creds (listen (C:=trace_chan) new_chan) fresh_meter =
  Thrown (TypeError "st.on is not a function").
Proof.
  apply (putfile_nonstream_throws scenario_host (Some string_stream_opts)); reflexivity.
Defined.

End Putfile.
