(* ===== verification/Upload.v ===== *)
(** * Upload: the orchestrator [upload(opts)] (src/index.js:16-27) and the
    event-driven run of one upload

    [upload] validates the options, calls [getcreds] with a callback that
    calls [putfile], and returns [prog].  Everything after the return
    happens in callbacks of the libraries: the reply of [request.get], the
    callback of the S3 uploader, the events of the byte source and of the
    upload stream, and the reply of [request.post].

    The model is a state machine over [world]: which callbacks are
    registered (the pending closures with the values they captured), the
    state of the byte source, the channel, the meter, the network calls
    made so far, and whether an exception escaped a callback (which ends
    the process).  [deliver] applies one [input] (a library calling back,
    or the caller attaching its ['error'] listener); an input with no
    registered handler changes nothing, as an event nobody listens to.

    The libraries' own guarantees are part of the model: [request] and the
    uploader call back once; a source delivers data only while piped and
    before its end or error; the upload stream emits one of ['error'] and
    ['uploaded'], the latter only after the source has ended. *)

From Stdlib Require Import String Ascii List ZArith Bool Lia.
From S2P Require Import Prelude JsValue Options Channel Http Creds Finalize Putfile.
Import ListNotations.
Import Options Putfile.
Local Open Scope string_scope.

Module Upload.

(** The network calls, in the order made. *)
Inductive net_call : Type :=
| NetGet (r : http_request)       (* request.get, credentials *)
| NetS3 (p : s3_params)           (* new mpuUploader: multipart upload *)
| NetPost (r : http_request).     (* request.post, upload registration *)

Inductive net_kind : Type := KGet | KS3 | KPost.

Definition kind_of (n : net_call) : net_kind :=
  match n with NetGet _ => KGet | NetS3 _ => KS3 | NetPost _ => KPost end.

(** The byte source once [putfile] created it. *)
Record src_state : Type := mkSrc {
  ss_setup : setup;
  ss_piped : bool;     (* st.pipe(prog) is in place *)
  ss_ended : bool;     (* the source ended and prog flushed *)
  ss_dead : bool       (* the source emitted 'error' *)
}.

(** What the libraries and the caller deliver. *)
Inductive input : Type :=
| IListen                                (* prog.on('error', ...) by the caller *)
| IGetReply (r : http_reply raw_body)    (* request.get calls back *)
| IMpuReady (err : option js_error)      (* the uploader calls back *)
| ISrcLength (v : jsval)                 (* st emits 'length' *)
| ISrcData (k : nat) (tick : bool)       (* st writes k bytes into prog; tick: 100 ms passed *)
| ISrcEnd                                (* st ends; prog flushes *)
| ISrcError (e : js_error)               (* st emits 'error' *)
| IUpError (e : jsval)                   (* uploadStream emits 'error' *)
| IUploaded                              (* uploadStream emits 'uploaded' *)
| IPostReply (r : http_reply jsval).     (* request.post calls back *)

Section World.
Context {C : Type} `{Emitter C}.

Record world : Type := mkWorld {
  w_chan : C;
  w_meter : meter;
  w_net : list net_call;
  w_get : option opts;          (* the request.get callback, with upload's opts *)
  w_mpu : option setup;         (* the uploader callback *)
  w_src : option src_state;     (* the byte source *)
  w_up : option setup;          (* uploadStream's listeners *)
  w_post : bool;                (* the request.post callback *)
  w_relay : bool;               (* prog.on('progress', ...) *)
  w_crash : option js_error     (* an exception escaped a callback *)
}.

Definition set_chan (c : C) (w : world) : world :=
  mkWorld c (w_meter w) (w_net w) (w_get w) (w_mpu w) (w_src w) (w_up w) (w_post w) (w_relay w) (w_crash w).
Definition set_meter (m : meter) (w : world) : world :=
  mkWorld (w_chan w) m (w_net w) (w_get w) (w_mpu w) (w_src w) (w_up w) (w_post w) (w_relay w) (w_crash w).
Definition set_src (s : option src_state) (w : world) : world :=
  mkWorld (w_chan w) (w_meter w) (w_net w) (w_get w) (w_mpu w) s (w_up w) (w_post w) (w_relay w) (w_crash w).
Definition crash (e : js_error) (w : world) : world :=
  mkWorld (w_chan w) (w_meter w) (w_net w) (w_get w) (w_mpu w) (w_src w) (w_up w) (w_post w) (w_relay w) (Some e).

(** An ['error'] emitted on [prog] also fires the [onerror] that
    [st.pipe(prog)] put on [prog]: the source is unpiped. *)
Definition unpipe (s : option src_state) : option src_state :=
  match s with
  | Some ss => Some (mkSrc (ss_setup ss) false (ss_ended ss) (ss_dead ss))
  | None => None
  end.

(** The channel after a handler, or the crash of the process. *)
Definition after (r : outcome js_error C) (w : world) : world :=
  match r with
  | Ok c => set_chan c w
  | Thrown e => crash e w
  end.

(** [upload.error(e, prog)] as the last statement of a callback. *)
Definition raise (e : js_error) (w : world) : world :=
  match upload_error e (w_chan w) with
  | Ok c => set_src (unpipe (w_src w)) (set_chan c w)
  | Thrown e' => crash e' w
  end.

Section Host.
Variable h : host_env.

(** The callback [upload] gives [getcreds] (src/index.js:22-25) after the
    credentials passed: [putfile(opts, creds, prog)]. *)
Definition on_creds (o : opts) (creds : jsval) (c : C) (w : world) : world :=
  match putfile_send h o creds c (w_meter w) with
  | Thrown e => crash e (set_chan c w)
  | Ok (c', m', None) => set_meter m' (set_chan c' w)
  | Ok (c', m', Some su) =>
      mkWorld c' m' (w_net w ++ [NetS3 (su_s3 su)]) (w_get w) (Some su)
        (Some (mkSrc su false false false)) (w_up w) (w_post w) true (w_crash w)
  end.

(** The handlers, one per input; each needs its callback registered. *)
Definition deliver_live (w : world) (i : input) : world :=
  match i with
  | IListen => set_chan (listen (w_chan w)) w
  | IGetReply r =>
      match w_get w with
      | None => w
      | Some o =>
          let w0 := mkWorld (w_chan w) (w_meter w) (w_net w) None (w_mpu w) (w_src w)
                            (w_up w) (w_post w) (w_relay w) (w_crash w) in
          match Creds.getcreds_reply r (w_chan w) with
          | Thrown e => crash e w0
          | Ok (c', None) => set_chan c' w0
          | Ok (c', Some creds) => on_creds o creds c' w0
          end
      end
  | IMpuReady err =>
      match w_mpu w with
      | None => w
      | Some su =>
          let w0 := mkWorld (w_chan w) (w_meter w) (w_net w) (w_get w) None (w_src w)
                            (w_up w) (w_post w) (w_relay w) (w_crash w) in
          match mpu_ready su err (w_chan w) with
          | Thrown e => crash e w0
          | Ok (c', false) => set_chan c' w0
          | Ok (c', true) =>
              mkWorld c' (w_meter w) (w_net w) (w_get w) None
                (match w_src w with
                 | Some ss => Some (mkSrc (ss_setup ss) true (ss_ended ss) (ss_dead ss))
                 | None => None
                 end)
                (Some su) (w_post w) (w_relay w) (w_crash w)
          end
      end
  | ISrcLength v =>
      match w_src w with
      | Some ss =>
          if su_length_listener (ss_setup ss)
          then set_chan (emit (ELength v) (w_chan w)) (set_meter (set_length v (w_meter w)) w)
          else w
      | None => w
      end
  | ISrcData k tick =>
      match w_src w with
      | Some ss =>
          if ss_piped ss && negb (ss_ended ss) && negb (ss_dead ss) then
            let m' := write_chunk k (w_meter w) in
            if tick then
              let m'' := emit_update false m' in
              set_chan (progress (w_relay w) (update_of m'') (w_chan w)) (set_meter m'' w)
            else set_meter m' w
          else w
      | None => w
      end
  | ISrcEnd =>
      match w_src w with
      | Some ss =>
          if ss_piped ss && negb (ss_ended ss) && negb (ss_dead ss) then
            let m' := emit_update true (w_meter w) in
            set_src (Some (mkSrc (ss_setup ss) true true (ss_dead ss)))
              (set_chan (progress (w_relay w) (update_of m') (w_chan w)) (set_meter m' w))
          else w
      | None => w
      end
  | ISrcError e =>
      match w_src w with
      | Some ss =>
          if negb (ss_ended ss) && negb (ss_dead ss) then
            let w0 := set_src (Some (mkSrc (ss_setup ss) (ss_piped ss) false true)) w in
            match su_src (ss_setup ss) with
            | SrcFile _ => raise e w0
            | SrcStream _ => w0
            end
          else w
      | None => w
      end
  | IUpError e =>
      match w_up w with
      | Some su =>
          let w0 := mkWorld (w_chan w) (w_meter w) (w_net w) (w_get w) (w_mpu w) (w_src w)
                            None (w_post w) (w_relay w) (w_crash w) in
          match upload_stream_error e (w_chan w) with
          | Ok c => set_src (unpipe (w_src w0)) (set_chan c w0)
          | Thrown e' => crash e' w0
          end
      | None => w
      end
  | IUploaded =>
      match w_up w, w_src w with
      | Some su, Some ss =>
          if ss_ended ss then
            let w0 := mkWorld (w_chan w) (w_meter w) (w_net w) (w_get w) (w_mpu w) (w_src w)
                              None (w_post w) (w_relay w) (w_crash w) in
            match Finalize.create_upload_send (process h) (su_opts su) (su_creds su) (w_chan w) with
            | Thrown e => crash e w0
            | Ok (c', None) => set_chan c' w0
            | Ok (c', Some rq) =>
                mkWorld c' (w_meter w) (w_net w ++ [NetPost rq]) (w_get w) (w_mpu w) (w_src w)
                  None true (w_relay w) (w_crash w)
            end
          else w
      | _, _ => w
      end
  | IPostReply r =>
      if w_post w then
        let w0 := mkWorld (w_chan w) (w_meter w) (w_net w) (w_get w) (w_mpu w) (w_src w)
                          (w_up w) false (w_relay w) (w_crash w) in
        after (Finalize.create_upload_reply r (w_chan w)) w0
      else w
  end.

(** After an uncaught exception the process is gone. *)
Definition deliver (w : world) (i : input) : world :=
  match w_crash w with
  | Some _ => w
  | None => deliver_live w i
  end.

Definition run (w : world) (ins : list input) : world := fold_left deliver ins w.

(** What [upload(opts)] does before it returns. *)
Inductive call_result : Type :=
| Returned (w : world)       (* return prog *)
| Threw (e : js_error).      (* an exception out of upload() *)

(** [upload(opts)], src/index.js:16-27.  When [request] refuses the
    credentials request, its callback runs inside [request.get]:
    [upload.error] (line 59) on a [prog] nobody listens to yet throws, and
    the exception leaves [upload] at line 22. *)
Definition upload (arg : option opts) : call_result :=
  let w0 := mkWorld new_chan fresh_meter [] None None None None false false None in
  match snd (upload_opts (process h) arg) with
  | Thrown e =>
      match upload_error e new_chan with
      | Thrown e' => Threw e'
      | Ok c => Returned (set_chan c w0)
      end
  | Ok o =>
      match Creds.getcreds_send (process h) o new_chan with
      | Thrown e => Threw e
      | Ok (c, None) => Returned (set_chan c w0)
      | Ok (c, Some rq) =>
          match request_sync h rq with
          | None => Returned (mkWorld c fresh_meter [NetGet rq] (Some o) None None None false false None)
          | Some e =>
              (* request.get calls back before it returns: line 59 *)
              match Creds.getcreds_reply (HttpError e) c with
              | Thrown e' => Threw e'
              | Ok (c', _) => Returned (set_chan c' w0)
              end
          end
      end
  end.

(** The worlds an upload can reach. *)
Inductive reachable : world -> Prop :=
| reach_start arg w : upload arg = Returned w -> reachable w
| reach_step w i : reachable w -> reachable (deliver w i).

End Host.
End World.

(** ** The spec's scenarios as inputs *)

(** The validated options of the first scenario and the world [upload]
    returns for them. *)
Definition scenario_o : opts := fst (upload_opts Options.scenario_env (Some Options.scenario_opts)).

Definition scenario_w0 : world (C:=trace_chan) :=
  mkWorld new_chan fresh_meter [NetGet (Creds.getcreds_request scenario_o)] (Some scenario_o)
          None None None false false None.

Definition scenario_job : jsval := JObj [("id", JStr "acme.mytileset"); ("status", JStr "queued")].

(** Scenario 1: credentials, the whole file in one chunk, the upload
    stream's ['uploaded'], and a 201. *)
Definition success_inputs : list input :=
  [IListen; IGetReply (HttpResponse 200%Z (Json scenario_creds)); IMpuReady None;
   ISrcData 1000 true; ISrcEnd; IUploaded; IPostReply (HttpResponse 201%Z scenario_job)].

(** Scenario 4: the upload stream fails in the middle of the transfer. *)
Definition storage_failure_inputs : list input :=
  [IListen; IGetReply (HttpResponse 200%Z (Json scenario_creds)); IMpuReady None;
   ISrcData 500 true; IUpError (JStr "socket hang up")].

(** The file cannot be read and the multipart upload cannot start. *)
Definition double_failure_inputs : list input :=
  [IListen; IGetReply (HttpResponse 200%Z (Json scenario_creds));
   ISrcError (HostError HFs 1); IMpuReady (Some (HostError HS3 2))].

(** A caller stream [JStream 7] with a declared length of 100 bytes. *)
Definition stream_opts : opts :=
  mkOpts JUndefined (JStream 7) (JStr "acme") (JStr "tok") (JStr "acme.mytileset")
         JUndefined JUndefined (JNum 100).

Definition stream_o : opts := fst (upload_opts Options.scenario_env (Some stream_opts)).

Definition stream_w0 : world (C:=trace_chan) :=
  mkWorld new_chan fresh_meter [NetGet (Creds.getcreds_request stream_o)] (Some stream_o)
          None None None false false None.

End Upload.
