(* ===== verification/Safety.v ===== *)
(** * Safety: the invariant of every reachable [Upload.world]

    [inv] describes which callbacks can be registered together, how far the
    network calls have gone ([KGet], then [KS3], then [KPost]) and what the
    channel holds at each point.  [inv_start] and [inv_deliver] show that
    [upload] establishes it and every input preserves it; the theorems at
    the end read the safety properties of the orchestrator off it. *)

From Stdlib Require Import String Ascii List ZArith Bool Lia Btauto.
From S2P Require Import Prelude JsValue Options Channel Http Creds Finalize Putfile Upload.
Import ListNotations.
Import Options Putfile Upload.

Module Safety.

(** Reads the shape of every handler outcome among the hypotheses. *)
Ltac handler_shapes :=
  repeat match goal with
  | Hr : Creds.getcreds_reply _ _ = Ok (_, _) |- _ =>
      apply Creds.getcreds_reply_shape in Hr; simpl in Hr
  | Hr : putfile_send _ _ _ _ _ = Ok (_, _, _) |- _ =>
      apply putfile_send_shape in Hr; simpl in Hr
  | Hr : mpu_ready _ _ _ = Ok (_, _) |- _ => apply mpu_ready_shape in Hr; simpl in Hr
  | Hr : upload_error _ _ = Ok _ |- _ => apply upload_error_events in Hr
  | Hr : upload_stream_error _ _ = Ok _ |- _ => apply upload_error_events in Hr
  | Hr : Finalize.create_upload_send _ _ _ _ = Ok (_, _) |- _ =>
      apply Finalize.create_upload_send_shape in Hr; simpl in Hr
  | Hr : Finalize.create_upload_reply _ _ = Ok _ |- _ =>
      apply Finalize.create_upload_reply_cases in Hr
  | Hr : exists _, _ |- _ => destruct Hr
  | Hr : _ /\ _ |- _ => destruct Hr
  | Hr : _ \/ _ |- _ => destruct Hr
  end; subst.

(** [l] ends with a ['finished'] event followed by ['length'] events
    only. *)
Definition finished_then_lengths (l : list event) : Prop :=
  exists b pre post, l = pre ++ EFinished b :: post /\ forallb is_length post = true.

Lemma finished_then_lengths_snoc l v :
  finished_then_lengths l -> finished_then_lengths (l ++ [ELength v]).
Proof.
  intros (b & pre & post & -> & Hp). exists b, pre, (post ++ [ELength v]).
  rewrite <- app_assoc, forallb_app, Hp. split; reflexivity.
Qed.

#[local] Hint Resolve finished_then_lengths_snoc : upload.

Section Inv.
Context {C : Type} `{Emitter C}.

Definition evs (w : world (C:=C)) : list event := events (w_chan w).
Definition kinds (w : world (C:=C)) : list net_kind := map kind_of (w_net w).
Definition herr (w : world (C:=C)) : bool := existsb is_error (evs w).
Definition hfin (w : world (C:=C)) : bool := existsb is_finished (evs w).
Definition src_flag (f : src_state -> bool) (w : world (C:=C)) : bool :=
  match w_src w with Some ss => f ss | None => false end.

Definition K0 := [KGet].
Definition K1 := [KGet; KS3].
Definition K2 := [KGet; KS3; KPost].

Record inv (w : world (C:=C)) : Prop := {
  inv_net : kinds w = K0 \/ kinds w = K1 \/ kinds w = K2;
  inv_get : w_get w <> None -> kinds w = K0 /\ evs w = [];
  inv_k0 : kinds w = K0 ->
    w_mpu w = None /\ w_src w = None /\ w_up w = None /\ w_post w = false /\ hfin w = false;
  inv_k1 : kinds w = K1 ->
    w_get w = None /\ w_post w = false /\ hfin w = false /\ w_src w <> None /\
    (w_mpu w <> None -> w_up w = None /\ src_flag ss_piped w = false /\ src_flag ss_ended w = false) /\
    (w_up w <> None -> w_mpu w = None) /\
    (herr w = true -> (w_mpu w = None /\ w_up w = None) \/ src_flag ss_dead w = true);
  inv_k2 : kinds w = K2 ->
    w_get w = None /\ w_mpu w = None /\ w_up w = None /\ src_flag ss_ended w = true /\
    (w_post w = true -> hfin w = false /\ herr w = false) /\
    (hfin w = true -> w_post w = false /\ herr w = false /\
       count_if is_finished (evs w) = 1 /\ finished_then_lengths (evs w));
  inv_src : src_flag ss_ended w = true -> src_flag ss_dead w = false
}.

(** ** Helpers on the event predicates *)

Lemma existsb_snoc {A} (p : A -> bool) l x :
  existsb p (l ++ [x]) = existsb p l || p x.
Proof. rewrite existsb_app. simpl. rewrite orb_false_r. reflexivity. Qed.

Lemma count_if_none {A} (p : A -> bool) l : existsb p l = false -> count_if p l = 0.
Proof.
  induction l as [|a l IH]; simpl; [reflexivity|].
  intros Hf. apply orb_false_elim in Hf. destruct Hf as [Ha Hl].
  rewrite count_if_cons, Ha, IH by exact Hl. reflexivity.
Qed.

Lemma existsb_nil {A} (p : A -> bool) : existsb p [] = false.
Proof. reflexivity. Qed.

Lemma existsb_progress_error relay smp (c : C) :
  existsb is_error (events (progress relay smp c)) = existsb is_error (events c).
Proof. unfold progress. destruct relay; rewrite ?emit_events, ?existsb_snoc; simpl; btauto. Qed.

Lemma existsb_progress_finished relay smp (c : C) :
  existsb is_finished (events (progress relay smp c)) = existsb is_finished (events c).
Proof. unfold progress. destruct relay; rewrite ?emit_events, ?existsb_snoc; simpl; btauto. Qed.

#[local] Hint Rewrite existsb_progress_error existsb_progress_finished : upload_rw.

(** Unfold the views of a world to its fields. *)
Ltac unfold_views := unfold kinds, herr, hfin, evs, src_flag, K0, K1, K2 in *.

#[local] Hint Rewrite @existsb_snoc @existsb_nil orb_false_r orb_true_r : upload_rw.

(** What [upload] returns: [prog], fresh, with the credentials request
    sent and its callback registered. *)
(** The credentials callback run inside [request.get] reports on a
    channel nobody listens to: it throws. *)
Lemma refused_get_throws e :
  Creds.fail_with (C:=C) e new_chan = Thrown e.
Proof.
  unfold Creds.fail_with.
  rewrite upload_error_deaf by apply new_chan_listens. reflexivity.
Qed.

Lemma upload_returned h arg (w : world (C:=C)) :
  upload h arg = Returned w ->
  exists o, upload_opts (process h) arg = (o, Ok o) /\
    w = mkWorld new_chan fresh_meter [NetGet (Creds.getcreds_request o)] (Some o)
                None None None false false None.
Proof.
  unfold upload.
  destruct (upload_opts (process h) arg) as [o1 [o|e]] eqn:Ho; simpl.
  - pose proof (upload_opts_ok _ _ _ _ Ho) as [-> _].
    rewrite (Creds.getcreds_send_valid _ _ _ new_chan Ho).
    destruct (mapbox o1); try discriminate. cbn -[Creds.getcreds_reply].
    destruct (request_sync h _); [rewrite refused_get_throws; discriminate|].
    intros Hw; injection Hw as <-. eauto.
  - rewrite upload_error_deaf by apply new_chan_listens. discriminate.
Qed.

Lemma inv_start h arg (w : world (C:=C)) : upload h arg = Returned w -> inv w.
Proof.
  intros Hw. destruct (upload_returned h arg w Hw) as (o & _ & ->).
  constructor; unfold_views; simpl;
    rewrite ?new_chan_events; intuition (try discriminate; auto).
Qed.

(** ** Preservation, input by input *)

(** Proves [inv] of a world built from one satisfying it. *)
Ltac close_inv :=
  constructor; unfold_views; simpl in *;
  rewrite ?map_app in *; autorewrite with upload_rw in *;
  try match goal with Hk : map kind_of _ = _ |- _ => rewrite Hk in * end;
  try match goal with He : events _ = [] |- _ => rewrite He in * end;
  autorewrite with upload_rw in *; simpl in *;
  intuition (try congruence; try discriminate; eauto).

Lemma inv_set_chan (w : world (C:=C)) c' :
  events c' = events (w_chan w) -> inv w -> inv (set_chan c' w).
Proof.
  intros He [Hnet Hget Hk0 Hk1 Hk2 Hsrc].
  constructor; unfold_views; simpl; rewrite ?He; assumption.
Qed.

Lemma inv_set_meter (w : world (C:=C)) m : inv w -> inv (set_meter m w).
Proof. intros [Hnet Hget Hk0 Hk1 Hk2 Hsrc]. constructor; assumption. Qed.

Lemma inv_crash (w : world (C:=C)) e : inv w -> inv (crash e w).
Proof. intros [Hnet Hget Hk0 Hk1 Hk2 Hsrc]. constructor; assumption. Qed.

(** A pending [POST] callback means the three calls were made. *)
Lemma post_pending_k2 (w : world (C:=C)) : inv w -> w_post w = true -> kinds w = K2.
Proof.
  intros [Hnet _ Hk0 Hk1 _ _] Hp. destruct Hnet as [Hk|[Hk|Hk]]; [| |exact Hk].
  - destruct (Hk0 Hk) as (_ & _ & _ & Hp' & _). congruence.
  - destruct (Hk1 Hk) as (_ & Hp' & _). congruence.
Qed.

(** Once a source exists, the ['length'] of [setLength] changes none of
    the facts of [inv]. *)
Lemma inv_emit_length (w : world (C:=C)) v :
  w_src w <> None -> inv w -> inv (set_chan (emit (ELength v) (w_chan w)) w).
Proof.
  intros Hs [Hnet Hget Hk0 Hk1 Hk2 Hsrc]. close_inv;
    rewrite ?existsb_snoc, ?count_if_app, ?count_if_cons, ?count_if_nil in *; simpl in *;
    rewrite ?orb_false_r, ?Nat.add_0_r in *; intuition (try congruence; eauto with upload).
Qed.

Section Host.
Variable h : host_env.

Lemma inv_get_reply (w : world (C:=C)) r : inv w -> inv (deliver_live h w (IGetReply r)).
Proof.
  intros Hinv. pose proof Hinv as [Hnet Hget Hk0 Hk1 Hk2 Hsrc]. simpl.
  destruct (w_get w) as [o|] eqn:Hg; [|exact Hinv].
  destruct (Hget ltac:(congruence)) as [Hk He].
  destruct (Hk0 Hk) as (Hm & Hs & Hu & Hp & Hf).
  clear Hinv Hnet Hget Hk0 Hk1 Hk2.
  destruct w as [c m net get mpu src up post relay cr]; simpl in *; subst.
  destruct (Creds.getcreds_reply r c) as [[c' [creds|]]|e] eqn:Hr.
  - pose proof (Creds.getcreds_reply_shape _ _ _ _ Hr) as ->. unfold on_creds. simpl.
    destruct (putfile_send h o creds c m) as [[[c'' m'] [su|]]|e] eqn:Hp'.
    + destruct (putfile_send_shape _ _ _ _ _ _ _ _ Hp') as [->|[v ->]]; close_inv.
    + destruct (putfile_send_shape _ _ _ _ _ _ _ _ Hp') as [e ->]. close_inv.
    + close_inv.
  - destruct (Creds.getcreds_reply_shape _ _ _ _ Hr) as [e ->]. close_inv.
  - close_inv.
Qed.

(** A live uploader callback or upload stream means the S3 call was the
    last network call. *)
Lemma inv_stage_k1 (w : world (C:=C)) :
  inv w -> w_mpu w <> None \/ w_up w <> None -> kinds w = K1.
Proof.
  intros [Hnet Hget Hk0 Hk1 Hk2 Hsrc] Hl.
  destruct Hnet as [Hk|[Hk|Hk]]; [| exact Hk |].
  - destruct (Hk0 Hk) as (Hm & _ & Hu & _). tauto.
  - destruct (Hk2 Hk) as (_ & Hm & Hu & _). tauto.
Qed.

Lemma inv_mpu_ready (w : world (C:=C)) err : inv w -> inv (deliver_live h w (IMpuReady err)).
Proof.
  intros Hinv. simpl.
  destruct (w_mpu w) as [su|] eqn:Hm; [|exact Hinv].
  assert (Hk : kinds w = K1) by (apply inv_stage_k1; [exact Hinv | left; congruence]).
  pose proof Hinv as [Hnet Hget Hk0 Hk1 Hk2 Hsrc].
  destruct (Hk1 Hk) as (Hg & Hp & Hf & Hs & Hmu & Hum & Herr).
  destruct w as [c m net get mpu src up post relay cr]; simpl in *; subst.
  destruct (Hmu ltac:(congruence)) as (Hu & Hpi & Hen).
  clear Hinv Hnet Hget Hk0 Hk2 Hmu.
  destruct (mpu_ready su err c) as [[c' [|]]|e] eqn:Hr.
  - destruct (mpu_ready_shape _ _ _ _ _ Hr) as [-> ->].
    destruct src as [ss|]; [|congruence]. close_inv.
  - destruct (mpu_ready_shape _ _ _ _ _ Hr) as (e & -> & ->). close_inv.
  - close_inv.
Qed.

Lemma inv_up_error (w : world (C:=C)) e : inv w -> inv (deliver_live h w (IUpError e)).
Proof.
  intros Hinv. simpl.
  destruct (w_up w) as [su|] eqn:Hu; [|exact Hinv].
  assert (Hk : kinds w = K1) by (apply inv_stage_k1; [exact Hinv | right; congruence]).
  pose proof Hinv as [Hnet Hget Hk0 Hk1 Hk2 Hsrc].
  destruct (Hk1 Hk) as (Hg & Hp & Hf & Hs & Hmu & Hum & Herr).
  destruct w as [c m net get mpu src up post relay cr]; simpl in *; subst.
  specialize (Hum ltac:(congruence)); subst.
  clear Hinv Hnet Hget Hk0 Hk2.
  unfold upload_stream_error.
  destruct (upload_error _ c) as [c'|e'] eqn:Hr.
  - apply upload_error_events in Hr; subst.
    destruct src as [ss|]; [|congruence]. close_inv.
  - close_inv.
Qed.

(** A live source that has not ended means the S3 call was the last one. *)
Lemma inv_src_live_k1 (w : world (C:=C)) ss :
  inv w -> w_src w = Some ss -> ss_ended ss = false -> kinds w = K1.
Proof.
  intros [Hnet Hget Hk0 Hk1 Hk2 Hsrc] Hs He.
  destruct Hnet as [Hk|[Hk|Hk]]; [| exact Hk |].
  - destruct (Hk0 Hk) as (_ & Hs' & _). congruence.
  - destruct (Hk2 Hk) as (_ & _ & _ & Hen & _). unfold src_flag in Hen. rewrite Hs in Hen. congruence.
Qed.

Lemma inv_src_data (w : world (C:=C)) k tick : inv w -> inv (deliver_live h w (ISrcData k tick)).
Proof.
  intros Hinv. simpl.
  destruct (w_src w) as [ss|] eqn:Hs; [|exact Hinv].
  destruct (ss_piped ss && negb (ss_ended ss) && negb (ss_dead ss)) eqn:Hg; [|exact Hinv].
  apply andb_prop in Hg as [Hg Hd]. apply andb_prop in Hg as [Hpi He].
  apply negb_true_iff in He, Hd.
  pose proof (inv_src_live_k1 w ss Hinv Hs He) as Hk.
  pose proof Hinv as [Hnet Hget Hk0 Hk1 Hk2 Hsrc]. clear Hinv Hnet Hget Hk0 Hk2.
  destruct w as [c m net get mpu src up post relay cr]; simpl in *; subst.
  destruct tick; close_inv.
Qed.

Lemma inv_src_end (w : world (C:=C)) : inv w -> inv (deliver_live h w ISrcEnd).
Proof.
  intros Hinv. simpl.
  destruct (w_src w) as [ss|] eqn:Hs; [|exact Hinv].
  destruct (ss_piped ss && negb (ss_ended ss) && negb (ss_dead ss)) eqn:Hg; [|exact Hinv].
  apply andb_prop in Hg as [Hg Hd]. apply andb_prop in Hg as [Hpi He].
  apply negb_true_iff in He, Hd.
  pose proof (inv_src_live_k1 w ss Hinv Hs He) as Hk.
  pose proof Hinv as [Hnet Hget Hk0 Hk1 Hk2 Hsrc]. clear Hinv Hnet Hget Hk0 Hk2.
  destruct w as [c m net get mpu src up post relay cr]; simpl in *; subst.
  destruct (Hk1 Hk) as (Hg & Hp & Hf & _ & Hmu & Hum & Herr). clear Hk1.
  assert (mpu = None) as ->.
  { destruct mpu; [|reflexivity]. destruct (Hmu ltac:(congruence)) as (_ & Hp' & _).
    unfold src_flag in Hp'; simpl in Hp'. congruence. }
  close_inv.
Qed.

Lemma inv_src_error (w : world (C:=C)) e : inv w -> inv (deliver_live h w (ISrcError e)).
Proof.
  intros Hinv. simpl.
  destruct (w_src w) as [ss|] eqn:Hs; [|exact Hinv].
  destruct (negb (ss_ended ss) && negb (ss_dead ss)) eqn:Hg; [|exact Hinv].
  apply andb_prop in Hg as [He Hd]. apply negb_true_iff in He, Hd.
  pose proof (inv_src_live_k1 w ss Hinv Hs He) as Hk.
  pose proof Hinv as [Hnet Hget Hk0 Hk1 Hk2 Hsrc]. clear Hinv Hnet Hget Hk0 Hk2.
  destruct w as [c m net get mpu src up post relay cr]; simpl in *; subst.
  destruct (su_src (ss_setup ss)); [|close_inv].
  unfold raise. simpl.
  destruct (upload_error e c) as [c'|e'] eqn:Hr; [apply upload_error_events in Hr; subst|];
    close_inv.
Qed.

Lemma inv_uploaded (w : world (C:=C)) : inv w -> inv (deliver_live h w IUploaded).
Proof.
  intros Hinv. simpl.
  destruct (w_up w) as [su|] eqn:Hu; [|exact Hinv].
  destruct (w_src w) as [ss|] eqn:Hs; [|exact Hinv].
  destruct (ss_ended ss) eqn:He; [|exact Hinv].
  assert (Hk : kinds w = K1) by (apply inv_stage_k1; [exact Hinv | right; congruence]).
  pose proof Hinv as [Hnet Hget Hk0 Hk1 Hk2 Hsrc]. clear Hinv Hnet Hget Hk0 Hk2.
  destruct w as [c m net get mpu src up post relay cr]; simpl in *; subst.
  destruct (Hk1 Hk) as (Hg & Hp & Hf & _ & _ & Hum & Herr). clear Hk1.
  specialize (Hum ltac:(congruence)). subst.
  unfold src_flag in Hsrc; simpl in Hsrc. specialize (Hsrc He).
  assert (Hne : herr (mkWorld c m net None None (Some ss) (Some su) false relay cr) = false).
  { destruct (herr _) eqn:E; [|reflexivity]. destruct (Herr eq_refl) as [[_ ?]|Hd]; [congruence|].
    unfold src_flag in Hd; simpl in Hd. congruence. }
  clear Herr.
  destruct (Finalize.create_upload_send (process h) (su_opts su) (su_creds su) c)
    as [[c' [rq|]]|e] eqn:Hr.
  - pose proof (Finalize.create_upload_send_shape _ _ _ _ _ _ Hr) as ->. close_inv.
  - destruct (Finalize.create_upload_send_shape _ _ _ _ _ _ Hr) as [e ->]. close_inv.
  - close_inv.
Qed.

Lemma inv_post_reply (w : world (C:=C)) r : inv w -> inv (deliver_live h w (IPostReply r)).
Proof.
  intros Hinv. simpl.
  destruct (w_post w) eqn:Hp; [|exact Hinv].
  pose proof Hinv as [Hnet Hget Hk0 Hk1 Hk2 Hsrc]. clear Hinv.
  assert (Hk : kinds w = K2).
  { destruct Hnet as [Hk|[Hk|Hk]]; [| |exact Hk].
    - destruct (Hk0 Hk) as (_ & _ & _ & Hp' & _). congruence.
    - destruct (Hk1 Hk) as (_ & Hp' & _). congruence. }
  clear Hnet Hget Hk0 Hk1.
  destruct w as [c m net get mpu src up post relay cr]; simpl in *; subst.
  destruct (Hk2 Hk) as (Hg & Hm & Hu & Hen & Hpost & _). clear Hk2.
  destruct (Hpost eq_refl) as [Hf He]. clear Hpost.
  unfold after.
  destruct (Finalize.create_upload_reply r c) as [c'|e] eqn:Hr; [|close_inv].
  destruct (Finalize.create_upload_reply_cases _ _ _ Hr) as [(b & _ & ->)|(e & -> & _)].
  - unfold hfin, evs in Hf. simpl in Hf.
    pose proof (count_if_none _ _ Hf) as Hc.
    close_inv; [rewrite Hc; reflexivity|].
    exists b, (events c), []. split; reflexivity.
  - close_inv.
Qed.

Lemma inv_deliver (w : world (C:=C)) i : inv w -> inv (deliver h w i).
Proof.
  intros Hinv. unfold deliver. destruct (w_crash w); [exact Hinv|].
  destruct i.
  - apply inv_set_chan; [apply listen_events | exact Hinv].
  - apply inv_get_reply; exact Hinv.
  - apply inv_mpu_ready; exact Hinv.
  - simpl. destruct (w_src w) as [ss|] eqn:Hs; [|exact Hinv].
    destruct (su_length_listener (ss_setup ss)); [|exact Hinv].
    apply (inv_emit_length (set_meter _ w)); [simpl; congruence | apply inv_set_meter, Hinv].
  - apply inv_src_data; exact Hinv.
  - apply inv_src_end; exact Hinv.
  - apply inv_src_error; exact Hinv.
  - apply inv_up_error; exact Hinv.
  - apply inv_uploaded; exact Hinv.
  - apply inv_post_reply; exact Hinv.
Qed.

Lemma inv_reachable (w : world (C:=C)) : reachable h w -> inv w.
Proof.
  induction 1 as [arg w Hw | w i _ IH].
  - eapply inv_start; exact Hw.
  - apply inv_deliver; exact IH.
Qed.

(** C1: a successful upload is reported once and alone: whenever the
    channel holds a ['finished'] event it holds exactly one, no ['error']
    was emitted, and nothing but ['length'] events follows it (the
    listener [st.on('length', prog.setLength)] of a caller stream stays
    registered after the upload). *)
Theorem finished_alone (w : world (C:=C)) :
  reachable h w -> existsb is_finished (events (w_chan w)) = true ->
  count_if is_finished (events (w_chan w)) = 1 /\
  existsb is_error (events (w_chan w)) = false /\
  exists body pre post, events (w_chan w) = pre ++ EFinished body :: post /\
                        forallb is_length post = true.
Proof.
  intros Hr Hf. destruct (inv_reachable w Hr) as [Hnet _ Hk0 Hk1 Hk2 _].
  change (hfin w = true) in Hf.
  destruct Hnet as [Hk|[Hk|Hk]].
  - destruct (Hk0 Hk) as (_ & _ & _ & _ & Hf'). congruence.
  - destruct (Hk1 Hk) as (_ & _ & Hf' & _). congruence.
  - destruct (Hk2 Hk) as (_ & _ & _ & _ & _ & Hfin). destruct (Hfin Hf) as (_ & He & Hc & Hl).
    auto.
Qed.

(** C3: the stages call the network in the code's order and at most once
    each: the calls made so far are [GET credentials], then the S3
    multipart upload, then the [POST]; each only after the previous. *)
Theorem network_order (w : world (C:=C)) :
  reachable h w ->
  exists n, map kind_of (w_net w) = firstn (S n) [KGet; KS3; KPost].
Proof.
  intros Hr. destruct (inv_reachable w Hr) as [Hnet _ _ _ _ _].
  destruct Hnet as [Hk|[Hk|Hk]]; [exists 0 | exists 1 | exists 2]; exact Hk.
Qed.

(** What [upload] does with options [upload.opts] accepted. *)
Lemma upload_accepted arg o :
  upload_opts (process h) arg = (o, Ok o) ->
  upload (C:=C) h arg =
  match mapbox o with
  | JStr _ =>
      match request_sync h (Creds.getcreds_request o) with
      | None => Returned (mkWorld new_chan fresh_meter [NetGet (Creds.getcreds_request o)] (Some o)
                                  None None None false false None)
      | Some e => Threw e
      end
  | v => Threw (url_type_error v)
  end.
Proof.
  intros Ho. unfold upload. rewrite Ho. simpl.
  rewrite (Creds.getcreds_send_valid _ _ _ new_chan Ho).
  destruct (mapbox o); cbn -[Creds.fail_with]; try reflexivity.
  destruct (request_sync h _); [rewrite refused_get_throws|]; reflexivity.
Qed.

(** C19: [upload(opts)] throws instead of returning [prog] exactly in
    three cases.  When [upload.opts] refuses the options, [upload.error]
    emits ['error'] on the fresh [prog], which has no listener yet, so
    Node throws the validation error out of [upload].  When it accepts
    them but [opts.mapbox] is not a string ([upload.opts] only checks
    that it is truthy), [url.parse] in [getcreds] throws a [TypeError].
    When [request] refuses the credentials URI (no host, or a protocol
    other than [http:] and [https:]), it runs the callback inside
    [request.get], whose [upload.error] throws [request]'s error. *)
Theorem upload_throws_iff arg e :
  upload (C:=C) h arg = Threw e <->
  (exists o, upload_opts (process h) arg = (o, Thrown e)) \/
  (exists o, upload_opts (process h) arg = (o, Ok o) /\ is_string (mapbox o) = false /\
             e = url_type_error (mapbox o)) \/
  (exists o, upload_opts (process h) arg = (o, Ok o) /\ is_string (mapbox o) = true /\
             request_sync h (Creds.getcreds_request o) = Some e).
Proof.
  destruct (upload_opts (process h) arg) as [o [o'|e']] eqn:Ho.
  - pose proof (upload_opts_ok _ _ _ _ Ho) as [-> _].
    rewrite (upload_accepted arg o Ho).
    split.
    + intros Hr. right.
      destruct (mapbox o) eqn:Hm; try (injection Hr as <-; left; exists o; rewrite Hm; auto).
      right. exists o. rewrite Hm. destruct (request_sync h _); [injection Hr as <-|]; easy.
    + intros [[o1 Hc]|[[o1 (Hc & Hs & ->)]|[o1 (Hc & Hs & Hq)]]]; [discriminate| |];
        injection Hc as <-; destruct (mapbox o); try discriminate; try reflexivity.
      rewrite Hq. reflexivity.
  - unfold upload. rewrite Ho. simpl.
    rewrite upload_error_deaf by apply new_chan_listens.
    split.
    + intros Hr. injection Hr as <-. left. exists o. reflexivity.
    + intros [[o1 Hc]|[[o1 (Hc & _)]|[o1 (Hc & _)]]]; congruence.
Qed.

(** The world [upload] returns for accepted options whose credentials
    request [request] sends. *)
Lemma upload_valid_world arg o :
  upload_opts (process h) arg = (o, Ok o) -> is_string (mapbox o) = true ->
  request_sync h (Creds.getcreds_request o) = None ->
  upload (C:=C) h arg =
  Returned (mkWorld new_chan fresh_meter [NetGet (Creds.getcreds_request o)] (Some o)
                    None None None false false None).
Proof.
  intros Ho Hs Hq. rewrite (upload_accepted arg o Ho), Hq.
  destruct (mapbox o); try discriminate. reflexivity.
Qed.

(** How one input changes the network calls: not at all, by the S3 call
    (the credentials reply), or by the POST (the ['uploaded'] event). *)
Lemma deliver_net (w : world (C:=C)) i :
  w_net (deliver h w i) = w_net w \/
  (exists p, w_net (deliver h w i) = w_net w ++ [NetS3 p]) \/
  (i = IUploaded /\ exists rq, w_net (deliver h w i) = w_net w ++ [NetPost rq]).
Proof.
  unfold deliver. destruct (w_crash w); [left; reflexivity|].
  destruct i; simpl; unfold on_creds, after, raise; case_ifs; simpl; eauto 6.
Qed.

(** How one input changes the events of the channel: not at all, by one
    error, by the meter's emissions, (only for the POST reply, with its
    callback registered) by one ['finished'], or by the ['length'] of
    [setLength]. *)
Lemma deliver_events (w : world (C:=C)) i :
  events (w_chan (deliver h w i)) = events (w_chan w) \/
  (exists e, events (w_chan (deliver h w i)) = events (w_chan w) ++ [EError e]) \/
  (exists relay, events (w_chan (deliver h w i)) =
     events (progress relay (update_of (w_meter (deliver h w i))) (w_chan w))) \/
  (exists b, i = IPostReply (HttpResponse 201%Z b) /\ w_post w = true /\
     events (w_chan (deliver h w i)) = events (w_chan w) ++ [EFinished b]) \/
  (exists v, events (w_chan (deliver h w i)) = events (w_chan w) ++ [ELength v]).
Proof.
  unfold deliver. destruct (w_crash w); [left; reflexivity|].
  destruct i; simpl; unfold on_creds, after, raise; case_ifs; simpl; handler_shapes;
    rewrite ?emit_events, ?listen_events; eauto 8.
Qed.

(** How one input changes the meter: not at all, by [setLength], by a
    chunk written through [prog] with or without an emission, or by the
    flush's emission. *)
Lemma deliver_meter (w : world (C:=C)) i :
  w_meter (deliver h w i) = w_meter w \/
  (exists v, w_meter (deliver h w i) = set_length v (w_meter w)) \/
  (exists k, w_meter (deliver h w i) = write_chunk k (w_meter w) \/
             w_meter (deliver h w i) = emit_update false (write_chunk k (w_meter w))) \/
  w_meter (deliver h w i) = emit_update true (w_meter w).
Proof.
  unfold deliver. destruct (w_crash w); [left; reflexivity|].
  destruct i; simpl; unfold on_creds, after, raise; case_ifs; simpl; eauto;
    repeat match goal with
           | Hr : putfile_send _ _ _ _ _ = Ok (_, _, _) |- _ =>
               apply putfile_send_meter in Hr; destruct Hr as [->|[v ->]]
           end; eauto 6.
Qed.

Lemma in_kinds_app (l : list net_call) x k :
  In k (map kind_of (l ++ [x])) -> In k (map kind_of l) \/ k = kind_of x.
Proof. rewrite map_app, in_app_iff. simpl. intuition. Qed.

Lemma run_post_needs_uploaded ins : forall (w : world (C:=C)),
  ~ In KPost (map kind_of (w_net w)) ->
  In KPost (map kind_of (w_net (run h w ins))) -> In IUploaded ins.
Proof.
  induction ins as [|i ins IH]; simpl; intros w Hn Hp; [contradiction|].
  destruct (deliver_net w i) as [E|[[p E]|[-> _]]]; [| |left; reflexivity].
  - right. apply (IH (deliver h w i)); [rewrite E; exact Hn | exact Hp].
  - right. apply (IH (deliver h w i)); [|exact Hp].
    rewrite E. intros Hin. apply in_kinds_app in Hin. destruct Hin as [Hin|Hin]; [contradiction | discriminate].
Qed.

(** C8: the registration [POST] is sent only after the upload stream
    reported ['uploaded']: in any run of an upload, a [POST] among the
    network calls means [IUploaded] was among the inputs. *)
Theorem post_needs_uploaded arg (w0 : world (C:=C)) ins :
  upload h arg = Returned w0 ->
  In KPost (map kind_of (w_net (run h w0 ins))) -> In IUploaded ins.
Proof.
  intros Hw. destruct (upload_returned h arg w0 Hw) as (o & _ & ->).
  apply run_post_needs_uploaded. simpl. intuition discriminate.
Qed.

Lemma reachable_run ins : forall (w : world (C:=C)), reachable h w -> reachable h (run h w ins).
Proof.
  induction ins as [|i ins IH]; simpl; intros w Hw; [exact Hw|].
  apply IH. apply reach_step. exact Hw.
Qed.

(** ** A failed upload stream stops the pipeline *)

(** Worlds from which no [POST] can follow: none was sent, and the process
    is gone or no callback that leads to one is registered. *)
Definition blocked (w : world (C:=C)) : Prop :=
  ~ In KPost (kinds w) /\
  (w_crash w <> None \/ (w_get w = None /\ w_mpu w = None /\ w_up w = None)).

Lemma deliver_blocked (w : world (C:=C)) i : blocked w -> blocked (deliver h w i).
Proof.
  intros [Hn Hs]. unfold deliver.
  destruct (w_crash w) eqn:Hc; [split; [exact Hn | left; congruence]|].
  destruct Hs as [Hs|(Hg & Hm & Hu)]; [congruence|].
  destruct w as [c m net get mpu src up post relay cr]; simpl in *; subst.
  unfold blocked, kinds.
  destruct i; simpl; unfold raise, after; case_ifs; simpl;
    (split; [assumption | right; auto]) || (split; [assumption | left; discriminate]).
Qed.

Lemma run_blocked ins : forall (w : world (C:=C)), blocked w -> blocked (run h w ins).
Proof.
  induction ins as [|i ins IH]; simpl; intros w Hb; [exact Hb|].
  apply IH, deliver_blocked, Hb.
Qed.

(** An ['error'] of the upload stream while the multipart upload runs
    leaves no way to a [POST]. *)
Lemma up_error_no_post (w : world (C:=C)) e ins :
  reachable h w -> w_up w <> None ->
  ~ In KPost (map kind_of (w_net (run h (deliver h w (IUpError e)) ins))).
Proof.
  intros Hr Hu.
  assert (Hk : kinds w = K1) by (apply inv_stage_k1; [apply inv_reachable; exact Hr | right; exact Hu]).
  destruct (inv_reachable w Hr) as [_ _ _ Hk1 _ _].
  destruct (Hk1 Hk) as (Hg & _ & _ & _ & _ & Hum & _).
  apply (run_blocked ins (deliver h w (IUpError e))).
  unfold deliver. destruct (w_crash w) eqn:Hc.
  - unfold blocked. rewrite Hk. unfold K1.
    split; [simpl; intuition discriminate | left; congruence].
  - simpl. destruct (w_up w) as [su|] eqn:Hu'; [|congruence].
    specialize (Hum ltac:(congruence)).
    unfold blocked, kinds, K1 in *.
    destruct (upload_stream_error e (w_chan w)); simpl;
      (split; [rewrite Hk; simpl; intuition discriminate | right; auto]).
Qed.

(** ** A failed source stops the pipeline *)

(** Worlds whose source failed before its end: no [POST] was sent, and the
    process is gone or the source is dead, not ended, and no credentials
    callback can replace it. *)
Definition src_blocked (w : world (C:=C)) : Prop :=
  ~ In KPost (kinds w) /\
  (w_crash w <> None \/
   (w_get w = None /\ src_flag ss_dead w = true /\ src_flag ss_ended w = false)).

Lemma deliver_src_blocked (w : world (C:=C)) i : src_blocked w -> src_blocked (deliver h w i).
Proof.
  intros [Hn Hs]. unfold deliver.
  destruct (w_crash w) eqn:Hc; [split; [exact Hn | left; congruence]|].
  destruct Hs as [Hs|(Hg & Hd & He)]; [congruence|].
  destruct w as [c m net get mpu src up post relay cr]; simpl in *; subst.
  unfold src_flag in *. destruct src as [[su piped ended dead]|]; simpl in *; [|discriminate].
  subst. unfold src_blocked, kinds, src_flag in *. simpl in Hn.
  destruct i; simpl; unfold raise, after, unpipe; simpl; case_ifs; simpl in *;
    inj_some; simpl;
    rewrite ?andb_true_r, ?andb_false_r in *; try discriminate;
    (split; [assumption | right; auto]) || (split; [assumption | left; discriminate]).
Qed.

Lemma run_src_blocked ins : forall (w : world (C:=C)), src_blocked w -> src_blocked (run h w ins).
Proof.
  induction ins as [|i ins IH]; simpl; intros w Hb; [exact Hb|].
  apply IH, deliver_src_blocked, Hb.
Qed.

(** An ['error'] of the byte source before its end leaves no way to a
    [POST]: the upload stream never sees the end of the data. *)
Lemma src_error_no_post (w : world (C:=C)) ss e ins :
  reachable h w -> w_src w = Some ss -> ss_ended ss = false ->
  ~ In KPost (map kind_of (w_net (run h (deliver h w (ISrcError e)) ins))).
Proof.
  intros Hr Hs He.
  pose proof (inv_reachable w Hr) as [Hnet _ Hk0 Hk1 Hk2 _].
  assert (Hk : kinds w = K1).
  { destruct Hnet as [Hk|[Hk|Hk]]; [| exact Hk |].
    - destruct (Hk0 Hk) as (_ & Hs' & _). congruence.
    - destruct (Hk2 Hk) as (_ & _ & _ & Hen & _). unfold src_flag in Hen. rewrite Hs in Hen. congruence. }
  destruct (Hk1 Hk) as (Hg & _).
  apply (run_src_blocked ins (deliver h w (ISrcError e))).
  destruct w as [c m net get mpu src up post relay cr]; unfold kinds, K1 in Hk; simpl in *; subst.
  unfold deliver, src_blocked, kinds, src_flag.
  destruct cr; simpl; [split; [rewrite Hk; simpl; intuition discriminate | left; discriminate]|].
  rewrite He. destruct ss as [su piped ended dead]; simpl in *; subst.
  destruct dead; simpl; [split; [rewrite Hk; simpl; intuition discriminate | right; auto]|].
  destruct (su_src su); unfold raise; simpl; [destruct (upload_error e c)|]; simpl;
    (split; [rewrite Hk; simpl; intuition discriminate|]); first [left; discriminate | right; auto].
Qed.

(** C12: the upload stream's ['error'] handler (src/index.js:123-126)
    reports the failure and ends the pipeline: while the multipart upload
    runs and the caller listens, an ['error'] [e] of the upload stream
    appends exactly one ['error'] to [prog], [new Error(e || 'Upload to
    Mapbox.com failed')]; the source is unpiped from [prog]; and whatever
    the libraries deliver afterwards, no [POST] is sent. *)
Theorem upload_stream_error_blocks_post (w : world (C:=C)) v ins :
  reachable h w -> w_up w <> None -> w_crash w = None -> listens_error (w_chan w) = true ->
  events (w_chan (deliver h w (IUpError v))) =
    events (w_chan w) ++ [EError (Error (js_to_string (js_or v (JStr upload_failed_msg))) None)] /\
  (forall ss, w_src (deliver h w (IUpError v)) = Some ss -> ss_piped ss = false) /\
  ~ In KPost (map kind_of (w_net (run h (deliver h w (IUpError v)) ins))).
Proof.
  intros Hr Hu Hc Hl. split; [|split; [|exact (up_error_no_post w v ins Hr Hu)]];
    unfold deliver; rewrite Hc; simpl; destruct (w_up w); try congruence;
    unfold upload_stream_error; rewrite upload_error_listening by exact Hl; simpl.
  - rewrite emit_events. reflexivity.
  - intros ss. destruct (w_src w) as [[]|]; simpl; intros Hs;
      [injection Hs as <-; reflexivity | discriminate].
Qed.

(** C13: the read stream's ['error'] handler (src/index.js:97-99)
    reports the failure and ends the pipeline: while a file source is
    still reading and the caller listens, a read error [e] appends exactly
    ['error'] [e] to [prog], and whatever the libraries deliver
    afterwards, no [POST] is sent. *)
Theorem source_error_blocks_post (w : world (C:=C)) ss p e ins :
  reachable h w -> w_src w = Some ss -> su_src (ss_setup ss) = SrcFile p ->
  ss_ended ss = false -> ss_dead ss = false ->
  w_crash w = None -> listens_error (w_chan w) = true ->
  events (w_chan (deliver h w (ISrcError e))) = events (w_chan w) ++ [EError e] /\
  ~ In KPost (map kind_of (w_net (run h (deliver h w (ISrcError e)) ins))).
Proof.
  intros Hr Hs Hf He Hd Hc Hl. split; [|exact (src_error_no_post w ss e ins Hr Hs He)].
  unfold deliver. rewrite Hc. simpl. rewrite Hs, He, Hd. simpl. rewrite Hf.
  unfold raise. simpl. rewrite upload_error_listening by exact Hl. simpl.
  rewrite emit_events. reflexivity.
Qed.

Lemma in_finished_progress relay smp (c : C) b :
  In (EFinished b) (events (progress relay smp c)) -> In (EFinished b) (events c).
Proof.
  unfold progress. destruct relay; rewrite ?emit_events, ?in_app_iff; simpl;
    intuition discriminate.
Qed.

Lemma deliver_finished_source (w : world (C:=C)) i b :
  In (EFinished b) (events (w_chan (deliver h w i))) ->
  In (EFinished b) (events (w_chan w)) \/ i = IPostReply (HttpResponse 201%Z b).
Proof.
  destruct (deliver_events w i) as [E|[[e E]|[[relay E]|[[b' [Hi [_ E]]]|[v E]]]]];
    rewrite E; intros Hd.
  - left. exact Hd.
  - apply in_app_iff in Hd. simpl in Hd. intuition discriminate.
  - left. eapply in_finished_progress. exact Hd.
  - apply in_app_iff in Hd. simpl in Hd.
    destruct Hd as [Hd|[Hd|[]]]; [left; exact Hd | injection Hd as ->; right; exact Hi].
  - apply in_app_iff in Hd. simpl in Hd. intuition discriminate.
Qed.

Lemma run_finished_source b ins : forall (w : world (C:=C)),
  In (EFinished b) (events (w_chan (run h w ins))) ->
  In (EFinished b) (events (w_chan w)) \/ In (IPostReply (HttpResponse 201%Z b)) ins.
Proof.
  induction ins as [|i ins IH]; simpl; intros w Hin; [left; exact Hin|].
  destruct (IH (deliver h w i) Hin) as [Hd|Hd]; [|right; right; exact Hd].
  destruct (deliver_finished_source w i b Hd); [left | right; left]; auto.
Qed.

(** C11: a ['finished'] event carries the body of a 201 reply to the
    [POST]: in any run of an upload, ['finished'] with body [b] on the
    channel means a 201 reply with body [b] was among the inputs. *)
Theorem finished_needs_201 arg (w0 : world (C:=C)) ins b :
  upload h arg = Returned w0 ->
  In (EFinished b) (events (w_chan (run h w0 ins))) ->
  In (IPostReply (HttpResponse 201%Z b)) ins.
Proof.
  intros Hw Hin. destruct (upload_returned h arg w0 Hw) as (o & _ & ->).
  destruct (run_finished_source b ins _ Hin) as [H0|H0]; [|exact H0].
  simpl in H0. rewrite new_chan_events in H0. destruct H0.
Qed.

(** C22: an ['error'] of a caller-supplied stream reaches nobody: the code
    listens for errors of the file streams it creates, not of
    [opts.stream], so the channel gets no event and the source is dead. *)
Theorem stream_source_error_silent (w : world (C:=C)) ss st e :
  w_crash w = None -> w_src w = Some ss -> su_src (ss_setup ss) = SrcStream st ->
  events (w_chan (deliver h w (ISrcError e))) = events (w_chan w).
Proof.
  intros Hc Hs Hst. unfold deliver. rewrite Hc. simpl. rewrite Hs.
  destruct (negb (ss_ended ss) && negb (ss_dead ss)); [|reflexivity].
  simpl. rewrite Hst. reflexivity.
Qed.

End Host.

End Inv.

(** ** The theorems at the spec's scenarios *)

Lemma scenario_w0_reachable : reachable scenario_host scenario_w0.
Proof. apply (reach_start scenario_host (Some Options.scenario_opts)). vm_compute. reflexivity. Qed.

Lemma finished_alone_witness :
  count_if is_finished (events (w_chan (run scenario_host scenario_w0 success_inputs))) = 1 /\
  existsb is_error (events (w_chan (run scenario_host scenario_w0 success_inputs))) = false /\
  exists body pre post, events (w_chan (run scenario_host scenario_w0 success_inputs)) =
                        pre ++ EFinished body :: post /\ forallb is_length post = true.
Proof.
  apply (finished_alone scenario_host).
  - apply reachable_run, scenario_w0_reachable.
  - vm_compute. reflexivity.
Defined.

Lemma network_order_witness :
  exists n, map kind_of (w_net (run scenario_host scenario_w0 success_inputs)) =
            firstn (S n) [KGet; KS3; KPost].
Proof. apply (network_order scenario_host). apply reachable_run, scenario_w0_reachable. Defined.

(** The spec's third scenario: [upload] throws. *)
(** A map id of another account; scenario 1 with [mapbox: 443], a port
    number where a URL belongs; scenario 1 with [mapbox] a host and port
    without a protocol ([request]: [Invalid protocol: localhost:]) and a
    bare host name ([request]: [Invalid URI]). *)
Lemma upload_throws_iff_witness :
  upload (C:=trace_chan) scenario_host
    (Some (mkOpts (JStr "tiles.mbtiles") JUndefined (JStr "acme") (JStr "tok")
                  (JStr "other.tileset") JUndefined JUndefined JUndefined)) =
    Threw (Error (invalid_mapid_msg "other.tileset" (JStr "acme")) None) /\
  upload (C:=trace_chan) scenario_host
    (Some (mkOpts (JStr "tiles.mbtiles") JUndefined (JStr "acme") (JStr "tok")
                  (JStr "acme.mytileset") JUndefined (JNum 443) JUndefined)) =
    Threw (TypeError "Parameter 'url' must be a string, not number") /\
  upload (C:=trace_chan) scenario_host
    (Some (mkOpts (JStr "tiles.mbtiles") JUndefined (JStr "acme") (JStr "tok")
                  (JStr "acme.mytileset") JUndefined (JStr "localhost:3000") JUndefined)) =
    Threw (Error "Invalid protocol: localhost:" None) /\
  upload (C:=trace_chan) scenario_host
    (Some (mkOpts (JStr "tiles.mbtiles") JUndefined (JStr "acme") (JStr "tok")
                  (JStr "acme.mytileset") JUndefined (JStr "api.tiles.mapbox.com") JUndefined)) =
    Threw (HostError HRequest 0).
Proof.
  split; [|split; [|split]].
  - apply upload_throws_iff. left. eexists. vm_compute. reflexivity.
  - apply upload_throws_iff. right. left. eexists. split; [vm_compute; reflexivity|].
    split; reflexivity.
  - apply upload_throws_iff. right. right. eexists.
    split; [vm_compute; reflexivity|]. split; vm_compute; reflexivity.
  - apply upload_throws_iff. right. right. eexists.
    split; [vm_compute; reflexivity|]. split; vm_compute; reflexivity.
Defined.

Lemma post_needs_uploaded_witness :
  In KPost (map kind_of (w_net (run scenario_host scenario_w0 success_inputs))) /\
  In IUploaded success_inputs.
Proof.
  split; [vm_compute; tauto|].
  apply (post_needs_uploaded scenario_host (Some Options.scenario_opts) scenario_w0);
    [reflexivity | vm_compute; tauto].
Defined.

(** The spec's fourth scenario: the upload stream fails mid-transfer. *)
Lemma upload_stream_error_blocks_post_witness :
  events (w_chan (deliver scenario_host (run scenario_host scenario_w0 (removelast storage_failure_inputs))
                          (IUpError (JStr "socket hang up")))) =
    events (w_chan (run scenario_host scenario_w0 (removelast storage_failure_inputs))) ++
    [EError (Error "socket hang up" None)] /\
  ~ In KPost (map kind_of (w_net (run scenario_host
      (deliver scenario_host (run scenario_host scenario_w0 (removelast storage_failure_inputs))
               (IUpError (JStr "socket hang up"))) success_inputs))).
Proof.
  destruct (upload_stream_error_blocks_post scenario_host
              (run scenario_host scenario_w0 (removelast storage_failure_inputs))
              (JStr "socket hang up") success_inputs) as (He & _ & Hp).
  - apply reachable_run, scenario_w0_reachable.
  - vm_compute. discriminate.
  - reflexivity.
  - reflexivity.
  - split; [exact He | exact Hp].
Defined.

(** The code can emit two ['error'] events on one upload, against the
    spec's single terminal signal: the read stream of the file fails and
    the multipart upload cannot start, each reported by [upload.error]. *)
Theorem two_errors_reachable :
  exists w : world (C:=trace_chan), reachable scenario_host w /\
    count_if is_error (events (w_chan w)) = 2.
Proof.
  exists (run scenario_host scenario_w0 double_failure_inputs). split.
  - apply reachable_run, scenario_w0_reachable.
  - vm_compute. reflexivity.
Qed.

Lemma finished_needs_201_witness :
  In (EFinished scenario_job) (events (w_chan (run scenario_host scenario_w0 success_inputs))) /\
  In (IPostReply (HttpResponse 201%Z scenario_job)) success_inputs.
Proof.
  split; [vm_compute; tauto|].
  apply (finished_needs_201 scenario_host (Some Options.scenario_opts) scenario_w0); [reflexivity|].
  vm_compute. tauto.
Defined.

(** The caller's stream fails once the multipart upload started. *)
Definition stream_started : world (C:=trace_chan) :=
  run scenario_host stream_w0 [IListen; IGetReply (HttpResponse 200%Z (Json scenario_creds))].

Lemma stream_source_error_silent_witness :
  events (w_chan (deliver scenario_host stream_started (ISrcError (HostError HSource 3)))) =
  events (w_chan stream_started).
Proof.
  eapply (stream_source_error_silent scenario_host); cbv; reflexivity.
Defined.


(** Scenario 1 with the file piped to the uploader: a read error, then
    the libraries' remaining events, give no [POST]. *)
Definition file_piped : world (C:=trace_chan) :=
  run scenario_host scenario_w0 (firstn 3 success_inputs).

Lemma source_error_blocks_post_witness :
  events (w_chan (deliver scenario_host file_piped (ISrcError (HostError HFs 5)))) =
    events (w_chan file_piped) ++ [EError (HostError HFs 5)] /\
  ~ In KPost (map kind_of (w_net (run scenario_host
       (deliver scenario_host file_piped (ISrcError (HostError HFs 5))) [ISrcEnd; IUploaded]))).
Proof.
  eapply (source_error_blocks_post scenario_host);
    [apply reachable_run, scenario_w0_reachable | cbv; reflexivity | reflexivity
    | reflexivity | reflexivity | reflexivity | reflexivity].
Defined.

End Safety.
