(* ===== verification/Failure.v ===== *)
(** * Failure: a rejected credentials reply ends the upload

    When the callback of [upload.getcreds] reports an error (a transport
    error, a status other than 200, credentials without [key] or
    [bucket]), [upload] never calls [putfile]: the channel receives that
    one ['error'] and nothing follows it, whatever the libraries deliver
    afterwards.  An [idle] world (no callback registered) is frozen.
    Before the caller listens, an error ends the process instead
    ([quiet]).  In general an ['error'] is the last outcome: every handler
    that reports one leaves a source that can no longer feed [prog]
    ([src_quiet]), so only further errors and the ['length'] of a caller
    stream's listener can follow it ([closed_after]). *)

From Stdlib Require Import String List ZArith Bool Lia.
From S2P Require Import Prelude JsValue Options Channel Http Creds Finalize Putfile Upload Safety.
Import ListNotations.
Import Options Putfile Upload Safety.
Local Open Scope string_scope.

Module Failure.

Section Idle.
Context {C : Type} `{Emitter C}.
Variable h : host_env.

(** No handler that the code registered is still waiting. *)
Definition idle (w : world (C:=C)) : Prop :=
  w_get w = None /\ w_mpu w = None /\ w_src w = None /\ w_up w = None /\ w_post w = false.

Lemma deliver_idle (w : world (C:=C)) i :
  idle w ->
  idle (deliver h w i) /\ w_net (deliver h w i) = w_net w /\
  events (w_chan (deliver h w i)) = events (w_chan w).
Proof.
  intros (Hg & Hm & Hs & Hu & Hp). unfold deliver.
  destruct (w_crash w); [repeat split; assumption|].
  destruct w as [c m net get mpu src up post relay cr]; simpl in *; subst.
  destruct i; simpl; rewrite ?listen_events; repeat split; reflexivity.
Qed.

Lemma run_idle ins : forall (w : world (C:=C)),
  idle w ->
  w_net (run h w ins) = w_net w /\ events (w_chan (run h w ins)) = events (w_chan w).
Proof.
  induction ins as [|i ins IH]; intros w Hw; simpl; [split; reflexivity|].
  destruct (deliver_idle w i Hw) as (Hw' & Hn & He).
  destruct (IH _ Hw') as [Hn' He']. rewrite Hn', He', Hn, He. split; reflexivity.
Qed.

(** C14: a credentials reply the callback rejects ends the upload: the
    channel holds exactly the one ['error'] the callback emitted, and no
    input that follows sends a request or emits an event. *)
Theorem creds_rejected_stops arg (w0 : world (C:=C)) r c' ins :
  upload h arg = Returned w0 ->
  Creds.getcreds_reply r (listen (w_chan w0)) = Ok (c', None) ->
  (exists e, events c' = [EError e]) /\
  w_net (run h w0 (IListen :: IGetReply r :: ins)) = w_net w0 /\
  events (w_chan (run h w0 (IListen :: IGetReply r :: ins))) = events c'.
Proof.
  intros Hu Hr. destruct (upload_returned h arg w0 Hu) as (o & _ & ->).
  simpl in Hr. split.
  { destruct (Creds.getcreds_reply_shape r _ _ None Hr) as [e ->].
    exists e. rewrite emit_events, listen_events, new_chan_events. reflexivity. }
  simpl. unfold deliver. simpl. rewrite Hr. simpl.
  apply run_idle. repeat split.
Qed.

End Idle.

(** The spec's second scenario: the credentials request answered 401. *)
Lemma creds_rejected_stops_witness :
  (exists e, events (emit (EError (Error "Unauthorized" (Some 401%Z))) (listen (C:=trace_chan) new_chan)) =
             [EError e]) /\
  w_net (run scenario_host scenario_w0
           (IListen :: IGetReply (HttpResponse 401%Z (Json (JObj [("message", JStr "Unauthorized")])))
              :: [IMpuReady None; IUploaded; IPostReply (HttpResponse 201%Z scenario_job)])) =
    w_net scenario_w0 /\
  events (w_chan (run scenario_host scenario_w0
           (IListen :: IGetReply (HttpResponse 401%Z (Json (JObj [("message", JStr "Unauthorized")])))
              :: [IMpuReady None; IUploaded; IPostReply (HttpResponse 201%Z scenario_job)]))) =
    events (emit (EError (Error "Unauthorized" (Some 401%Z))) (listen (C:=trace_chan) new_chan)).
Proof.
  apply (creds_rejected_stops scenario_host (Some Options.scenario_opts)); reflexivity.
Defined.


(** ** Errors before the caller listens *)

Section Quiet.
Context {C : Type} `{Emitter C}.

(** A channel nobody listens to for ['error'] carries no ['error']. *)
Definition quiet (c : C) : Prop :=
  listens_error c = false -> existsb is_error (events c) = false.

Lemma quiet_emit ev (c : C) : is_error ev = false -> quiet c -> quiet (emit ev c).
Proof.
  unfold quiet. intros He Hq. rewrite emit_listens, emit_events, existsb_snoc, He.
  intros Hl. rewrite (Hq Hl). reflexivity.
Qed.

Lemma quiet_listen (c : C) : quiet (listen c).
Proof. unfold quiet. rewrite listen_listens. discriminate. Qed.

(** [upload.error] returns only to a listening channel. *)
Lemma upload_error_quiet e (c c' : C) : upload_error e c = Ok c' -> quiet c'.
Proof.
  unfold upload_error, quiet. destruct (listens_error c) eqn:Hl; [|discriminate].
  intros Hr. injection Hr as <-. rewrite emit_listens, Hl. discriminate.
Qed.

Lemma quiet_progress relay smp (c : C) : quiet c -> quiet (progress relay smp c).
Proof. unfold progress. intros Hq. destruct relay; repeat apply quiet_emit; auto. Qed.

#[local] Hint Resolve upload_error_quiet quiet_listen quiet_progress : upload.

(** Opens a handler's outcome and reads each normal return. *)
Ltac quiet_cases :=
  unfold obind; case_ifs; intros Hr Hq; try discriminate;
  try (injection Hr; intros; subst); eauto using quiet_emit with upload.

Lemma getcreds_reply_quiet r (c c' : C) x :
  Creds.getcreds_reply r c = Ok (c', x) -> quiet c -> quiet c'.
Proof. unfold Creds.getcreds_reply, Creds.fail_with. quiet_cases. Qed.

Lemma check_stage_quiet env o creds (c c' : C) :
  Finalize.check_stage env o creds c = Ok (inl c') -> quiet c -> quiet c'.
Proof. unfold Finalize.check_stage. quiet_cases. Qed.

Lemma putfile_send_quiet h o creds (c c' : C) m m' x :
  putfile_send h o creds c m = Ok (c', m', x) -> quiet c -> quiet c'.
Proof.
  unfold putfile_send.
  destruct (Finalize.check_stage (process h) o creds c) as [[c1|[[o' b] k]]|e] eqn:Hs;
    simpl; [| |discriminate].
  - intros Hr Hq. injection Hr; intros; subst. eapply check_stage_quiet; eauto.
  - quiet_cases.
Qed.

Lemma create_upload_send_quiet env o creds (c c' : C) x :
  Finalize.create_upload_send env o creds c = Ok (c', x) -> quiet c -> quiet c'.
Proof.
  unfold Finalize.create_upload_send.
  destruct (Finalize.check_stage env o creds c) as [[c1|[[o' b] k]]|e] eqn:Hs;
    simpl; [| |discriminate]; intros Hr Hq; injection Hr; intros; subst; eauto using check_stage_quiet.
Qed.

Lemma create_upload_reply_quiet r (c c' : C) :
  Finalize.create_upload_reply r c = Ok c' -> quiet c -> quiet c'.
Proof.
  unfold Finalize.create_upload_reply. quiet_cases.
Qed.

Lemma mpu_ready_quiet su err (c c' : C) b :
  mpu_ready su err c = Ok (c', b) -> quiet c -> quiet c'.
Proof. unfold mpu_ready. quiet_cases. Qed.

End Quiet.


Section QuietRun.
Context {C : Type} `{Emitter C}.
Variable h : host_env.

Lemma quiet_deliver (w : world (C:=C)) i : quiet (w_chan w) -> quiet (w_chan (deliver h w i)).
Proof.
  unfold deliver. destruct (w_crash w); [auto|].
  destruct i; simpl; unfold on_creds, after, raise; case_ifs; simpl; intros Hq;
    eauto 6 using quiet_emit, quiet_listen, quiet_progress, upload_error_quiet, getcreds_reply_quiet,
      putfile_send_quiet, create_upload_send_quiet, create_upload_reply_quiet, mpu_ready_quiet.
Qed.

(** In every reachable world whose [prog] has no ['error'] listener no
    ['error'] was emitted. *)
Lemma unlistened_no_error (w : world (C:=C)) :
  reachable h w -> listens_error (w_chan w) = false -> existsb is_error (events (w_chan w)) = false.
Proof.
  intros Hr. revert Hr. induction 1 as [arg w Hw | w i _ IH]; [|apply quiet_deliver; exact IH].
  destruct (upload_returned h arg w Hw) as (o & _ & ->).
  simpl. rewrite new_chan_events. reflexivity.
Qed.

(** C15: before the caller listens for ['error'], every error report ends
    the process: in a reachable world whose [prog] has no ['error']
    listener no ['error'] was emitted, and each handler that reports with
    [upload.error] throws its error out of the callback (Node's rule for
    an unhandled ['error'] event), so the process is gone with that error:
    the credentials callback for every reply it rejects, the upload
    stream's ['error'] handler with [new Error(e || 'Upload to Mapbox.com
    failed')], and the read stream's ['error'] handler of a file source
    still reading. *)
Theorem unlistened_errors_crash (w : world (C:=C)) :
  reachable h w -> listens_error (w_chan w) = false -> w_crash w = None ->
  existsb is_error (events (w_chan w)) = false /\
  (forall r e, w_get w <> None -> (forall c : C, Creds.getcreds_reply r c = Creds.fail_with e c) ->
     w_crash (deliver h w (IGetReply r)) = Some e) /\
  (forall v, w_up w <> None ->
     w_crash (deliver h w (IUpError v)) = Some (Error (js_to_string (js_or v (JStr upload_failed_msg))) None)) /\
  (forall e ss p, w_src w = Some ss -> su_src (ss_setup ss) = SrcFile p ->
     ss_ended ss = false -> ss_dead ss = false ->
     w_crash (deliver h w (ISrcError e)) = Some e).
Proof.
  intros Hr Hl Hc. split; [exact (unlistened_no_error w Hr Hl)|].
  unfold deliver. rewrite Hc. simpl.
  split; [|split].
  - intros r e Hg Hrep. destruct (w_get w); [|congruence].
    rewrite Hrep. unfold Creds.fail_with. rewrite upload_error_deaf by exact Hl. reflexivity.
  - intros v Hu. destruct (w_up w); [|congruence].
    unfold upload_stream_error. rewrite upload_error_deaf by exact Hl. reflexivity.
  - intros e ss p Hs Hf He Hd. rewrite Hs, He, Hd. simpl. rewrite Hf.
    unfold raise. simpl. rewrite upload_error_deaf by exact Hl. reflexivity.
Qed.

End QuietRun.

(** Scenario 2 before the caller listens: the 401 reply crashes the
    process with the error the callback builds, and the channel stays
    without an ['error']. *)
Lemma unlistened_errors_crash_witness :
  w_crash (deliver scenario_host scenario_w0
             (IGetReply (HttpResponse 401%Z (Json (JObj [("message", JStr "Unauthorized")]))))) =
    Some (Error "Unauthorized" (Some 401%Z)).
Proof.
  apply (unlistened_errors_crash scenario_host scenario_w0);
    [apply scenario_w0_reachable | reflexivity | reflexivity | discriminate | reflexivity].
Defined.

(** ** An ['error'] is the last outcome *)

(** What may follow an ['error']: further errors, and the ['length'] of a
    caller stream's listener. *)
Definition after_error_ok (ev : event) : bool := is_error ev || is_length ev.

(** Read left to right: once an error was seen, every event is one that
    may follow it. *)
Fixpoint closed_after (seen : bool) (l : list event) : bool :=
  match l with
  | [] => true
  | ev :: l' => (negb seen || after_error_ok ev) && closed_after (seen || is_error ev) l'
  end.

Lemma closed_after_app seen l1 l2 :
  closed_after seen (l1 ++ l2) = closed_after seen l1 && closed_after (seen || existsb is_error l1) l2.
Proof.
  revert seen. induction l1 as [|ev l1 IH]; intros seen; simpl.
  - rewrite orb_false_r. reflexivity.
  - rewrite IH, orb_assoc. destruct (negb seen || after_error_ok ev); reflexivity.
Qed.

Lemma closed_after_seen l : closed_after true l = forallb after_error_ok l.
Proof. induction l as [|ev l IH]; simpl; rewrite ?IH; reflexivity. Qed.

Lemma closed_after_split pre e post :
  closed_after false (pre ++ EError e :: post) = true -> forallb after_error_ok post = true.
Proof.
  rewrite closed_after_app. intros H. apply andb_prop in H as [_ H].
  simpl in H. rewrite !orb_true_r in H. simpl in H. rewrite closed_after_seen in H. exact H.
Qed.

Section Terminal.
Context {C : Type} `{Emitter C}.
Variable h : host_env.

(** A source that can no longer feed [prog]: unpiped with no uploader
    callback left to pipe it, ended, or failed. *)
Definition src_quiet (w : world (C:=C)) : Prop :=
  match w_src w with
  | None => True
  | Some ss => (ss_piped ss = false /\ w_mpu w = None) \/ ss_ended ss = true \/ ss_dead ss = true
  end.

Definition terminal_inv (w : world (C:=C)) : Prop :=
  (existsb is_error (events (w_chan w)) = true -> src_quiet w) /\
  closed_after false (events (w_chan w)) = true.

Lemma closed_progress relay smp (c : C) :
  closed_after false (events (progress relay smp c)) =
  closed_after false (events c) && negb (existsb is_error (events c)).
Proof.
  unfold progress. destruct relay; rewrite ?emit_events, ?closed_after_app, ?existsb_app; simpl;
    destruct (closed_after false (events c)), (existsb is_error (events c)); reflexivity.
Qed.

Lemma closed_snoc ev (c : C) :
  closed_after false (events c ++ [ev]) =
  closed_after false (events c) && (negb (existsb is_error (events c)) || after_error_ok ev).
Proof.
  rewrite closed_after_app. simpl.
  destruct (closed_after false (events c)), (existsb is_error (events c)), (after_error_ok ev); reflexivity.
Qed.

(** The facts of [inv] on where the source stands. *)
Lemma inv_src_facts (w : world (C:=C)) :
  inv w ->
  (w_get w <> None -> w_src w = None /\ existsb is_error (events (w_chan w)) = false) /\
  (w_mpu w <> None -> src_flag ss_piped w = false) /\
  (w_up w <> None -> w_mpu w = None) /\
  (w_post w = true -> src_flag ss_ended w = true /\ existsb is_error (events (w_chan w)) = false).
Proof.
  intros Hinv. pose proof Hinv as [Hnet Hget Hk0 Hk1 Hk2 _].
  split; [|split; [|split]].
  - intros Hg. destruct (Hget Hg) as [Hk He]. unfold evs in He. rewrite He.
    split; [apply (Hk0 Hk) | reflexivity].
  - intros Hm. destruct (Hk1 (inv_stage_k1 w Hinv (or_introl Hm))) as (_ & _ & _ & _ & Hmu & _).
    apply (Hmu Hm).
  - intros Hu. destruct (Hk1 (inv_stage_k1 w Hinv (or_intror Hu))) as (_ & _ & _ & _ & _ & Hum & _).
    apply (Hum Hu).
  - intros Hp. destruct (Hk2 (post_pending_k2 w Hinv Hp)) as (_ & _ & _ & Hen & Hpost & _).
    destruct (Hpost Hp) as [_ He]. split; assumption.
Qed.

Lemma terminal_deliver (w : world (C:=C)) i :
  inv w -> terminal_inv w -> terminal_inv (deliver h w i).
Proof.
  intros Hinv [Hq Hc]. destruct (inv_src_facts w Hinv) as (F1 & F2 & F3 & F4). clear Hinv.
  unfold terminal_inv, deliver. destruct (w_crash w) eqn:Hcr; [split; assumption|].
  destruct w as [c m net get mpu src up post relay cr]; unfold src_quiet, src_flag in *; simpl in *.
  destruct i; simpl; unfold on_creds, after, raise, unpipe; case_ifs; simpl in *; inj_some;
    handler_shapes; simpl in *;
    rewrite ?emit_events, ?listen_events, ?closed_progress, ?closed_snoc, ?existsb_progress_error,
      ?existsb_snoc in *; simpl in *.
  all: rewrite ?Hc, ?orb_false_r in *;
    destruct (existsb is_error (events c)) eqn:E; simpl;
    [specialize (Hq eq_refl) | clear Hq];
    repeat match goal with Hb : _ && _ = true |- _ => apply andb_prop in Hb; destruct Hb end;
    rewrite ?negb_true_iff in *;
    intuition (try congruence; try discriminate).
Qed.

Lemma terminal_reachable (w : world (C:=C)) : reachable h w -> terminal_inv w.
Proof.
  induction 1 as [arg w Hw | w i Hr IH].
  - destruct (upload_returned h arg w Hw) as (o & _ & ->).
    unfold terminal_inv, src_quiet. simpl. rewrite new_chan_events. split; reflexivity.
  - apply terminal_deliver; [apply (inv_reachable h w Hr) | exact IH].
Qed.

(** C2: an ['error'] is the last outcome the upload reports: in every
    reachable world, the events that follow an ['error'] on [prog] are
    further ['error'] events or the ['length'] of a caller stream's
    listener, never a ['progress'], ['stats'] or ['finished'].  Each
    handler that reports an error leaves a source that can no longer
    feed [prog] (unpiped, ended or failed), and the [POST] callback only
    exists while no error was emitted. *)
Theorem error_is_terminal (w : world (C:=C)) pre e post :
  reachable h w -> events (w_chan w) = (pre ++ EError e :: post)%list ->
  forallb after_error_ok post = true.
Proof.
  intros Hr He. destruct (terminal_reachable w Hr) as [_ Hc].
  rewrite He in Hc. exact (closed_after_split pre e post Hc).
Qed.

End Terminal.

(** The double failure: the read stream's error, then the uploader's. *)
Lemma error_is_terminal_witness :
  events (w_chan (run scenario_host scenario_w0 double_failure_inputs)) =
    ([ELength (JNum 1000)] ++ EError (HostError HFs 1) :: [EError (HostError HS3 2)])%list /\
  forallb after_error_ok [EError (HostError HS3 2)] = true.
Proof.
  split; [vm_compute; reflexivity|].
  apply (error_is_terminal scenario_host (run scenario_host scenario_w0 double_failure_inputs)
           [ELength (JNum 1000)] (HostError HFs 1));
    [apply reachable_run, scenario_w0_reachable | vm_compute; reflexivity].
Defined.

End Failure.
