(* ===== verification/Consistency.v ===== *)
(** * Consistency: the object registered is the object uploaded

    [putfile] uploads to the bucket and key of the credentials
    (src/index.js:114-119), and [createUpload] registers the URL
    [http://<bucket>.s3.amazonaws.com/<key>] built from the same
    credentials (src/index.js:146).  The two stages read the credentials
    separately, through the closures of the callbacks; this file shows
    that they agree: in every reachable world, each [POST] names the
    bucket and key of an S3 upload that was started. *)

From Stdlib Require Import String List ZArith Bool Lia.
From S2P Require Import Prelude JsValue Options Channel Http Creds Finalize Putfile Upload Safety.
Import ListNotations.
Import Options Putfile Upload Safety.

Module Consistency.

(** A property read without an exception is [prop_or_undef]. *)
Lemma get_prop_ok v name x : get_prop v name = Ok x -> x = prop_or_undef v name.
Proof.
  unfold get_prop, prop_or_undef. destruct v; try discriminate; try (intros H; injection H; auto).
  destruct (assoc_last name props); intros H; injection H; auto.
Qed.

Section Stages.
Context {C : Type} `{Emitter C}.

(** The bucket and key the re-checks pass on are the credentials'. *)
Lemma check_stage_inr env o creds (c : C) o' b k :
  Finalize.check_stage env o creds c = Ok (inr (o', b, k)) ->
  b = prop_or_undef creds "bucket" /\ k = prop_or_undef creds "key".
Proof.
  unfold Finalize.check_stage.
  destruct (snd (upload_opts env (Some o))) as [o1|e]; simpl;
    [|destruct (upload_error e c); discriminate].
  destruct (get_prop creds "key") as [k1|e] eqn:Hk; simpl; [|discriminate].
  destruct (negb (truthy k1)); [destruct (upload_error _ c); discriminate|].
  destruct (get_prop creds "bucket") as [b1|e] eqn:Hb; simpl; [|discriminate].
  destruct (negb (truthy b1)); [destruct (upload_error _ c); discriminate|].
  intros Hr. injection Hr; intros; subst. split; eapply get_prop_ok; eassumption.
Qed.

Lemma create_upload_send_some env o creds (c c' : C) rq :
  Finalize.create_upload_send env o creds c = Ok (c', Some rq) ->
  exists o', rq = Finalize.create_request o' (prop_or_undef creds "bucket") (prop_or_undef creds "key").
Proof.
  unfold Finalize.create_upload_send.
  destruct (Finalize.check_stage env o creds c) as [[c1|[[o' b] k]]|e] eqn:Hs; simpl;
    try discriminate.
  intros Hr. injection Hr; intros; subst.
  destruct (check_stage_inr _ _ _ _ _ _ _ Hs) as [-> ->]. eauto.
Qed.

Lemma putfile_send_some h o creds (c : C) m c' m' su :
  putfile_send h o creds c m = Ok (c', m', Some su) ->
  su_creds su = creds /\
  su_s3 su = s3_params_of creds (prop_or_undef creds "bucket") (prop_or_undef creds "key").
Proof.
  unfold putfile_send.
  destruct (Finalize.check_stage (process h) o creds c) as [[c1|[[o' b] k]]|e] eqn:Hs; simpl;
    try discriminate.
  destruct (check_stage_inr _ _ _ _ _ _ _ Hs) as [-> ->].
  repeat match goal with
         | |- context [if ?t then _ else _] => destruct t
         | |- context [match file o' with _ => _ end] => destruct (file o')
         | |- context [match fs_size h ?p with _ => _ end] => destruct (fs_size h p)
         | |- context [upload_error ?e ?c] => destruct (upload_error e c)
         end; simpl; intros Hr; try discriminate; injection Hr; intros; subst; auto.
Qed.

End Stages.

Section Inv.
Context {C : Type} `{Emitter C}.
Variable h : host_env.

(** The S3 parameters of a setup name the bucket and key of its
    credentials. *)
Definition setup_ok (su : setup) : Prop :=
  s3_bucket (su_s3 su) = prop_or_undef (su_creds su) "bucket" /\
  s3_key (su_s3 su) = prop_or_undef (su_creds su) "key".

(** A setup some closure of the world holds: the uploader callback, the
    upload stream's listeners, the byte source. *)
Definition has_setup (w : world (C:=C)) (su : setup) : Prop :=
  w_mpu w = Some su \/ w_up w = Some su \/ option_map ss_setup (w_src w) = Some su.

Record cinv (w : world (C:=C)) : Prop := {
  c_setup : forall su, has_setup w su -> setup_ok su /\ In (NetS3 (su_s3 su)) (w_net w);
  c_post : forall rq, In (NetPost rq) (w_net w) ->
    exists o p, In (NetS3 p) (w_net w) /\ rq = Finalize.create_request o (s3_bucket p) (s3_key p)
}.

(** The setups after an input: those before, or the one [putfile] just
    created, whose S3 upload was just started. *)
Lemma deliver_setups (w : world (C:=C)) i su :
  has_setup (deliver h w i) su ->
  has_setup w su \/
  ((exists o creds c m c' m', putfile_send h o creds c m = Ok (c', m', Some su)) /\
   w_net (deliver h w i) = w_net w ++ [NetS3 (su_s3 su)]).
Proof.
  unfold deliver. destruct (w_crash w); [auto|].
  destruct w as [c m net get mpu src up post relay cr]; unfold has_setup; simpl.
  destruct i; simpl; unfold on_creds, after, raise, unpipe; case_ifs; simpl; subst;
    intros Hs; simpl in *; intuition (inj_some; simpl in *; try congruence; eauto 10).
Qed.

(** The [POST]s after an input: those before, or the one [createUpload]
    sends from the upload stream's ['uploaded'] handler. *)
Lemma deliver_posts (w : world (C:=C)) i rq :
  In (NetPost rq) (w_net (deliver h w i)) ->
  In (NetPost rq) (w_net w) \/
  exists su c c', w_up w = Some su /\
    Finalize.create_upload_send (process h) (su_opts su) (su_creds su) c = Ok (c', Some rq).
Proof.
  unfold deliver. destruct (w_crash w); [auto|].
  destruct w as [c m net get mpu src up post relay cr]; simpl.
  destruct i; simpl; unfold on_creds, after, raise, unpipe; case_ifs; simpl; subst;
    intros Hs; rewrite ?in_app_iff in Hs; simpl in *;
    intuition (inj_some;
               try match goal with Hn : NetPost _ = NetPost _ |- _ => injection Hn as Hn; subst end;
               try congruence; eauto 10).
Qed.

Lemma deliver_prefix (w : world (C:=C)) i : exists extra, w_net (deliver h w i) = w_net w ++ extra.
Proof.
  destruct (deliver_net h w i) as [E|[[p E]|[_ [rq E]]]]; rewrite E; eauto using app_nil_r.
Qed.

Lemma cinv_deliver (w : world (C:=C)) i : cinv w -> cinv (deliver h w i).
Proof.
  intros [Hs Hp]. destruct (deliver_prefix w i) as [extra He]. constructor.
  - intros su Hsu.
    destruct (deliver_setups w i su Hsu) as [Ho|[(o & creds & c & m & c' & m' & Hpf) Hn]].
    + destruct (Hs su Ho) as [Hok Hin]. rewrite He. split; [exact Hok | apply in_or_app; left; exact Hin].
    + destruct (putfile_send_some _ _ _ _ _ _ _ _ Hpf) as [Hc Hs3].
      unfold setup_ok. rewrite Hn, Hs3, Hc. simpl.
      split; [split; reflexivity | apply in_or_app; right; left; reflexivity].
  - intros rq Hrq. rewrite He.
    destruct (deliver_posts w i rq Hrq) as [Ho|(su & c & c' & Hu & Hc)].
    + destruct (Hp rq Ho) as (o & p & Hin & ->).
      exists o, p. split; [apply in_or_app; left; exact Hin | reflexivity].
    + destruct (Hs su (or_intror (or_introl Hu))) as [[Hb Hk] Hin].
      destruct (create_upload_send_some _ _ _ _ _ _ Hc) as [o' ->].
      exists o', (su_s3 su). rewrite Hb, Hk. split; [apply in_or_app; left; exact Hin | reflexivity].
Qed.

Lemma cinv_reachable (w : world (C:=C)) : reachable h w -> cinv w.
Proof.
  induction 1 as [arg w Hw | w i _ IH]; [|apply cinv_deliver, IH].
  destruct (upload_returned h arg w Hw) as (o & _ & ->).
  constructor; simpl.
  - intros su [Hs|[Hs|Hs]]; discriminate.
  - intros rq [Hrq|[]]. discriminate.
Qed.

(** C9: the object registered is the object uploaded: in every reachable
    world, each [POST] to the uploads API carries the URL
    [http://<bucket>.s3.amazonaws.com/<key>] of the bucket and key of an
    S3 upload that was started, as [createUpload] builds it. *)
Theorem post_names_uploaded_object (w : world (C:=C)) rq :
  reachable h w -> In (NetPost rq) (w_net w) ->
  exists p o, In (NetS3 p) (w_net w) /\
    rq = Finalize.create_request o (s3_bucket p) (s3_key p) /\
    rq_json rq = Some (JObj [("id"%string, mapid o);
                             ("url"%string, JStr (Finalize.s3_url (s3_bucket p) (s3_key p)));
                             ("data"%string, mapid o)]).
Proof.
  intros Hr Hin. destruct (c_post _ (cinv_reachable w Hr) rq Hin) as (o & p & Hp & ->).
  exists p, o. auto.
Qed.

End Inv.

(** Scenario 1 run to the end: the [POST] names bucket [b1], key [k1]. *)
Lemma post_names_uploaded_object_witness :
  exists p o, In (NetS3 p) (w_net (run scenario_host scenario_w0 success_inputs)) /\
    Finalize.create_request scenario_o (JStr "b1") (JStr "k1") =
      Finalize.create_request o (s3_bucket p) (s3_key p) /\
    rq_json (Finalize.create_request scenario_o (JStr "b1") (JStr "k1")) =
      Some (JObj [("id"%string, mapid o); ("url"%string, JStr (Finalize.s3_url (s3_bucket p) (s3_key p)));
                  ("data"%string, mapid o)]).
Proof.
  apply (post_names_uploaded_object scenario_host);
    [apply reachable_run, scenario_w0_reachable | vm_compute; auto].
Defined.

End Consistency.
