(* ===== verification/Bounds.v ===== *)
(** * Bounds: at most two ['error'] events per upload

    The spec promises one terminal signal; [Safety.two_errors_reachable]
    shows two ['error'] events in one run.  This file shows that two is
    the most: every ['error'] consumes a callback that could still report
    one (the credentials callback, the uploader callback, the upload
    stream's listeners, a live file stream, the [POST] callback), and at
    most two of them are ever pending at once, with no error emitted yet
    when two are. *)

From Stdlib Require Import String List ZArith Bool Lia.
From S2P Require Import Prelude JsValue Options Channel Http Creds Finalize Putfile Upload Safety.
Import ListNotations.
Import Options Putfile Upload Safety.

Module Bounds.

Definition present {A} (o : option A) : nat := match o with Some _ => 1 | None => 0 end.

(** A byte source that may still report an ['error'] on [prog]: a file
    stream neither ended nor failed. *)
Definition src_pending (s : option src_state) : nat :=
  match s with
  | Some ss =>
      if ss_ended ss || ss_dead ss then 0
      else match su_src (ss_setup ss) with SrcFile _ => 1 | SrcStream _ => 0 end
  | None => 0
  end.

Section Budget.
Context {C : Type} `{Emitter C}.

(** The callbacks still able to emit an ['error']. *)
Definition pending (w : world (C:=C)) : nat :=
  present (w_get w) + present (w_mpu w) + present (w_up w) + src_pending (w_src w) +
  (if w_post w then 1 else 0).

Definition errors (w : world (C:=C)) : nat := count_if is_error (events (w_chan w)).

(** The facts of [inv] the count needs, on the fields of a world. *)
Lemma inv_budget_facts (w : world (C:=C)) :
  inv w ->
  (w_get w <> None -> errors w = 0 /\ w_mpu w = None /\ w_src w = None /\ w_up w = None /\
                      w_post w = false) /\
  (w_mpu w <> None -> w_up w = None /\ w_post w = false) /\
  (w_up w <> None -> w_post w = false).
Proof.
  intros Hinv. pose proof Hinv as [_ Hget Hk0 Hk1 _ _].
  split; [|split].
  - intros Hg. destruct (Hget Hg) as [Hk He]. destruct (Hk0 Hk) as (Hm & Hs & Hu & Hp & _).
    unfold errors. unfold evs in He. rewrite He. auto.
  - intros Hm. destruct (Hk1 (inv_stage_k1 w Hinv (or_introl Hm))) as (_ & Hp & _ & _ & Hmu & _).
    destruct (Hmu Hm) as (Hu & _). auto.
  - intros Hu. destruct (Hk1 (inv_stage_k1 w Hinv (or_intror Hu))) as (_ & Hp & _). exact Hp.
Qed.

Lemma count_error_progress relay smp (c : C) :
  count_if is_error (events (progress relay smp c)) = count_if is_error (events c).
Proof.
  unfold progress. destruct relay;
    rewrite ?emit_events, ?count_if_app, ?count_if_cons, ?count_if_nil; cbn [is_error]; lia.
Qed.

End Budget.


Section Run.
Context {C : Type} `{Emitter C}.
Variable h : host_env.

(** Uses the facts of [inv] whose premise a case analysis settled. *)
Ltac use_facts :=
  repeat match goal with
         | F : Some _ <> None -> _ |- _ => specialize (F ltac:(discriminate))
         | F : None <> None -> _ |- _ => clear F
         | F : _ /\ _ |- _ => destruct F
         end; subst.

Lemma budget_deliver (w : world (C:=C)) i :
  inv w -> errors w + pending w <= 2 -> errors (deliver h w i) + pending (deliver h w i) <= 2.
Proof.
  intros Hinv Hb. destruct (inv_budget_facts w Hinv) as (F1 & F2 & F3). clear Hinv.
  unfold deliver. destruct (w_crash w) eqn:Hc; [exact Hb|].
  destruct w as [c m net get mpu src up post relay cr]; unfold errors, pending in *; simpl in *.
  destruct i; simpl; unfold on_creds, after, raise, unpipe; case_ifs; simpl in *; handler_shapes;
    use_facts; simpl in *;
    rewrite ?emit_events, ?listen_events, ?count_error_progress, ?count_if_app, ?count_if_cons,
      ?count_if_nil in *; cbn [is_error] in *; try lia.
  all: inj_some; simpl in *;
    repeat match goal with
           | H : context [match ?x with SrcFile _ => _ | SrcStream _ => _ end] |- _ => destruct x
           | |- context [match ?x with SrcFile _ => _ | SrcStream _ => _ end] => destruct x
           | H : context [ss_ended ?s] |- _ => destruct (ss_ended s)
           | H : context [ss_dead ?s] |- _ => destruct (ss_dead s)
           end; simpl in *; try discriminate; lia.
Qed.

Lemma budget_reachable (w : world (C:=C)) : reachable h w -> errors w + pending w <= 2.
Proof.
  induction 1 as [arg w Hw | w i Hr IH]; [|apply budget_deliver; [apply (inv_reachable h)|]; assumption].
  destruct (upload_returned h arg w Hw) as (o & _ & ->).
  unfold errors, pending. simpl. rewrite new_chan_events. simpl. lia.
Qed.

(** C21: one upload emits at most two ['error'] events on [prog]: each
    error uses up a callback that could report one, and at most two are
    pending at once ([two_errors_reachable] shows the bound is reached). *)
Theorem errors_at_most_two (w : world (C:=C)) :
  reachable h w -> count_if is_error (events (w_chan w)) <= 2.
Proof. intros Hr. pose proof (budget_reachable w Hr). unfold errors in *. lia. Qed.

End Run.

(** The double failure of [Safety]: two errors, the most there can be. *)
Lemma errors_at_most_two_witness :
  count_if is_error (events (w_chan (run scenario_host scenario_w0 double_failure_inputs))) = 2 /\
  count_if is_error (events (w_chan (run scenario_host scenario_w0 double_failure_inputs))) <= 2.
Proof.
  split; [vm_compute; reflexivity|].
  apply (errors_at_most_two scenario_host). apply reachable_run, scenario_w0_reachable.
Defined.

End Bounds.
