(* ===== verification/Typing.v ===== *)
(** * Typing: what the closures of the callbacks hold

    The callbacks of [putfile] and [createUpload] read [opts.file],
    [opts.stream], [creds.bucket] and [creds.key] without checking them
    again: they rely on what [upload.opts] and the re-checks of
    src/index.js:79-85 established when the closure was made.  This file
    states that as a typing invariant of the orchestrator: in every
    reachable world the credentials callback holds options [upload.opts]
    accepted, and every setup a closure holds has accepted options,
    credentials with a truthy [key] and [bucket], and the byte source the
    options name. *)

From Stdlib Require Import String List ZArith Bool Lia.
From S2P Require Import Prelude JsValue Options Channel Http Creds Finalize Putfile Upload.
From S2P Require Import Safety Consistency.
Import ListNotations.
Import Options Putfile Upload Safety Consistency.

Module Typing.

(** The source of a setup is the one its options name. *)
Definition source_ok (o : opts) (src : source) : Prop :=
  match src with
  | SrcFile p => truthy (stream o) = false /\ file o = JStr p /\ truthy (file o) = true
  | SrcStream st => truthy (stream o) = true /\ st = stream o
  end.

(** The type of a setup captured by a closure. *)
Definition setup_typed (su : setup) : Prop :=
  valid_opts (su_opts su) /\ Creds.creds_ok (su_creds su) = true /\ source_ok (su_opts su) (su_src su).

Section Typed.
Context {C : Type} `{Emitter C}.

Definition typed (w : world (C:=C)) : Prop :=
  (forall o, w_get w = Some o -> valid_opts o) /\
  (forall su, has_setup w su -> setup_typed su).

(** The re-checks pass only on accepted options and credentials. *)
Lemma check_stage_typed env o creds (c : C) o' b k :
  Finalize.check_stage env o creds c = Ok (inr (o', b, k)) ->
  valid_opts o' /\ Creds.creds_ok creds = true.
Proof.
  unfold Finalize.check_stage.
  destruct (upload_opts env (Some o)) as [o1 r] eqn:Ho. simpl.
  destruct r as [o2|e]; simpl; [|destruct (upload_error e c); discriminate].
  destruct (get_prop creds "key") as [k1|e] eqn:Hk; simpl; [|discriminate].
  destruct (truthy k1) eqn:Htk; simpl; [|destruct (upload_error _ c); discriminate].
  destruct (get_prop creds "bucket") as [b1|e] eqn:Hb; simpl; [|discriminate].
  destruct (truthy b1) eqn:Htb; simpl; [|destruct (upload_error _ c); discriminate].
  intros Hr. injection Hr; intros; subst.
  destruct (upload_opts_ok _ _ _ _ Ho) as [-> Hv]. split; [exact Hv|].
  apply get_prop_ok in Hk, Hb. subst.
  destruct creds; try discriminate. unfold Creds.creds_ok. rewrite Htk, Htb. reflexivity.
Qed.

Lemma putfile_send_typed h o creds (c : C) m c' m' su :
  putfile_send h o creds c m = Ok (c', m', Some su) -> setup_typed su.
Proof.
  unfold putfile_send.
  destruct (Finalize.check_stage (process h) o creds c) as [[c1|[[o' b] k]]|e] eqn:Hs; simpl;
    try discriminate.
  destruct (check_stage_typed _ _ _ _ _ _ _ Hs) as [Hv Hc].
  unfold setup_typed, source_ok.
  destruct (truthy (stream o')) eqn:Hst.
  - repeat match goal with
           | |- context [if ?t then _ else _] => destruct t
           | |- context [upload_error ?e ?c] => destruct (upload_error e c)
           end; simpl; intros Hr; try discriminate; injection Hr; intros; subst; simpl; auto.
  - destruct (file o') as [| | | |p| | |] eqn:Hf;
      try (destruct (upload_error _ c); simpl; discriminate).
    destruct (negb (truthy (JStr p))) eqn:Ht; [destruct (upload_error _ c); simpl; discriminate|].
    destruct (fs_size h p); [|discriminate].
    intros Hr. injection Hr; intros; subst; simpl.
    rewrite Hf. apply negb_false_iff in Ht. auto.
Qed.

(** An input never registers a new credentials callback. *)
Lemma deliver_get h (w : world (C:=C)) i :
  w_get (deliver h w i) = w_get w \/ w_get (deliver h w i) = None.
Proof.
  unfold deliver. destruct (w_crash w); [auto|].
  destruct i; simpl; unfold on_creds, after, raise; case_ifs; simpl; auto.
Qed.

Lemma typed_deliver h (w : world (C:=C)) i : typed w -> typed (deliver h w i).
Proof.
  intros [Hg Hs]. split.
  - intros o Ho. destruct (deliver_get h w i) as [E|E]; rewrite E in Ho; [exact (Hg o Ho)|discriminate].
  - intros su Hsu.
    destruct (deliver_setups h w i su Hsu) as [Ho|[(o & creds & c & m & c' & m' & Hp) _]].
    + exact (Hs su Ho).
    + eapply putfile_send_typed. exact Hp.
Qed.

Variable h : host_env.

(** C10: the closures are well typed: in every reachable world the
    options held by the credentials callback passed [upload.opts], and
    every setup held by the uploader callback, the upload stream's
    listeners or the byte source has accepted options, credentials with a
    truthy [key] and [bucket], and the source its options name. *)
Theorem closures_well_typed (w : world (C:=C)) :
  reachable h w ->
  (forall o, w_get w = Some o -> valid_opts o) /\ (forall su, has_setup w su -> setup_typed su).
Proof.
  induction 1 as [arg w Hw | w i _ IH]; [|apply typed_deliver, IH].
  destruct (upload_returned h arg w Hw) as (o & Ho & ->). split; simpl.
  - intros o' Ho'. injection Ho' as <-. exact (proj2 (upload_opts_ok _ _ _ _ Ho)).
  - intros su [Hs|[Hs|Hs]]; discriminate.
Qed.

End Typed.

(** Scenario 1 with the file piped to the uploader. *)
Lemma closures_well_typed_witness :
  (forall o, w_get (file_piped) = Some o -> valid_opts o) /\
  (forall su, has_setup file_piped su -> setup_typed su).
Proof. apply (closures_well_typed scenario_host). apply reachable_run, scenario_w0_reachable. Defined.

End Typing.
