(* ===== verification/Refinement.v ===== *)
(** * Refinement: the orchestrator implements the spec's stage machine

    The spec describes one upload as the machine
    [Init -> Validated -> CredentialsAcquired -> Stored -> Finalized], with
    [Failed] reachable from every state that is not terminal.  [phase_of]
    reads that state off a [world]: [Failed] once an ['error'] was emitted
    or a callback threw, [Finalized] once ['finished'] was emitted, and
    otherwise the last network call made (credentials [GET]: validated;
    S3 upload: credentials acquired; [POST]: stored).  Every input either
    leaves the phase alone or makes one step of the machine. *)

From Stdlib Require Import String List ZArith Bool Lia Relation_Operators.
From S2P Require Import Prelude JsValue Options Channel Http Creds Finalize Putfile Upload Safety.
Import ListNotations.
Import Options Putfile Upload Safety.

Module Refinement.

Inductive phase : Type :=
| Init | Validated | CredentialsAcquired | Stored | Finalized | Failed.

Definition terminal (p : phase) : bool :=
  match p with Finalized | Failed => true | _ => false end.

(** The spec's transitions, src-independent. *)
Inductive astep : phase -> phase -> Prop :=
| AValidate : astep Init Validated
| ACreds : astep Validated CredentialsAcquired
| AStore : astep CredentialsAcquired Stored
| AFinalize : astep Stored Finalized
| AFail p : terminal p = false -> astep p Failed.

Section Abs.
Context {C : Type} `{Emitter C}.

Definition crashed (w : world (C:=C)) : bool :=
  match w_crash w with Some _ => true | None => false end.

Definition phase_of (w : world (C:=C)) : phase :=
  if existsb is_error (events (w_chan w)) || crashed w then Failed
  else if existsb is_finished (events (w_chan w)) then Finalized
  else match map kind_of (w_net w) with
       | [KGet] => Validated
       | [KGet; KS3] => CredentialsAcquired
       | [KGet; KS3; KPost] => Stored
       | _ => Init
       end.

(** The outcome of the call [upload(opts)] as a phase. *)
Definition phase_of_call (r : call_result (C:=C)) : phase :=
  match r with Returned w => phase_of w | Threw _ => Failed end.

Section Host.
Variable h : host_env.

(** After ['finished'] nothing the libraries deliver has a handler left
    that throws or emits, but the ['length'] listener of a caller stream. *)
Lemma finalized_frozen (w : world (C:=C)) i :
  inv w -> existsb is_finished (events (w_chan w)) = true -> w_crash w = None ->
  (exists added, events (w_chan (deliver h w i)) = events (w_chan w) ++ added /\
                 existsb is_error added = false) /\
  w_crash (deliver h w i) = None.
Proof.
  intros [Hnet _ Hk0 Hk1 Hk2 _] Hf Hc.
  change (hfin w = true) in Hf.
  assert (Hk : kinds w = K2).
  { destruct Hnet as [Hk|[Hk|Hk]]; [| |exact Hk].
    - destruct (Hk0 Hk) as (_ & _ & _ & _ & Hf'). congruence.
    - destruct (Hk1 Hk) as (_ & _ & Hf' & _). congruence. }
  destruct (Hk2 Hk) as (Hg & Hm & Hu & Hen & _ & Hfin).
  destruct (Hfin Hf) as (Hp & _).
  unfold src_flag in Hen. destruct (w_src w) as [ss|] eqn:Hs; [|discriminate].
  unfold deliver. rewrite Hc.
  destruct i; simpl; rewrite ?Hg, ?Hm, ?Hu, ?Hp, ?Hs, ?Hen; simpl; rewrite ?andb_false_r;
    try solve [split; [exists []; rewrite app_nil_r; split; reflexivity | simpl; first [reflexivity | exact Hc]]].
  - rewrite listen_events. split; [exists []; rewrite app_nil_r; split; reflexivity | simpl; first [reflexivity | exact Hc]].
  - destruct (su_length_listener (ss_setup ss)); simpl.
    + rewrite emit_events. split; [exists [ELength v]; split; reflexivity | simpl; first [reflexivity | exact Hc]].
    + split; [exists []; rewrite app_nil_r; split; reflexivity | simpl; first [reflexivity | exact Hc]].
Qed.

(** Events only grow. *)
Lemma deliver_events_prefix (w : world (C:=C)) i :
  exists added, events (w_chan (deliver h w i)) = events (w_chan w) ++ added.
Proof.
  destruct (deliver_events h w i) as [E|[[e E]|[[relay E]|[[b [_ [_ E]]]|[v E]]]]];
    rewrite E; eauto using app_nil_r.
  unfold progress. destruct relay; rewrite ?emit_events, <- ?app_assoc; eauto.
Qed.

Lemma existsb_prefix {A} (p : A -> bool) l added :
  existsb p l = true -> existsb p (l ++ added) = true.
Proof. rewrite existsb_app. intros ->. reflexivity. Qed.

(** The network calls of a world satisfying [inv], as a phase. *)
Lemma phase_of_kinds (w : world (C:=C)) :
  existsb is_error (events (w_chan w)) = false -> crashed w = false ->
  existsb is_finished (events (w_chan w)) = false ->
  phase_of w = match kinds w with
               | [KGet] => Validated
               | [KGet; KS3] => CredentialsAcquired
               | [KGet; KS3; KPost] => Stored
               | _ => Init
               end.
Proof. intros He Hc Hf. unfold phase_of. rewrite He, Hc, Hf. reflexivity. Qed.

Lemma phase_nonterminal (w : world (C:=C)) :
  existsb is_error (events (w_chan w)) = false -> crashed w = false ->
  existsb is_finished (events (w_chan w)) = false -> terminal (phase_of w) = false.
Proof.
  intros He Hc Hf. rewrite (phase_of_kinds w He Hc Hf).
  destruct (kinds w) as [|[] [|[] [|[] []]]]; reflexivity.
Qed.

(** One input moves the phase along [astep] or not at all. *)
Lemma phase_step (w : world (C:=C)) i :
  reachable h w ->
  phase_of (deliver h w i) = phase_of w \/ astep (phase_of w) (phase_of (deliver h w i)).
Proof.
  intros Hr.
  pose proof (inv_reachable h w Hr) as Hinv.
  pose proof (inv_reachable h _ (reach_step h w i Hr)) as Hinv'.
  destruct (w_crash w) eqn:Hc.
  { left. unfold deliver. rewrite Hc. reflexivity. }
  destruct (deliver_events_prefix w i) as [added Hadd].
  destruct (existsb is_error (events (w_chan w))) eqn:He.
  { left. unfold phase_of. rewrite Hadd, (existsb_prefix _ _ _ He), He. reflexivity. }
  destruct (existsb is_finished (events (w_chan w))) eqn:Hf.
  { destruct (finalized_frozen w i Hinv Hf Hc) as [(added' & E & Ha) Hc'].
    left. unfold phase_of, crashed. rewrite E, Hc', Hc, !existsb_app, He, Hf, Ha. reflexivity. }
  assert (Hcw : crashed w = false) by (unfold crashed; rewrite Hc; reflexivity).
  pose proof (phase_nonterminal w He Hcw Hf) as Hnt.
  destruct (existsb is_error (events (w_chan (deliver h w i))) || crashed (deliver h w i)) eqn:Hfail.
  { right. unfold phase_of at 2. rewrite Hfail. apply AFail. exact Hnt. }
  apply orb_false_iff in Hfail. destruct Hfail as [He' Hc'].
  destruct (existsb is_finished (events (w_chan (deliver h w i)))) eqn:Hf'.
  - (* the POST reply's 'finished' *)
    right. unfold phase_of at 2. rewrite He', Hc', Hf'. simpl.
    destruct (deliver_events h w i) as [E|[[e E]|[[relay E]|[[b [-> [Hp E]]]|[v E]]]]].
    + rewrite E, Hf in Hf'. discriminate.
    + rewrite E, existsb_snoc, He in He'. discriminate.
    + rewrite E, existsb_progress_finished, Hf in Hf'. discriminate.
    + rewrite (phase_of_kinds w He Hcw Hf), (post_pending_k2 w Hinv Hp). apply AFinalize.
    + rewrite E, existsb_snoc, Hf in Hf'. discriminate.
  - rewrite (phase_of_kinds w He Hcw Hf), (phase_of_kinds _ He' Hc' Hf').
    destruct Hinv as [Hnet _ _ _ _ _]. destruct Hinv' as [Hnet' _ _ _ _ _].
    unfold kinds, K0, K1, K2 in *.
    destruct (deliver_net h w i) as [E|[[p E]|[_ [rq E]]]]; rewrite E in *;
      [left; reflexivity | right | right]; rewrite map_app in *; simpl in Hnet';
      destruct Hnet as [Hk|[Hk|Hk]]; rewrite Hk in *; simpl in *;
      try (destruct Hnet' as [Hk'|[Hk'|Hk']]; discriminate);
      constructor.
Qed.

(** C4: the orchestrator refines the spec's stage machine: in a reachable
    world every input leaves the phase as it is or makes one transition
    of [astep] (a stage succeeding, or a failure of a stage that has not
    ended). *)
Theorem deliver_refines (w : world (C:=C)) i :
  reachable h w ->
  phase_of (deliver h w i) = phase_of w \/ astep (phase_of w) (phase_of (deliver h w i)).
Proof. apply phase_step. Qed.

(** The call [upload(opts)] itself is one step out of [Init]: to
    [Validated] when it returns [prog], to [Failed] when it throws. *)
Lemma upload_refines arg : astep Init (phase_of_call (upload (C:=C) h arg)).
Proof.
  destruct (upload h arg) as [w|e] eqn:Hu; simpl; [|apply AFail; reflexivity].
  destruct (upload_returned h arg w Hu) as (o & _ & ->).
  unfold phase_of, crashed. simpl. rewrite new_chan_events. simpl. apply AValidate.
Qed.

(** C5: the orchestrator refines the spec's machine along whole runs:
    the call [upload(opts)] is one step out of [Init], and the phase of
    a later world is reachable by [astep] from the phase of any earlier
    one, so a run never returns to an earlier stage and never leaves
    [Finalized] or [Failed]. *)
Theorem run_refines arg (w0 : world (C:=C)) :
  upload h arg = Returned w0 ->
  astep Init (phase_of w0) /\
  forall ins1 ins2,
    clos_refl_trans _ astep (phase_of (run h w0 ins1)) (phase_of (run h w0 (ins1 ++ ins2))).
Proof.
  intros Hu. split.
  { pose proof (upload_refines arg) as Ha. rewrite Hu in Ha. exact Ha. }
  intros ins1 ins2. unfold run. rewrite fold_left_app.
  assert (Hr : reachable h (run h w0 ins1)) by (apply reachable_run; eapply reach_start; exact Hu).
  unfold run in Hr. revert Hr. generalize (fold_left (deliver h) ins1 w0) as w.
  induction ins2 as [|i ins IH]; intros w Hr; simpl; [apply rt_refl|].
  apply rt_trans with (phase_of (deliver h w i)).
  - destruct (phase_step w i Hr) as [E|Hs]; [rewrite E; apply rt_refl | apply rt_step, Hs].
  - apply IH. apply reach_step. exact Hr.
Qed.

End Host.

End Abs.

(** The first scenario up to the upload stream's ['uploaded']: stored. *)
Definition stored_world : world (C:=trace_chan) :=
  run scenario_host scenario_w0 (firstn 6 success_inputs).

Lemma deliver_refines_witness :
  phase_of (deliver scenario_host stored_world (IPostReply (HttpResponse 201%Z scenario_job))) =
    phase_of stored_world \/
  astep (phase_of stored_world)
        (phase_of (deliver scenario_host stored_world (IPostReply (HttpResponse 201%Z scenario_job)))).
Proof. apply deliver_refines. apply reachable_run, scenario_w0_reachable. Defined.

Lemma run_refines_witness :
  astep Init (phase_of scenario_w0) /\
  clos_refl_trans _ astep (phase_of (run scenario_host scenario_w0 (firstn 3 success_inputs)))
    (phase_of (run scenario_host scenario_w0 (firstn 3 success_inputs ++ skipn 3 success_inputs))).
Proof.
  pose proof (run_refines scenario_host (Some Options.scenario_opts) scenario_w0 eq_refl) as [Ha Hp].
  split; [exact Ha | apply Hp].
Defined.

End Refinement.
