(* ===== verification/Progress.v ===== *)
(** * Progress: the ['stats'] samples of one upload

    [putfile] relays every ['progress'] of the meter as ['stats']
    (src/index.js:103-105).  The byte counts the caller sees never go
    back: along the channel's events the [transferred] field of the
    ['stats'] samples is non-decreasing, and never exceeds what the meter
    has counted. *)

From Stdlib Require Import String List ZArith Bool Lia.
From S2P Require Import Prelude JsValue Options Channel Http Creds Finalize Putfile Upload Safety.
Import ListNotations.
Import Options Putfile Upload Safety.
Local Open Scope Z_scope.

Module Progress.

(** The byte counts of the ['stats'] events, in emission order. *)
Fixpoint stats_of (l : list event) : list Z :=
  match l with
  | [] => []
  | EStats s :: l' => s_transferred s :: stats_of l'
  | _ :: l' => stats_of l'
  end.

(** A list of byte counts that never decreases. *)
Fixpoint nondecreasing (l : list Z) : bool :=
  match l with
  | a :: ((b :: _) as l') => (a <=? b) && nondecreasing l'
  | _ => true
  end.

Lemma stats_of_app l1 l2 : stats_of (l1 ++ l2) = stats_of l1 ++ stats_of l2.
Proof.
  induction l1 as [|[] l1 IH]; simpl; rewrite ?IH; reflexivity.
Qed.

Lemma nondecreasing_snoc l x :
  nondecreasing l = true -> forallb (fun y => y <=? x) l = true ->
  nondecreasing (l ++ [x]) = true.
Proof.
  induction l as [|a [|b l] IH]; simpl; intros Hn Hf; [reflexivity| |].
  - rewrite andb_true_r in Hf. rewrite Hf. reflexivity.
  - apply andb_prop in Hn as [Hab Hn]. apply andb_prop in Hf as [Ha Hf].
    rewrite Hab. simpl. apply IH; assumption.
Qed.

Lemma forallb_le_mono l x y :
  x <= y -> forallb (fun z => z <=? x) l = true -> forallb (fun z => z <=? y) l = true.
Proof.
  intros Hxy Hf. apply forallb_forall. intros z Hz.
  rewrite forallb_forall in Hf. specialize (Hf z Hz). apply Z.leb_le in Hf. apply Z.leb_le. lia.
Qed.

Section Inv.
Context {C : Type} `{Emitter C}.

(** The samples are ordered and bounded by the meter. *)
Definition stats_ok (w : world (C:=C)) : Prop :=
  nondecreasing (stats_of (events (w_chan w))) = true /\
  forallb (fun y => y <=? m_transferred (w_meter w)) (stats_of (events (w_chan w))) = true.

Lemma stats_of_progress relay smp (c : C) :
  stats_of (events (progress relay smp c)) =
  stats_of (events c) ++ (if relay then [s_transferred smp] else []).
Proof.
  unfold progress. destruct relay; rewrite ?emit_events, ?stats_of_app; simpl;
    rewrite ?app_nil_r; reflexivity.
Qed.

Section Host.
Variable h : host_env.

Lemma meter_grows (w : world (C:=C)) i :
  m_transferred (w_meter w) <= m_transferred (w_meter (deliver h w i)).
Proof.
  destruct (deliver_meter h w i) as [E|[[v E]|[[k [E|E]]|E]]]; rewrite E; simpl; lia.
Qed.

Lemma stats_ok_deliver (w : world (C:=C)) i : stats_ok w -> stats_ok (deliver h w i).
Proof.
  intros [Hn Hb]. pose proof (meter_grows w i) as Hm.
  pose proof (forallb_le_mono _ _ _ Hm Hb) as Hb'.
  unfold stats_ok.
  destruct (deliver_events h w i) as [E|[[e E]|[[relay E]|[[b [_ [_ E]]]|[v E]]]]];
    rewrite E; rewrite ?stats_of_app, ?stats_of_progress; simpl; rewrite ?app_nil_r;
    try (split; assumption).
  destruct relay; simpl; rewrite ?app_nil_r; [|split; assumption].
  split.
  - apply nondecreasing_snoc; [exact Hn|exact Hb'].
  - rewrite forallb_app, Hb'. simpl. rewrite Z.leb_refl. reflexivity.
Qed.

Lemma stats_ok_reachable (w : world (C:=C)) : reachable h w -> stats_ok w.
Proof.
  induction 1 as [arg w Hw | w i _ IH]; [|apply stats_ok_deliver; exact IH].
  destruct (upload_returned h arg w Hw) as (o & _ & ->).
  unfold stats_ok. simpl. rewrite new_chan_events. split; reflexivity.
Qed.

(** C16: the byte counts of the ['stats'] events of an upload never
    decrease, and none exceeds the bytes the meter has counted. *)
Theorem stats_nondecreasing (w : world (C:=C)) :
  reachable h w ->
  nondecreasing (stats_of (events (w_chan w))) = true /\
  Forall (fun y => y <= m_transferred (w_meter w)) (stats_of (events (w_chan w))).
Proof.
  intros Hr. destruct (stats_ok_reachable w Hr) as [Hn Hb]. split; [exact Hn|].
  apply Forall_forall. intros y Hy. rewrite forallb_forall in Hb.
  apply Z.leb_le, Hb, Hy.
Qed.

End Host.
End Inv.

(** Scenario 1 with the file sent in two chunks. *)
Definition two_chunk_inputs : list input :=
  [IListen; IGetReply (HttpResponse 200%Z (Json scenario_creds)); IMpuReady None;
   ISrcData 400 true; ISrcData 600 true; ISrcEnd].

Lemma stats_nondecreasing_witness :
  stats_of (events (w_chan (run scenario_host scenario_w0 two_chunk_inputs))) = [400; 1000; 1000] /\
  nondecreasing (stats_of (events (w_chan (run scenario_host scenario_w0 two_chunk_inputs)))) = true /\
  Forall (fun y => y <= m_transferred (w_meter (run scenario_host scenario_w0 two_chunk_inputs)))
         (stats_of (events (w_chan (run scenario_host scenario_w0 two_chunk_inputs)))).
Proof.
  split; [vm_compute; reflexivity|].
  apply (stats_nondecreasing scenario_host). apply reachable_run, scenario_w0_reachable.
Defined.

End Progress.
