(* ===== verification/Completion.v ===== *)
(** * Completion: a well-behaved environment takes an upload to the end

    The safety theorems say what can never happen; this file shows that
    the pipeline does finish: for valid options naming a file that exists
    and credentials the callback accepts, the inputs of a successful
    upload (the credentials reply, the uploader ready, the end of the file,
    the upload stream's ['uploaded'], a 201) produce the three network
    calls in order and end the channel with ['finished'].  It also shows
    that, under [request]'s own checks, [upload] sends the credentials
    request for the default and every ordinary base URL. *)

From Stdlib Require Import String Ascii List ZArith Bool Lia.
From S2P Require Import Prelude JsValue Url Options Channel Http Creds Finalize Putfile Upload Safety.
Import ListNotations.
Import Options Putfile Upload Safety.

Module Completion.

(** The inputs of a successful upload of a file sent in one chunk of
    [n] bytes. *)
Definition success_run (creds body : jsval) (n : nat) : list input :=
  [IListen; IGetReply (HttpResponse 200%Z (Json creds)); IMpuReady None;
   ISrcData n true; ISrcEnd; IUploaded; IPostReply (HttpResponse 201%Z body)].

(** The meter once [setLength(len)] ran and one chunk of [k] bytes went
    through [prog] with an emission; the events: the ['length'] of
    [setLength], then the ['progress'] and ['stats'] of that emission and
    of the flush. *)
Definition one_chunk (len : jsval) (k : nat) : meter :=
  emit_update false (write_chunk k (set_length len fresh_meter)).

Definition one_chunk_events (len : jsval) (k : nat) : list event :=
  [ELength len; EProgress (update_of (one_chunk len k)); EStats (update_of (one_chunk len k));
   EProgress (update_of (emit_update true (one_chunk len k)));
   EStats (update_of (emit_update true (one_chunk len k)))].

Section Host.
Context {C : Type} `{Emitter C}.
Variable h : host_env.

#[local] Arguments Creds.getcreds_reply : simpl never.
#[local] Arguments putfile_send : simpl never.
#[local] Arguments Finalize.create_upload_send : simpl never.
#[local] Arguments Finalize.create_upload_reply : simpl never.

Lemma create_upload_send_after_getcreds env arg o creds (c : C) :
  upload_opts env arg = (o, Ok o) -> Creds.creds_ok creds = true ->
  Finalize.create_upload_send env o creds c =
  Ok (c, Some (Finalize.create_request o (prop_or_undef creds "bucket") (prop_or_undef creds "key"))).
Proof.
  intros Ho Hc. unfold Finalize.create_upload_send.
  rewrite (Finalize.check_stage_ok env arg o creds c Ho Hc). reflexivity.
Qed.

(** C6: the pipeline completes: for options [upload.opts] accepts, with a
    string [opts.mapbox] whose credentials URI [request] does not refuse,
    that name a file [fs.statSync] sees, and credentials the callback accepts,
    the inputs of a successful upload make [upload] send the credentials
    [GET], start the S3 upload to the credentials' bucket and key and then
    [POST] the registration, and the channel receives the progress and
    ['stats'] of the one chunk, those of the flush, and ['finished'] with
    the reply's body, in this order. *)
Theorem upload_completes arg o creds p n body (k : nat) :
  upload_opts (process h) arg = (o, Ok o) -> is_string (mapbox o) = true ->
  request_sync h (Creds.getcreds_request o) = None ->
  truthy (stream o) = false -> file o = JStr p -> fs_size h p = Some n ->
  Creds.creds_ok creds = true ->
  exists w0, upload h arg = Returned w0 /\
    events (w_chan (run h w0 (success_run creds body k))) =
      one_chunk_events (JNum n) k ++ [EFinished body] /\
    w_net (run h w0 (success_run creds body k)) =
      [NetGet (Creds.getcreds_request o);
       NetS3 (s3_params_of creds (prop_or_undef creds "bucket") (prop_or_undef creds "key"));
       NetPost (Finalize.create_request o (prop_or_undef creds "bucket") (prop_or_undef creds "key"))].
Proof.
  intros Ho Hm Hq Hs Hf Hn Hc.
  pose proof (Creds.getcreds_reply_accepts creds (listen (C:=C) new_chan) Hc) as Hg.
  pose proof (putfile_file_setup h arg o creds (listen (C:=C) new_chan) fresh_meter p n
                Ho Hc Hs Hf Hn) as Hp.
  pose proof (fun c => create_upload_send_after_getcreds (process h) arg o creds c Ho Hc) as Hu.
  eexists. split; [exact (upload_valid_world h arg o Ho Hm Hq)|].
  unfold success_run, run. cbn. rewrite Hg. cbn. unfold on_creds. cbn. rewrite Hp. cbn.
  rewrite Hu. cbn. unfold Finalize.create_upload_reply. cbn.
  rewrite !emit_events, listen_events, new_chan_events. split; reflexivity.
Qed.

(** The inputs of a successful upload of a caller stream that announces
    its length [len] and sends one chunk of [n] bytes. *)
Definition stream_run (creds body len : jsval) (n : nat) : list input :=
  [IListen; IGetReply (HttpResponse 200%Z (Json creds)); IMpuReady None; ISrcLength len;
   ISrcData n true; ISrcEnd; IUploaded; IPostReply (HttpResponse 201%Z body)].

(** C7: the pipeline completes for a caller stream too: with a string
    [opts.mapbox] whose credentials URI [request] does not refuse, and without [opts.length], the listener [st.on('length', prog.setLength)] gives
    the samples the length the stream announces, and the run ends with
    ['finished'] after the three network calls, as for a file. *)
Theorem upload_completes_stream arg o creds len body (k : nat) :
  upload_opts (process h) arg = (o, Ok o) -> is_string (mapbox o) = true ->
  request_sync h (Creds.getcreds_request o) = None ->
  truthy (stream o) = true -> truthy (length_opt o) = false ->
  instanceof_stream (stream o) = true -> Creds.creds_ok creds = true ->
  exists w0, upload h arg = Returned w0 /\
    events (w_chan (run h w0 (stream_run creds body len k))) =
      one_chunk_events len k ++ [EFinished body] /\
    w_net (run h w0 (stream_run creds body len k)) =
      [NetGet (Creds.getcreds_request o);
       NetS3 (s3_params_of creds (prop_or_undef creds "bucket") (prop_or_undef creds "key"));
       NetPost (Finalize.create_request o (prop_or_undef creds "bucket") (prop_or_undef creds "key"))].
Proof.
  intros Ho Hm Hq Hs Hl Hi Hc.
  pose proof (Creds.getcreds_reply_accepts creds (listen (C:=C) new_chan) Hc) as Hg.
  pose proof (putfile_stream_setup h arg o creds (listen (C:=C) new_chan) fresh_meter
                Ho Hc Hs Hl Hi) as Hp.
  pose proof (fun c => create_upload_send_after_getcreds (process h) arg o creds c Ho Hc) as Hu.
  eexists. split; [exact (upload_valid_world h arg o Ho Hm Hq)|].
  unfold stream_run, run. cbn. rewrite Hg. cbn. unfold on_creds. cbn. rewrite Hp. cbn.
  rewrite Hi. cbn. rewrite Hu. cbn. unfold Finalize.create_upload_reply. cbn.
  rewrite !emit_events, listen_events, new_chan_events. split; reflexivity.
Qed.

End Host.

Section Request.
Context {C : Type} `{Emitter C}.

(** C20: under [request]'s own checks, [upload(opts)] with the default
    [https://api.tiles.mapbox.com], or any ordinary base URL
    [http(s)://h] (bare or with a path) whose host name is not empty,
    returns [prog] untouched with the credentials [GET] sent and its
    callback registered, when the account and the token add no white
    space and the URL is [https:] or no proxy is set. *)
Theorem upload_sends_credentials_get env fs arg o (secure : bool) hst p :
  upload_opts env arg = (o, Ok o) ->
  mapbox o = JStr ((if secure then "https://" else "http://") ++ hst ++ p) ->
  Url.all_chars Url.plain_host_char hst = true -> hst <> ""%string -> String.length hst <= 255 ->
  (p = EmptyString \/ exists q, p = String "/"%char q) ->
  Url.all_chars (fun ch => negb (Url.is_ws ch))
    (p ++ "/uploads/v1/" ++ format_s (account o) ++ "/credentials?access_token=" ++
     format_s (accesstoken o))%string = true ->
  secure = true \/ truthy (proxy o) = false ->
  upload (C:=C) (mkHost env fs request_refusal) arg =
  Returned (mkWorld new_chan fresh_meter [NetGet (Creds.getcreds_request o)] (Some o)
                    None None None false false None).
Proof.
  intros Ho Hm Hh Hne Hl Hp Hw Hs.
  apply (upload_valid_world (mkHost env fs request_refusal) arg o Ho); [rewrite Hm; reflexivity|].
  exact (Creds.request_refusal_plain o secure hst p Hm Hh Hne Hl Hp Hw Hs).
Qed.

End Request.

(** Scenario 1 with the default base URL: [upload] returns with the
    credentials [GET] sent. *)
Lemma upload_sends_credentials_get_witness :
  upload (C:=trace_chan) scenario_host (Some Options.scenario_opts) = Returned scenario_w0.
Proof.
  apply (upload_sends_credentials_get Options.scenario_env _ _ scenario_o true "api.tiles.mapbox.com" "");
    first [discriminate | (left; reflexivity) | (simpl; lia) | (vm_compute; reflexivity)].
Defined.

(** Scenario 1 run to the end: the file of 1000 bytes sent in one chunk. *)
Lemma upload_completes_witness :
  exists w0, upload scenario_host (Some Options.scenario_opts) = Returned (C:=trace_chan) w0 /\
    events (w_chan (run scenario_host w0 (success_run scenario_creds scenario_job 1000))) =
      one_chunk_events (JNum 1000) 1000 ++ [EFinished scenario_job] /\
    w_net (run scenario_host w0 (success_run scenario_creds scenario_job 1000)) =
      [NetGet (Creds.getcreds_request (fst (upload_opts Options.scenario_env (Some Options.scenario_opts))));
       NetS3 (s3_params_of scenario_creds (JStr "b1") (JStr "k1"));
       NetPost (Finalize.create_request (fst (upload_opts Options.scenario_env (Some Options.scenario_opts)))
                  (JStr "b1") (JStr "k1"))].
Proof.
  apply (upload_completes scenario_host (Some Options.scenario_opts)
           (fst (upload_opts Options.scenario_env (Some Options.scenario_opts)))
           scenario_creds "tiles.mbtiles" 1000 scenario_job 1000); reflexivity.
Defined.

(** A caller stream [JStream 7] announcing 100 bytes, sent in one chunk. *)
Definition bare_stream_opts : opts :=
  mkOpts JUndefined (JStream 7) (JStr "acme") (JStr "tok") (JStr "acme.mytileset")
         JUndefined JUndefined JUndefined.

Lemma upload_completes_stream_witness :
  exists w0, upload scenario_host (Some bare_stream_opts) = Returned (C:=trace_chan) w0 /\
    events (w_chan (run scenario_host w0 (stream_run scenario_creds scenario_job (JNum 100) 100))) =
      one_chunk_events (JNum 100) 100 ++ [EFinished scenario_job] /\
    w_net (run scenario_host w0 (stream_run scenario_creds scenario_job (JNum 100) 100)) =
      [NetGet (Creds.getcreds_request (fst (upload_opts Options.scenario_env (Some bare_stream_opts))));
       NetS3 (s3_params_of scenario_creds (JStr "b1") (JStr "k1"));
       NetPost (Finalize.create_request (fst (upload_opts Options.scenario_env (Some bare_stream_opts)))
                  (JStr "b1") (JStr "k1"))].
Proof.
  apply (upload_completes_stream scenario_host (Some bare_stream_opts)
           (fst (upload_opts Options.scenario_env (Some bare_stream_opts)))
           scenario_creds (JNum 100) scenario_job 100); reflexivity.
Defined.

End Completion.
