(* ===== verification/Meter.v ===== *)
(** * Meter: the [update] object of [progress-stream] along an upload

    [Channel] models [progress-stream] as the [meter]: [write] counts the
    bytes of a chunk into [transferred] and [delta], [emit] copies [delta]
    into [update.delta], sets [update.percentage] and resets [delta], and
    [setLength] sets [length] and [update.remaining].  [Upload.deliver]
    drives it: a data input writes a chunk and emits on a tick, the end
    of the source flushes with [emit(true)], and the ['length'] listener
    that [putfile] attaches to a caller stream calls [setLength].

    - [deltas_account]: the bytes counted so far are the [delta]s of the
      ['progress'] samples emitted plus the bytes not yet reported: no
      byte is reported twice or lost between two samples.
    - [degraded_percentage]: the open question of the spec on a caller
      stream without [opts.length] that never reports its length.  Every
      sample then has length 0, remaining 0 and percentage 0, except the
      flush, which reports 100: percentage is not unavailable, it is 0
      until it jumps to 100. *)

From Stdlib Require Import String List ZArith QArith Bool Lia.
From S2P Require Import Prelude JsValue Options Channel Http Creds Finalize Putfile Upload Safety.
From S2P Require Import Progress Completion.
Import ListNotations.
Import Options Putfile Upload Safety.
Local Open Scope Z_scope.

Module Meter.

(** The bytes a ['progress'] sample reports as written since the emission
    before it ([update.delta]); ['stats'] relays the same object and is not
    counted again. *)
Definition delta_of (ev : event) : Z :=
  match ev with
  | EProgress s => match s_delta s with JNum d => d | _ => 0 end
  | _ => 0
  end.

Definition deltas (l : list event) : Z := fold_right (fun ev acc => delta_of ev + acc) 0 l.

Lemma deltas_app l1 l2 : deltas (l1 ++ l2) = deltas l1 + deltas l2.
Proof. induction l1 as [|ev l1 IH]; simpl; rewrite ?IH; lia. Qed.

Lemma deltas_progress {C : Type} `{Emitter C} relay s (c : C) :
  deltas (events (progress relay s c)) = deltas (events c) + delta_of (EProgress s).
Proof.
  unfold progress. destruct relay; rewrite ?emit_events, ?deltas_app; simpl; lia.
Qed.

Section Account.
Context {C : Type} `{Emitter C}.
Variable h : host_env.

(** Every byte the meter counted is in one sample's [delta] or in the
    [delta] still to be reported. *)
Definition account (w : world (C:=C)) : Prop :=
  deltas (events (w_chan w)) + m_delta (w_meter w) = m_transferred (w_meter w).

(** [putfile] changes the meter by [setLength] at most, which keeps both
    counts. *)
Lemma putfile_send_counts o creds (c c' : C) m m' r :
  putfile_send h o creds c m = Ok (c', m', r) ->
  m_delta m' = m_delta m /\ m_transferred m' = m_transferred m.
Proof. intros Hr. destruct (putfile_send_meter h o creds c m c' m' r Hr) as [->|[v ->]]; auto. Qed.

Lemma account_deliver (w : world (C:=C)) i : account w -> account (deliver h w i).
Proof.
  unfold account, deliver. destruct (w_crash w); [auto|].
  destruct w as [c m net get mpu src up post relay cr]; simpl.
  destruct i; simpl; unfold on_creds, after, raise, unpipe; case_ifs; simpl;
    repeat match goal with
           | Hr : putfile_send _ _ _ _ _ = Ok (_, _, _) |- _ =>
               pose proof (putfile_send_counts _ _ _ _ _ _ _ Hr) as [? ?];
               apply putfile_send_shape in Hr; simpl in Hr
           end;
    handler_shapes; simpl;
    rewrite ?emit_events, ?listen_events, ?deltas_progress, ?deltas_app; simpl in *; lia.
Qed.

Lemma account_reachable (w : world (C:=C)) : reachable h w -> account w.
Proof.
  induction 1 as [arg w Hw | w i _ IH]; [|apply account_deliver; exact IH].
  destruct (upload_returned h arg w Hw) as (o & _ & ->).
  unfold account. simpl. rewrite new_chan_events. reflexivity.
Qed.

(** C17: [progress-stream] reports every byte once: in every reachable
    world the [delta]s of the ['progress'] samples emitted so far add up,
    with the bytes written since the last emission, to the bytes counted.
    Each emission hands its [delta] to the sample and resets it. *)
Theorem deltas_account (w : world (C:=C)) :
  reachable h w -> deltas (events (w_chan w)) + m_delta (w_meter w) = m_transferred (w_meter w).
Proof. apply account_reachable. Qed.

End Account.


(** ** A caller stream whose length nobody knows *)

(** What the meter shows when its length stays 0. *)
Definition flat_sample (s : sample) : Prop :=
  s_length s = JNum 0 /\ s_remaining s = Some 0 /\
  (s_percentage s = Some 0%Q \/ s_percentage s = Some 100%Q).

Definition flat_event (ev : event) : Prop :=
  match ev with
  | EProgress s | EStats s => flat_sample s
  | _ => True
  end.

Section Degraded.
Context {C : Type} `{Emitter C}.
Variable h : host_env.
Variable o : opts.
Hypothesis Hstream : truthy (stream o) = true.
Hypothesis Hlength : truthy (length_opt o) = false.
Variable arg : option opts.
Hypothesis Ho : upload_opts (process h) arg = (o, Ok o).

(** The credentials callback still holds [o] or is gone, the meter's
    length is 0, and every sample emitted shows it. *)
Definition degraded (w : world (C:=C)) : Prop :=
  (w_get w = None \/ w_get w = Some o) /\ 0 <= m_transferred (w_meter w) /\
  flat_sample (update_of (w_meter w)) /\ Forall flat_event (events (w_chan w)).

Lemma flat_write k m :
  0 <= m_transferred m -> flat_sample (update_of m) -> flat_sample (update_of (write_chunk k m)).
Proof.
  intros Ht (Hl & Hr & Hp). unfold flat_sample, update_of, write_chunk in *; simpl in *.
  rewrite Hl. simpl. repeat split; auto.
  destruct (Z.leb_spec (m_transferred m + Z.of_nat k) 0); f_equal; lia.
Qed.

Lemma flat_emit ended m :
  flat_sample (update_of m) -> flat_sample (update_of (emit_update ended m)).
Proof.
  intros (Hl & Hr & Hp). unfold flat_sample, update_of, emit_update, percentage in *; simpl in *.
  rewrite Hl. destruct ended; auto.
Qed.

Lemma degraded_progress relay m (c : C) :
  flat_sample (update_of m) -> Forall flat_event (events c) ->
  Forall flat_event (events (progress relay (update_of m) c)).
Proof.
  intros Hm Hc. unfold progress.
  destruct relay; rewrite ?emit_events; repeat (apply Forall_app; split; auto).
Qed.

Lemma flat_snoc l ev : Forall flat_event l -> flat_event ev -> Forall flat_event (l ++ [ev]).
Proof. intros Hl He. apply Forall_app. auto. Qed.

#[local] Hint Resolve flat_snoc flat_write flat_emit degraded_progress : upload.
#[local] Hint Extern 1 (flat_event (EError _)) => exact I : upload.
#[local] Hint Extern 1 (flat_event (EFinished _)) => exact I : upload.
#[local] Hint Extern 1 (flat_event (ELength _)) => exact I : upload.

(** Every input but the stream's ['length'] keeps the meter flat. *)
Lemma degraded_deliver (w : world (C:=C)) i :
  (forall v, i <> ISrcLength v) -> degraded w -> degraded (deliver h w i).
Proof.
  intros Hi (Hg & Ht & Hm & He). unfold degraded, deliver.
  destruct (w_crash w); [auto|].
  destruct w as [c m net get mpu src up post relay cr]; simpl in *.
  destruct i; try solve [destruct (Hi _ eq_refl)]; simpl; unfold on_creds, after, raise, unpipe;
    case_ifs; simpl;
    repeat match goal with
           | Hr : putfile_send _ _ _ _ _ = Ok (_, _, _) |- _ =>
               let E := fresh in
               assert (E : o0 = o) by (destruct Hg; congruence); subst o0;
               pose proof (putfile_send_stream_meter h arg o _ _ _ _ _ _ Ho Hstream Hlength Hr);
               apply putfile_send_shape in Hr; simpl in Hr
           end;
    handler_shapes; simpl in *; subst;
    rewrite ?emit_events, ?listen_events in *; simpl in *;
    (split; [first [left; reflexivity | right; reflexivity | assumption] |]);
    (split; [lia | split]); auto 6 with upload.
Qed.

Lemma degraded_run ins : forall (w : world (C:=C)),
  (forall v, ~ In (ISrcLength v) ins) -> degraded w -> degraded (run h w ins).
Proof.
  induction ins as [|i ins IH]; intros w Hi Hw; simpl; [exact Hw|].
  apply IH; [intros v Hv; apply (Hi v); right; exact Hv|].
  apply degraded_deliver; [|exact Hw].
  intros v ->. apply (Hi v). left. reflexivity.
Qed.

(** C18: the degraded mode the spec leaves open: for a caller stream
    without [opts.length] that never emits ['length'], every ['progress']
    and ['stats'] sample of the upload shows length 0, remaining 0 and a
    percentage of 0, except the samples of the flush, whose percentage
    is 100.  The percentage is not withheld: it reads 0 until the end. *)
Theorem degraded_percentage w0 ins :
  upload h arg = Returned w0 -> (forall v, ~ In (ISrcLength v) ins) ->
  Forall flat_event (events (w_chan (run h w0 ins))).
Proof.
  intros Hu Hi. destruct (upload_returned h arg w0 Hu) as (o' & Ho' & ->).
  rewrite Ho in Ho'. injection Ho' as <-.
  apply degraded_run; [exact Hi|].
  unfold degraded, flat_sample; simpl. rewrite new_chan_events. repeat split; auto; lia.
Qed.

End Degraded.

(** Scenario 1 sent in two chunks: the samples report 400 and 600 bytes,
    and the flush none. *)
Lemma deltas_account_witness :
  map delta_of (events (w_chan (run scenario_host scenario_w0 Progress.two_chunk_inputs))) = [0; 400; 0; 600; 0; 0; 0] /\
  deltas (events (w_chan (run scenario_host scenario_w0 Progress.two_chunk_inputs))) +
    m_delta (w_meter (run scenario_host scenario_w0 Progress.two_chunk_inputs)) =
  m_transferred (w_meter (run scenario_host scenario_w0 Progress.two_chunk_inputs)).
Proof.
  split; [vm_compute; reflexivity|].
  apply (deltas_account scenario_host). apply reachable_run, scenario_w0_reachable.
Defined.

(** The caller stream of [Completion] sends 100 bytes and never reports its
    length. *)
Definition unknown_length_inputs : list input :=
  [IListen; IGetReply (HttpResponse 200%Z (Json scenario_creds)); IMpuReady None;
   ISrcData 100 true; ISrcEnd].

Lemma degraded_percentage_witness :
  exists w0, upload scenario_host (Some Completion.bare_stream_opts) = Returned (C:=trace_chan) w0 /\
    map (fun ev => match ev with EProgress s => s_percentage s | _ => None end)
        (events (w_chan (run scenario_host w0 unknown_length_inputs))) =
      [Some 0%Q; None; Some 100%Q; None] /\
    Forall flat_event (events (w_chan (run scenario_host w0 unknown_length_inputs))).
Proof.
  eexists. split; [reflexivity|]. split; [vm_compute; reflexivity|].
  apply (degraded_percentage scenario_host
           (fst (upload_opts Options.scenario_env (Some Completion.bare_stream_opts)))
           ltac:(reflexivity) ltac:(reflexivity) (Some Completion.bare_stream_opts) ltac:(reflexivity)).
  - reflexivity.
  - intros v [Hv|[Hv|[Hv|[Hv|[Hv|[]]]]]]; discriminate.
Defined.

(** A caller stream that announces a length below what it already sent:
    after 100 bytes it reports 40, sends 10 more, then reports 50 and
    ends.  [write] clamps [remaining] at 0 but lets the percentage pass
    100 (110 of 40 bytes: 275); [setLength] does not clamp, so the flush
    reports [remaining] -60 beside a percentage of 100. *)
Definition late_length_inputs : list input :=
  [IListen; IGetReply (HttpResponse 200%Z (Json scenario_creds)); IMpuReady None;
   ISrcData 100 true; ISrcLength (JNum 40); ISrcData 10 true; ISrcLength (JNum 50); ISrcEnd].

Example late_length_out_of_range :
  exists w0, upload scenario_host (Some Completion.bare_stream_opts) = Returned (C:=trace_chan) w0 /\
    flat_map (fun ev => match ev with
                        | EProgress s => [(s_remaining s, option_map Qred (s_percentage s))]
                        | _ => []
                        end)
      (events (w_chan (run scenario_host w0 late_length_inputs))) =
    [(Some 0, Some 0%Q); (Some 0, Some 275%Q); (Some (-60), Some 100%Q)].
Proof. eexists. split; [reflexivity | vm_compute; reflexivity]. Qed.

End Meter.
